(** * go-smartos-mdata: the Version 2 metadata protocol client

    A shallow embedding of [mdata/mdata.go]: the frame record, the
    canonical body string, [Encode], [ParseFrame], [Negotiate] and the
    request cycle ([sendRequest], [Get], [Keys], [Delete], [Put]), with
    the standard-library functions they call ([strings], [fmt],
    [encoding/hex], [encoding/base64], [hash/crc32], [bufio]).

    A Go [string] and a Go [[]byte] are both finite byte sequences; they
    are embedded as [list ascii] (an [ascii] is one 8-bit byte).  A nil
    slice and an empty slice both denote the empty sequence: the program
    only ever takes [len] of a payload or converts it to a string, so the
    two are not told apart.  Go's [int] is taken to be 64 bits wide.

    Making the client ([DefaultClientConfig], [NewMetadataClient],
    [Close]) and the command line of [cmd/main.go] ([runCommand] and the
    closures of the four commands) are embedded over a [System]: what
    opening a serial port or dialling a socket gives is a parameter, and
    the connection is a state the request functions are run on.  The
    random source is a stream of bytes: with the Go version of go.mod
    [crypto/rand.Read] always fills its buffer.  The Unicode tables behind
    [strings.ToUpper] are a parameter; on ASCII strings the function is
    modelled in full. *)

From Stdlib Require Import Ascii String Bool Arith NArith ZArith Lia List.
Import ListNotations.

Local Open Scope list_scope.

(** ** Byte strings *)

Definition gostring := list ascii.

(** A string literal of the source. *)
Definition str (s : string) : gostring := list_ascii_of_string s.

Definition byte_val (c : ascii) : N := N_of_ascii c.
Definition byte_of (n : N) : ascii := ascii_of_N n.

Definition SP : ascii := " "%char.
Definition NL : ascii := "010"%char.
Definition CR : ascii := "013"%char.

Fixpoint eqb_str (a b : gostring) : bool :=
  match a, b with
  | [], [] => true
  | x :: a', y :: b' => Ascii.eqb x y && eqb_str a' b'
  | _, _ => false
  end.

(** A string has no occurrence of the byte [c]. *)
Definition lacks (c : ascii) (s : gostring) : Prop := ~ In c s.

(** Bytes that are neither a space nor a newline. *)
Definition plain (c : ascii) : bool :=
  negb (Ascii.eqb c SP) && negb (Ascii.eqb c NL).

Definition all_plain (s : gostring) : Prop := Forall (fun c => plain c = true) s.

Module strings.

(** [strings.HasPrefix(s, prefix)] *)
Fixpoint HasPrefix (s prefix : gostring) {struct prefix} : bool :=
  match prefix with
  | [] => true
  | p :: prefix' =>
      match s with
      | [] => false
      | c :: s' => Ascii.eqb c p && HasPrefix s' prefix'
      end
  end.

(** [strings.TrimPrefix(s, prefix)]: [s] without the leading [prefix],
    or [s] itself when it does not start with [prefix]. *)
Definition TrimPrefix (s prefix : gostring) : gostring :=
  if HasPrefix s prefix then skipn (length prefix) s else s.

(** [strings.HasSuffix(s, suffix)] *)
Definition HasSuffix (s suffix : gostring) : bool :=
  (length suffix <=? length s)
  && eqb_str (skipn (length s - length suffix) s) suffix.

(** [strings.TrimSuffix(s, suffix)] *)
Definition TrimSuffix (s suffix : gostring) : gostring :=
  if HasSuffix s suffix then firstn (length s - length suffix) s else s.

(** [strings.Split(s, sep)] for a one-byte separator, the only kind the
    program uses: the fields between the occurrences of [sep]; one more
    field than there are separators, so never an empty list. *)
Fixpoint Split (s : gostring) (sep : ascii) : list gostring :=
  match s with
  | [] => [[]]
  | c :: s' =>
      if Ascii.eqb c sep then [] :: Split s' sep
      else match Split s' sep with
           | p :: ps => (c :: p) :: ps
           | [] => [[c]]
           end
  end.

(** [strings.Join(elems, sep)] *)
Fixpoint Join (elems : list gostring) (sep : gostring) : gostring :=
  match elems with
  | [] => []
  | [e] => e
  | e :: rest => e ++ sep ++ Join rest sep
  end.

End strings.

(** ** Errors

    A Go [error] value.  [fmt.Errorf] without [%w] (and [errors.New])
    makes a plain message; [fmt.Errorf("...: %w", err)] wraps [err], the
    message being the text in front of the wrapped error's own.  Errors
    made by the standard library or by the transport are kept opaque:
    only where they come from is recorded, not their text. *)

Inductive error : Type :=
| errorString (msg : gostring)
| wrapError (msg : gostring) (err : error)
| libError (origin : string).

(** ** strings.ToUpper *)

Definition is_lower (c : ascii) : bool :=
  (97 <=? byte_val c)%N && (byte_val c <=? 122)%N.

(** [c >= utf8.RuneSelf] is the test for a byte outside ASCII. *)
Definition isASCII (s : gostring) : bool :=
  forallb (fun c => (byte_val c <? 128)%N) s.

(** [c -= 'a' - 'A'] on the lower-case letters, other bytes kept. *)
Definition upper_byte (c : ascii) : ascii :=
  if is_lower c then byte_of (byte_val c - 32) else c.

(** [strings.ToUpper(s)]: an ASCII-only string is mapped byte by byte;
    any other string goes through [strings.Map(unicode.ToUpper, s)],
    whose Unicode tables belong to the standard library: that path is the
    parameter [unicode_ToUpper]. *)
Definition strings_ToUpper (unicode_ToUpper : gostring -> gostring)
    (s : gostring) : gostring :=
  if isASCII s then map upper_byte s else unicode_ToUpper s.

(** ** fmt: integer verbs of Sprintf *)

Module fmt.

(** [ldigits], the digit table of package fmt. *)
Definition ldigits : gostring := str "0123456789abcdefx".

Definition digit (d : N) : ascii := nth (N.to_nat d) ldigits "0"%char.

(** The digit loop of [fmtInteger]: digits are written from the least
    significant one, in front of what is already in the buffer. *)
Fixpoint fmt_digits (fuel : nat) (base u : N) (buf : gostring) : gostring :=
  match fuel with
  | O => buf
  | S fuel' =>
      if (base <=? u)%N
      then fmt_digits fuel' base (u / base) (digit (u mod base) :: buf)
      else digit u :: buf
  end.

(** The digits of [u] in [base], left-padded with zeros to [width]. *)
Definition fmtInteger (u base : N) (width : nat) : gostring :=
  let ds := fmt_digits (S (N.to_nat (N.log2 u))) base u [] in
  repeat "0"%char (width - length ds) ++ ds.

(** [Sprintf("%d", n)] for an [int]. *)
Definition Sprintf_d (n : Z) : gostring :=
  if (n <? 0)%Z then "-"%char :: fmtInteger (Z.abs_N n) 10 0
  else fmtInteger (Z.abs_N n) 10 0.

(** [Sprintf("%08x", v)] for a [uint32]. *)
Definition Sprintf_08x (v : N) : gostring := fmtInteger v 16 8.

End fmt.

(** ** strconv.ParseInt and fmt.Sscanf with the verb %d *)

Definition is_digit (c : ascii) : bool :=
  (48 <=? byte_val c)%N && (byte_val c <=? 57)%N.

(** A lower-case hexadecimal digit. *)
Definition is_hex_lower (c : ascii) : bool :=
  is_digit c || (97 <=? byte_val c)%N && (byte_val c <=? 102)%N.

Definition MaxInt64 : Z := 9223372036854775807.

Module strconv.

(** The accumulation loop of [ParseUint] in base 10: [None] on a byte
    that is not a decimal digit. *)
Fixpoint digits_value (s : gostring) (acc : N) : option N :=
  match s with
  | [] => Some acc
  | c :: s' =>
      if is_digit c then digits_value s' (acc * 10 + (byte_val c - 48))
      else None
  end.

(** [strconv.ParseInt(s, 10, 64)]: an optional sign and at least one
    decimal digit, nothing else; the value must fit 64 signed bits. *)
Definition ParseInt (s : gostring) : option Z :=
  let '(neg, ds) :=
    match s with
    | c :: s' =>
        if Ascii.eqb c "+"%char then (false, s')
        else if Ascii.eqb c "-"%char then (true, s')
        else (false, s)
    | [] => (false, [])
    end in
  match ds with
  | [] => None
  | _ =>
      match digits_value ds 0 with
      | None => None
      | Some un =>
          if neg then
            if (Z.of_N un <=? MaxInt64 + 1)%Z then Some (- Z.of_N un)%Z
            else None
          else
            if (Z.of_N un <=? MaxInt64)%Z then Some (Z.of_N un) else None
      end
  end.

End strconv.

Module scan.

Definition b (c : ascii) (n : N) : bool := (byte_val c =? n)%N.

(** [SkipSpace] of the scanner behind [Sscanf]: leading space runes are
    dropped.  The input is read as UTF-8, so the spaces are the bytes
    09-0D and 20 and the encodings of U+0085, U+00A0, U+1680,
    U+2000-U+200A, U+2028, U+2029, U+202F, U+205F and U+3000.  A newline
    is an error in [Sscanf] (where newlines must match the format):
    [None]. *)
Fixpoint SkipSpace (s : gostring) : option gostring :=
  match s with
  | [] => Some []
  | c1 :: s1 =>
      if b c1 10 then None
      else if ((9 <=? byte_val c1)%N && (byte_val c1 <=? 13)%N) || b c1 32
      then SkipSpace s1
      else
        match s1 with
        | [] => Some s
        | c2 :: s2 =>
            if b c1 194 && (b c2 133 || b c2 160) then SkipSpace s2
            else
              match s2 with
              | [] => Some s
              | c3 :: s3 =>
                  if (b c1 225 && b c2 154 && b c3 128)
                     || (b c1 226 && b c2 128
                         && ((128 <=? byte_val c3)%N && (byte_val c3 <=? 138)%N
                             || b c3 168 || b c3 169 || b c3 175))
                     || (b c1 226 && b c2 129 && b c3 159)
                     || (b c1 227 && b c2 128 && b c3 128)
                  then SkipSpace s3
                  else Some s
              end
        end
  end.

(** [s.accept(sign)]: one leading [+] or [-] goes to the token. *)
Definition accept_sign (s : gostring) : gostring * gostring :=
  match s with
  | c :: s' =>
      if Ascii.eqb c "+"%char || Ascii.eqb c "-"%char then ([c], s')
      else ([], s)
  | [] => ([], [])
  end.

(** The bytes [scanNumber] accepts for the verb [%d]: the decimal digits
    (the underscore joins them for [%v] only). *)
Definition number_byte (c : ascii) : bool := is_digit c.

(** The longest prefix of bytes satisfying [p], and what follows it. *)
Fixpoint span (p : ascii -> bool) (s : gostring) : gostring * gostring :=
  match s with
  | c :: s' =>
      if p c then let '(tok, rest) := span p s' in (c :: tok, rest)
      else ([], s)
  | [] => ([], [])
  end.

(** [fmt.Sscanf(s, "%d", &v)]: the value stored in [v], or [None] when
    the call reports an error.  Leading spaces are skipped, then a sign
    and the longest run of digits are read and handed to
    [strconv.ParseInt]; what follows the number in [s] is not looked
    at. *)
Definition Sscanf_d (s : gostring) : option Z :=
  match SkipSpace s with
  | None => None
  | Some [] => None
  | Some s1 =>
      let '(sign, s2) := accept_sign s1 in
      let '(ds, _) := span number_byte s2 in
      match ds with
      | [] => None
      | _ => strconv.ParseInt (sign ++ ds)
      end
  end.

End scan.

(** ** encoding/hex *)

Module hex.

Definition hextable : gostring := str "0123456789abcdef".

Definition hexchar (d : N) : ascii := nth (N.to_nat d) hextable "0"%char.

(** [hex.EncodeToString(src)]: two lower-case digits per byte,
    [hextable[v>>4]] then [hextable[v&0x0f]]. *)
Fixpoint EncodeToString (src : gostring) : gostring :=
  match src with
  | [] => []
  | v :: src' =>
      hexchar (N.shiftr (byte_val v) 4)
        :: hexchar (N.land (byte_val v) 15)
        :: EncodeToString src'
  end.

End hex.

(** ** hash/crc32 *)

Definition uint32_not (x : N) : N := N.lxor x 4294967295.

Module crc32.

(** One entry of the table [MakeTable(poly)] builds: eight shift steps
    on the index. *)
Fixpoint table_steps (j : nat) (poly crc : N) : N :=
  match j with
  | O => crc
  | S j' =>
      table_steps j' poly
        (if N.testbit crc 0 then N.lxor (N.shiftr crc 1) poly
         else N.shiftr crc 1)
  end.

(** [crc32.MakeTable(poly)], as the map from index to entry. *)
Definition MakeTable (poly : N) : N -> N := fun i => table_steps 8 poly i.

(** The byte loop of [Update]:
    [crc = tab[byte(crc)^v] ^ (crc >> 8)]. *)
Definition update_loop (tab : N -> N) (p : gostring) (crc : N) : N :=
  fold_left
    (fun crc v =>
       N.lxor (tab (N.lxor (N.land crc 255) (byte_val v))) (N.shiftr crc 8))
    p crc.

(** [crc32.Checksum(data, tab)], that is [Update(0, tab, data)]: the
    register is complemented before and after the loop. *)
Definition Checksum (data : gostring) (tab : N -> N) : N :=
  uint32_not (update_loop tab data (uint32_not 0)).

End crc32.

(** ** encoding/base64, the standard padded encoding *)

(** [val>>shift&0x3F] *)
Definition six (val shift : N) : N := N.land (N.shiftr val shift) 63.

Module base64.

Definition encodeStd : gostring :=
  str "ABCDEFGHIJKLMNOPQRSTUVWXYZabcdefghijklmnopqrstuvwxyz0123456789+/".

Definition padChar : ascii := "="%char.

(** [enc.encode[i]] *)
Definition encode (i : N) : ascii := nth (N.to_nat i) encodeStd "A"%char.

Fixpoint index_of (c : ascii) (tbl : gostring) (i : N) : option N :=
  match tbl with
  | [] => None
  | d :: tbl' => if Ascii.eqb c d then Some i else index_of c tbl' (N.succ i)
  end.

(** [enc.decodeMap[c]]: the position of [c] in the alphabet, 0xFF for a
    byte outside it. *)
Definition decodeMap (c : ascii) : N :=
  match index_of c encodeStd 0 with
  | Some i => i
  | None => 255
  end.

Definition sextet (val : N) (shift : N) : ascii := encode (six val shift).

(** [StdEncoding.EncodeToString(src)]: each three bytes give four
    characters; a last block of one or two bytes is padded with [=]. *)
Fixpoint EncodeToString (src : gostring) : gostring :=
  match src with
  | [] => []
  | [b0] =>
      let val := N.shiftl (byte_val b0) 16 in
      [sextet val 18; sextet val 12; padChar; padChar]
  | [b0; b1] =>
      let val := N.lor (N.shiftl (byte_val b0) 16) (N.shiftl (byte_val b1) 8) in
      [sextet val 18; sextet val 12; sextet val 6; padChar]
  | b0 :: b1 :: b2 :: rest =>
      let val := N.lor (N.lor (N.shiftl (byte_val b0) 16)
                              (N.shiftl (byte_val b1) 8))
                       (byte_val b2) in
      sextet val 18 :: sextet val 12 :: sextet val 6 :: sextet val 0
        :: EncodeToString rest
  end.

(** [byte(x)]: the low eight bits. *)
Definition low_byte (x : N) : ascii := byte_of (N.land x 255).

(** The end of [decodeQuantum]: the sextets read so far (missing ones
    count as zero) are packed into 24 bits, of which [dlen - 1] bytes
    are written out. *)
Definition quantum_bytes (dbuf : list N) : gostring :=
  let d := fun i => nth i dbuf 0%N in
  let val := N.lor (N.lor (N.lor (N.shiftl (d 0%nat) 18) (N.shiftl (d 1%nat) 12))
                          (N.shiftl (d 2%nat) 6))
                   (d 3%nat) in
  firstn (length dbuf - 1)
    [low_byte (N.shiftr val 16); low_byte (N.shiftr val 8); low_byte val].

Definition is_newline (c : ascii) : bool := Ascii.eqb c NL || Ascii.eqb c CR.

(** "skip over newlines" *)
Fixpoint skip_newlines (s : gostring) : gostring :=
  match s with
  | c :: s' => if is_newline c then skip_newlines s' else s
  | [] => []
  end.

(** The loop of [Decode] over [decodeQuantum], read byte by byte; [dbuf]
    holds the sextets of the quantum being read.  Carriage returns and
    line feeds are skipped wherever they stand; padding may only close
    a quantum of two or three sextets and must end the input.  [None]
    stands for a [CorruptInputError]. *)
Fixpoint decode_loop (src : gostring) (dbuf : list N) : option gostring :=
  match src with
  | [] =>
      match dbuf with
      | [] => Some []
      | _ => None
      end
  | c :: rest =>
      let out := decodeMap c in
      if negb (out =? 255)%N then
        let dbuf' := dbuf ++ [out] in
        if (length dbuf' =? 4)%nat then
          match decode_loop rest [] with
          | Some tail => Some (quantum_bytes dbuf' ++ tail)
          | None => None
          end
        else decode_loop rest dbuf'
      else if is_newline c then decode_loop rest dbuf
      else if negb (Ascii.eqb c padChar) then None
      else
        match length dbuf with
        | 2%nat =>
            match skip_newlines rest with
            | [] => None
            | c' :: rest' =>
                if negb (Ascii.eqb c' padChar) then None
                else
                  match skip_newlines rest' with
                  | [] => Some (quantum_bytes dbuf)
                  | _ => None
                  end
            end
        | 3%nat =>
            match skip_newlines rest with
            | [] => Some (quantum_bytes dbuf)
            | _ => None
            end
        | _ => None
        end
  end.

(** [StdEncoding.DecodeString(s)]: the bytes, or [None] when the call
    reports an error. *)
Definition DecodeString (s : gostring) : option gostring := decode_loop s [].

End base64.

(** ** The connection and its buffered reader and writer

    The transport is an external collaborator; the client reaches it
    through one [bufio.ReadWriter].  The state below is that of a scripted
    stub: the bytes the connection has taken so far, how many more it
    takes before its [Write] starts failing, and the bytes the peer
    delivers before [Read] starts failing (end of stream or timeout).
    [entropy] is what [crypto/rand] will hand out. *)

(** The bytes of a source that does not run dry, in the order in which
    they are delivered. *)
Definition stream := nat -> ascii.

(** The first [n] bytes of a stream, and the stream after them. *)
Definition take (n : nat) (s : stream) : gostring := map s (seq 0 n).

Definition drop (n : nat) (s : stream) : stream := fun i => s (n + i)%nat.

(** The stream that begins with the bytes of [l] (and goes on with zero
    bytes): used to write down examples. *)
Definition from_list (l : gostring) : stream := fun i => nth i l zero.

Record World : Type := mkWorld {
  wr_buf : gostring;           (* bufio.Writer: buffered, not yet written *)
  wr_err : option error;       (* bufio.Writer: its sticky error *)
  conn_sent : gostring;        (* bytes the connection has accepted *)
  conn_wcap : option nat;      (* bytes accepted before Write fails; None: no failure *)
  conn_pending : gostring;     (* bytes from the peer, not yet consumed *)
  entropy : stream             (* bytes crypto/rand supplies from now on *)
}.

Definition set_wr (buf : gostring) (err : option error) (w : World) : World :=
  mkWorld buf err (conn_sent w) (conn_wcap w) (conn_pending w) (entropy w).

Definition set_conn_out (sent : gostring) (cap : option nat) (w : World) : World :=
  mkWorld (wr_buf w) (wr_err w) sent cap (conn_pending w) (entropy w).

Definition set_pending (p : gostring) (w : World) : World :=
  mkWorld (wr_buf w) (wr_err w) (conn_sent w) (conn_wcap w) p (entropy w).

Definition set_entropy (e : stream) (w : World) : World :=
  mkWorld (wr_buf w) (wr_err w) (conn_sent w) (conn_wcap w) (conn_pending w) e.

(** [Conn.Write(p)]: the count of bytes taken and the error, if any. *)
Definition conn_Write (p : gostring) (w : World) : (nat * option error) * World :=
  match conn_wcap w with
  | None => ((length p, None), set_conn_out (conn_sent w ++ p) None w)
  | Some cap =>
      if (length p <=? cap)%nat
      then ((length p, None),
            set_conn_out (conn_sent w ++ p) (Some (cap - length p)) w)
      else ((cap, Some (libError "Conn.Write")),
            set_conn_out (conn_sent w ++ firstn cap p) (Some 0%nat) w)
  end.

(** [rand.Read(b)] for a buffer of [n] bytes: the buffer is filled with
    the next [n] bytes of the source, and the error is nil.  With the Go
    version the module asks for (go.mod: 1.24) [crypto/rand.Read] never
    returns an error: should the system's source fail, the runtime ends
    the process, which no function of the program observes. *)
Definition rand_Read (n : nat) (w : World) : (gostring * option error) * World :=
  ((take n (entropy w), None), set_entropy (drop n (entropy w)) w).

Module bufio.

Definition defaultBufSize : nat := 4096.

(** [b.Available()] *)
Definition Available (w : World) : nat := defaultBufSize - length (wr_buf w).

(** [Writer.Flush]: the buffer goes to the connection in one [Write];
    after an error the unwritten part stays and the error sticks. *)
Definition Flush (w : World) : option error * World :=
  match wr_err w with
  | Some e => (Some e, w)
  | None =>
      match wr_buf w with
      | [] => (None, w)
      | buf =>
          let '((n, err), w1) := conn_Write buf w in
          let err := match err with
                     | None => if (n <? length buf)%nat
                               then Some (libError "io.ErrShortWrite") else None
                     | Some e => Some e
                     end in
          match err with
          | Some e => (Some e, set_wr (skipn n buf) (Some e) w1)
          | None => (None, set_wr [] None w1)
          end
      end
  end.

(** [Writer.WriteString]: while the string does not fit the free
    space, the buffer is filled up and flushed; the rest is buffered.
    (Neither connection wrapper is an [io.StringWriter], so the branch
    forwarding a large write is never taken.) *)
Fixpoint WriteString_loop (fuel : nat) (s : gostring) (nn : nat) (w : World)
  : (nat * option error) * World :=
  let finish :=
    match wr_err w with
    | Some e => ((nn, Some e), w)
    | None => ((nn + length s, None)%nat, set_wr (wr_buf w ++ s) None w)
    end in
  match fuel with
  | O => finish
  | S fuel' =>
      match wr_err w with
      | None =>
          if (Available w <? length s)%nat then
            let n := Available w in
            let w1 := set_wr (wr_buf w ++ firstn n s) None w in
            let '(_, w2) := Flush w1 in
            WriteString_loop fuel' (skipn n s) (nn + n) w2
          else finish
      | Some _ => finish
      end
  end.

Definition WriteString (s : gostring) (w : World) : (nat * option error) * World :=
  WriteString_loop (S (S (length s))) s 0 w.

(** The bytes up to and including the first [delim], and the rest. *)
Fixpoint cut_at (delim : ascii) (s : gostring) : option (gostring * gostring) :=
  match s with
  | [] => None
  | c :: s' =>
      if Ascii.eqb c delim then Some ([c], s')
      else match cut_at delim s' with
           | Some (line, rest) => Some (c :: line, rest)
           | None => None
           end
  end.

(** [Reader.ReadString(delim)]: the data up to and including the
    first [delim]; when the stream fails before a [delim] is seen, the
    data read so far together with the error. *)
Definition ReadString (delim : ascii) (w : World) : (gostring * option error) * World :=
  match cut_at delim (conn_pending w) with
  | Some (line, rest) => ((line, None), set_pending rest w)
  | None => ((conn_pending w, Some (libError "Conn.Read")), set_pending [] w)
  end.

End bufio.

(** ** Results and the request monad

    A Go function returning [(T, error)] with a zero [T] next to a
    non-nil error is a function into [result T]; one that also works on
    the connection threads the [World] through. *)

Inductive result (A : Type) : Type :=
| Ok (a : A)
| Err (e : error).

Arguments Ok {A} a.
Arguments Err {A} e.

Definition IO (A : Type) : Type := World -> result A * World.

Definition ret {A} (a : A) : IO A := fun w => (Ok a, w).

Definition fail {A} (e : error) : IO A := fun w => (Err e, w).

Definition bind {A B} (m : IO A) (k : A -> IO B) : IO B :=
  fun w => match m w with
           | (Ok a, w') => k a w'
           | (Err e, w') => (Err e, w')
           end.

Notation "x <- m ;; k" := (bind m (fun x => k))
  (at level 61, m at next level, right associativity).

(** [if err != nil { return ..., fmt.Errorf(msg + "%w", err) }] around a
    call that is itself a request step. *)
Definition wrapping {A} (msg : string) (m : IO A) : IO A :=
  fun w => match m w with
           | (Ok a, w') => (Ok a, w')
           | (Err e, w') => (Err (wrapError (str msg) e), w')
           end.

(** The same around a call returning the Go pair of a value and an
    error:
    the value is dropped when there is an error. *)
Definition try {A} (msg : string) (m : World -> (A * option error) * World) : IO A :=
  fun w => match m w with
           | ((a, None), w') => (Ok a, w')
           | ((_, Some e), w') => (Err (wrapError (str msg) e), w')
           end.

Definition try_err (msg : string) (m : World -> option error * World) : IO unit :=
  fun w => match m w with
           | (None, w') => (Ok tt, w')
           | (Some e, w') => (Err (wrapError (str msg) e), w')
           end.

Definition lift {A} (msg : string) (r : result A) : IO A :=
  wrapping msg (fun w => (r, w)).

(** ** mdata.go: frames *)

Record frame : Type := mkFrame {
  RequestID : gostring;
  Code : gostring;
  Payload : gostring;      (* raw payload bytes, not base64 *)
  BodyLength : Z;
  BodyChecksum : gostring
}.

Definition ProtocolPrefix : gostring := str "V2 ".
Definition NegotiationReq : gostring := str "NEGOTIATE V2" ++ [NL].
Definition NegotiationResp : gostring := str "V2_OK" ++ [NL].
Definition CRCPolynomial : N := 3988292384.   (* 0xEDB88320 *)

(** [buildBodyString]: the body string the checksum is taken of. *)
Definition buildBodyString (f : frame) : gostring :=
  let parts := [RequestID f; Code f] in
  let parts := if (0 <? length (Payload f))%nat
               then parts ++ [base64.EncodeToString (Payload f)]
               else parts in
  strings.Join parts (str " ").

(** [fmt.Sprintf("%08x", crc32.Checksum([]byte(body), crc32.MakeTable(CRCPolynomial)))] *)
Definition checksum_of (body : gostring) : gostring :=
  fmt.Sprintf_08x (crc32.Checksum body (crc32.MakeTable CRCPolynomial)).

(** [updateBodyMetadata]: length and checksum of the body string. *)
Definition updateBodyMetadata (f : frame) : frame :=
  let body := buildBodyString f in
  mkFrame (RequestID f) (Code f) (Payload f)
          (Z.of_nat (length body)) (checksum_of body).

(** [Encode]: [Sprintf("%s%d %s %s\n", ProtocolPrefix, BodyLength,
    BodyChecksum, body)]. *)
Definition Encode (f : frame) : gostring :=
  ProtocolPrefix ++ fmt.Sprintf_d (BodyLength f) ++ [SP]
    ++ BodyChecksum f ++ [SP] ++ buildBodyString f ++ [NL].

(** [ParseFrame] *)
Definition ParseFrame (data : gostring) : result frame :=
  if negb (strings.HasPrefix data ProtocolPrefix)
  then Err (errorString (str "invalid frame prefix")) else
  (* remove prefix and trailing newline *)
  let trimmed := strings.TrimPrefix (strings.TrimSuffix data [NL]) ProtocolPrefix in
  let parts := strings.Split trimmed SP in
  if (length parts <? 3)%nat
  then Err (errorString (str "invalid frame format")) else
  match scan.Sscanf_d (nth 0 parts []) with
  | None => Err (wrapError (str "invalid body length: ") (libError "fmt.Sscanf"))
  | Some bodyLength =>
      let checksum := nth 1 parts [] in
      if negb (length checksum =? 8)%nat
      then Err (errorString (str "invalid checksum format")) else
      let bodyParts := skipn 2 parts in
      if (length bodyParts <? 2)%nat
      then Err (errorString (str "invalid body format")) else
      let parsed :=
        if (2 <? length bodyParts)%nat then
          match base64.DecodeString (nth 2 bodyParts []) with
          | None => Err (wrapError (str "invalid payload encoding: ")
                                   (libError "base64.CorruptInputError"))
          | Some payload =>
              Ok (mkFrame (nth 0 bodyParts []) (nth 1 bodyParts []) payload
                          bodyLength checksum)
          end
        else Ok (mkFrame (nth 0 bodyParts []) (nth 1 bodyParts []) []
                         bodyLength checksum) in
      match parsed with
      | Err e => Err e
      | Ok f =>
          if negb (eqb_str (checksum_of (buildBodyString f)) checksum)
          then Err (errorString (str "checksum mismatch"))
          else Ok f
      end
  end.

(** [Negotiate]: the Go pair [(bool, error)]. *)
Definition Negotiate (w : World) : (bool * option error) * World :=
  match bufio.WriteString NegotiationReq w with
  | ((_, Some err), w1) =>
      ((false, Some (wrapError (str "failed to send negotiation: ") err)), w1)
  | ((_, None), w1) =>
      match bufio.Flush w1 with
      | (Some err, w2) =>
          ((false, Some (wrapError (str "failed to flush negotiation: ") err)), w2)
      | (None, w2) =>
          match bufio.ReadString NL w2 with
          | ((_, Some err), w3) =>
              ((false,
                Some (wrapError (str "failed to read negotiation response: ") err)),
               w3)
          | ((resp, None), w3) => ((eqb_str resp NegotiationResp, None), w3)
          end
      end
  end.

Section Client.

(** The Unicode path of [strings.ToUpper]. *)
Variable unicode_ToUpper : gostring -> gostring.

(** [newFrame] *)
Definition newFrame (code : gostring) (payload : gostring) : IO frame :=
  randBytes <- try "failed to generate request ID: " (rand_Read 4) ;;
  let requestID := hex.EncodeToString randBytes in
  let f := mkFrame requestID (strings_ToUpper unicode_ToUpper code) payload
                   0 [] in
  ret (updateBodyMetadata f).

(** [newFrameWithString] *)
Definition newFrameWithString (code payload : gostring) : IO frame :=
  newFrame code payload.

(** [sendRequest] *)
Definition sendRequest (code payload : gostring) : IO gostring :=
  frame <- wrapping "failed to create frame: " (newFrameWithString code payload) ;;
  _ <- try "failed to send frame: " (bufio.WriteString (Encode frame)) ;;
  _ <- try_err "failed to flush frame: " bufio.Flush ;;
  response <- try "failed to read response: " (bufio.ReadString NL) ;;
  respFrame <- lift "failed to parse response: " (ParseFrame response) ;;
  if negb (eqb_str (Code respFrame) (str "SUCCESS"))
  then fail (errorString (str "request failed with code: " ++ Code respFrame))
  else ret (Payload respFrame).

(** [Get] *)
Definition Get (payload : gostring) : IO gostring :=
  sendRequest (str "GET") payload.

(** [Keys] *)
Definition Keys : IO gostring := sendRequest (str "KEYS") [].

(** [Delete] *)
Definition Delete (payload : gostring) : IO unit :=
  _ <- sendRequest (str "DELETE") payload ;; ret tt.

(** [Put] *)
Definition Put (key value : gostring) : IO unit :=
  if strings.HasPrefix key (str "sdc:")
  then fail (errorString (str "cannot update keys in the read-only sdc: namespace"))
  else
    (* key and value are base64-encoded separately, then joined by a space *)
    let encodedKey := base64.EncodeToString key in
    let encodedValue := base64.EncodeToString value in
    let concatenated := encodedKey ++ str " " ++ encodedValue in
    _ <- sendRequest (str "PUT") concatenated ;; ret tt.

End Client.

(** ** Auxiliary notions for the properties *)

(** The fields of the body string. *)
Definition body_fields (f : frame) : list gostring :=
  RequestID f :: Code f ::
    match Payload f with
    | [] => []
    | _ => [base64.EncodeToString (Payload f)]
    end.

(** The last step of [ParseFrame]: the checksum comparison. *)
Definition verify (f : frame) : result frame :=
  if negb (eqb_str (checksum_of (buildBodyString f)) (BodyChecksum f))
  then Err (errorString (str "checksum mismatch"))
  else Ok f.

(** The payload [ParseFrame] takes from the fields after the code: none
    when there is no such field, otherwise the base64 decoding of the
    first one. *)
Definition payload_of (more : list gostring) : option gostring :=
  match more with
  | [] => Some []
  | b64 :: _ => base64.DecodeString b64
  end.

(** The error [Put] returns for a key of the reserved namespace. *)
Definition ErrReadOnly : error :=
  errorString (str "cannot update keys in the read-only sdc: namespace").

(** A stub connection with nothing buffered, a peer that has sent
    [incoming], and a generator that supplies [rnd]. *)
Definition stub (incoming : gostring) (rnd : stream) : World :=
  mkWorld [] None [] None incoming rnd.

(** A string that ends in a newline and has no other newline. *)
Definition one_line (s : gostring) : Prop :=
  exists line, s = line ++ [NL] /\ lacks NL line.

(** The text of a decimal integer: an optional sign, then digits only. *)
Definition integer_text (s : gostring) : bool :=
  match s with
  | [] => false
  | c :: s' =>
      if Ascii.eqb c "+"%char || Ascii.eqb c "-"%char
      then negb (length s' =? 0)%nat && forallb is_digit s'
      else forallb is_digit s
  end.


(** ** mdata.go: configuration and construction of the client

    A [time.Duration] is a number of nanoseconds. *)

Definition Duration := Z.
Definition Second : Duration := 1000000000%Z.

Module serial.

(** [serial.Config] of tarm/serial, with the fields the program sets. *)
Record Config : Type := mkConfig {
  Name : gostring;
  Baud : Z;
  ReadTimeout : Duration;
  Size : Z;
  Parity : ascii;
  StopBits : Z
}.

Definition ParityNone : ascii := "N"%char.
Definition Stop1 : Z := 1%Z.

End serial.

Definition transportSerial : gostring := str "serial".
Definition transportTCP : gostring := str "tcp".
Definition transportUnix : gostring := str "unix".

(** [SocketConfig] *)
Record SocketConfig_t : Type := mkSocketConfig {
  Network : gostring;
  Address : gostring;
  Timeout : Duration
}.

(** [ClientConfig]; a nil pointer is [None]. *)
Record ClientConfig : Type := mkClientConfig {
  Transport : gostring;
  SerialConfig : option serial.Config;
  SocketConfig : option SocketConfig_t
}.

(** [DefaultClientConfig]: [stat_ok path] tells whether [os.Stat(path)]
    succeeds and [GOOS] is [runtime.GOOS]; the second component is what
    the call prints on standard output. *)
Definition DefaultClientConfig (stat_ok : gostring -> bool) (GOOS : gostring)
  : ClientConfig * gostring :=
  if stat_ok (str "/native/.zonecontrol/metadata.sock") then
    (mkClientConfig transportUnix None
       (Some (mkSocketConfig (str "unix") (str "/native/.zonecontrol/metadata.sock")
                             (5 * Second)%Z)),
     [])
  else if stat_ok (str "/.zonecontrol/metadata.sock") then
    (mkClientConfig transportUnix None
       (Some (mkSocketConfig (str "unix") (str "/.zonecontrol/metadata.sock")
                             (5 * Second)%Z)),
     [])
  else
    let port (name : gostring) :=
      mkClientConfig transportSerial
        (Some (serial.mkConfig name 115200%Z (60 * Second)%Z 8%Z
                               serial.ParityNone serial.Stop1))
        None in
    if eqb_str GOOS (str "linux") then (port (str "/dev/ttyS1"), [])
    else if eqb_str GOOS (str "windows") then (port (str "COM1"), [])
    else if eqb_str GOOS (str "solaris") then (port (str "/dev/ttyb"), [])
    else (port [],
          str "Warning: unsupported OS " ++ GOOS
            ++ str ", Port field left empty" ++ [NL]).

(** What a freshly opened connection will do: how many bytes it takes
    before [Write] fails, and the bytes the peer delivers. *)
Record Peer : Type := mkPeer {
  peer_wcap : option nat;
  peer_data : gostring
}.

(** The operating system as the client sees it: the outcome of
    [serial.OpenPort] and of [Dialer.Dial], what [SetReadDeadline] and
    [Close] return on a connection, and the clock. *)
Record System : Type := mkSystem {
  serial_OpenPort : serial.Config -> result Peer;
  net_Dial : Duration -> gostring -> gostring -> result Peer;
  deadline_err : option error;
  close_err : option error;
  now : Z
}.

Inductive ConnKind : Type := SerialPort | NetConn.

(** [SetReadDeadline]'s argument: the zero [time.Time] (no deadline) or
    an instant. *)
Inductive Deadline : Type :=
| NoDeadline
| At (t : Z).

(** A connection with its buffered reader and writer: [conn] and [rw] of
    [MetadataClientImpl].  [closes] counts the calls of [Close] on the
    connection, [deadlines] lists the read deadlines set on it, latest
    first. *)
Record Session : Type := mkSession {
  kind : ConnKind;
  io : World;
  closes : nat;
  deadlines : list Deadline
}.

Definition set_io (w : World) (s : Session) : Session :=
  mkSession (kind s) w (closes s) (deadlines s).

(** [conn.Close()] *)
Definition conn_Close (sys : System) (s : Session) : option error * Session :=
  (close_err sys, mkSession (kind s) (io s) (S (closes s)) (deadlines s)).

(** [SetReadTimeout] of the two wrappers: a no-op on the serial port;
    on a socket [SetReadDeadline], with no deadline for a zero timeout and
    [time.Now().Add(timeout)] otherwise. *)
Definition SetReadTimeout (sys : System) (timeout : Duration) (s : Session)
  : option error * Session :=
  match kind s with
  | SerialPort => (None, s)
  | NetConn =>
      let d := if (timeout =? 0)%Z then NoDeadline else At (now sys + timeout)%Z in
      (deadline_err sys, mkSession (kind s) (io s) (closes s) (d :: deadlines s))
  end.

(** The connection just opened: nothing buffered, nothing sent. *)
Definition open_session (k : ConnKind) (p : Peer) (rnd : stream) : Session :=
  mkSession k (mkWorld [] None [] (peer_wcap p) (peer_data p) rnd) 0 [].

(** What [NewMetadataClient] returns: the client, or an error; with the
    error comes the connection the call had opened, if it had opened
    one, in the state the call left it. *)
Inductive Creation : Type :=
| Created (c : Session)
| Failed (e : error) (opened : option Session).

(** The first half of [NewMetadataClient]: the [switch] on the
    transport. *)
Definition open_transport (sys : System) (rnd : stream) (config : ClientConfig)
  : Creation :=
  if eqb_str (Transport config) transportSerial then
    match SerialConfig config with
    | None =>
        Failed (errorString (str "serial config required for serial transport")) None
    | Some sc =>
        if eqb_str (serial.Name sc) [] then
          Failed (errorString (str "serial port not specified in config")) None
        else
          match serial_OpenPort sys sc with
          | Err err =>
              Failed (wrapError (str "failed to open serial port " ++ serial.Name sc
                                   ++ str ": ") err) None
          | Ok p => Created (open_session SerialPort p rnd)
          end
    end
  else if eqb_str (Transport config) transportTCP
          || eqb_str (Transport config) transportUnix then
    match SocketConfig config with
    | None =>
        Failed (errorString (str "socket config required for " ++ Transport config
                               ++ str " transport")) None
    | Some so =>
        match net_Dial sys (Timeout so) (Network so) (Address so) with
        | Err err =>
            Failed (wrapError (str "failed to dial " ++ Network so ++ str " "
                                 ++ Address so ++ str ": ") err) None
        | Ok p =>
            match SetReadTimeout sys (Timeout so) (open_session NetConn p rnd) with
            | (Some err, s) =>
                Failed (wrapError (str "failed to set read timeout: ") err)
                       (Some (snd (conn_Close sys s)))
            | (None, s) => Created s
            end
        end
    end
  else
    Failed (errorString (str "unsupported transport: " ++ Transport config)) None.

(** [NewMetadataClient]; [rnd] is what [crypto/rand] holds when the
    client is made. *)
Definition NewMetadataClient (sys : System) (rnd : stream) (config : ClientConfig)
  : Creation :=
  match open_transport sys rnd config with
  | Failed e opened => Failed e opened
  | Created s =>
      let '((supported, err), w) := Negotiate (io s) in
      match err with
      | Some e =>
          Failed (wrapError (str "protocol negotiation failed: ") e)
                 (Some (snd (conn_Close sys (set_io w s))))
      | None =>
          if negb supported then
            Failed (errorString (str "server does not support Version 2 protocol"))
                   (Some (snd (conn_Close sys (set_io w s))))
          else Created (set_io w s)
      end
  end.

(** [Close] of the client. *)
Definition Close (sys : System) (c : Session) : option error * Session :=
  conn_Close sys c.

(** ** cmd/main.go *)

Definition ERROR_NOTFOUND : gostring := str "request failed with code: NOTFOUND".

(** [runCommand]: [op] is the operation run on the client.  The result
    is the error returned, what was printed on standard output, and the
    connection the call opened, if any, as the call left it. *)
Definition runCommand (sys : System) (stat_ok : gostring -> bool) (GOOS : gostring)
    (rnd : stream)
    (op : IO gostring) : option error * gostring * option Session :=
  let '(cfg, printed) := DefaultClientConfig stat_ok GOOS in
  match NewMetadataClient sys rnd cfg with
  | Failed err opened =>
      (Some (wrapError (str "failed to create client (" ++ Transport cfg ++ str "): ")
                       err),
       printed, opened)
  | Created client =>
      let '(r, w) := op (io client) in
      (* defer client.Close() *)
      let closed := snd (Close sys (set_io w client)) in
      match r with
      | Err err =>
          (* switch err.Error() { case ERROR_NOTFOUND: return err }; return err *)
          (Some err, printed, Some closed)
      | Ok result =>
          if negb (eqb_str result [])
          then (None, printed ++ result ++ [NL], Some closed)
          else (None, printed, Some closed)
      end
  end.

Section Commands.

Variable unicode_ToUpper : gostring -> gostring.

(** The operations of the four commands, on their arguments. *)
Definition get_op (key : gostring) : IO gostring := Get unicode_ToUpper key.

Definition keys_op : IO gostring := Keys unicode_ToUpper.

Definition put_op (key value : gostring) : IO gostring :=
  _ <- Put unicode_ToUpper key value ;; ret [].

Definition delete_op (key : gostring) : IO gostring :=
  _ <- Delete unicode_ToUpper key ;; ret [].

End Commands.

(** ** Auxiliary notions for the further properties *)

(** The line made of the given fields: the prefix, the fields separated
    by single spaces, a newline. *)
Definition wire_line (fields : list gostring) : gostring :=
  ProtocolPrefix ++ strings.Join fields [SP] ++ [NL].

(** The number of spaces in a string. *)
Definition spaces (s : gostring) : nat :=
  length (filter (fun c => Ascii.eqb c SP) s).

(** What is left of a line once the newline at its end and the prefix
    are taken off, as [ParseFrame] does. *)
Definition trimmed (data : gostring) : gostring :=
  strings.TrimPrefix (strings.TrimSuffix data [NL]) ProtocolPrefix.

(** A connection that takes every write, with a writer that has not
    failed. *)
Definition working (w : World) : Prop :=
  wr_err w = None /\ conn_wcap w = None.

(** The frame a request built from the first four random bytes of [w]
    carries. *)
Definition request_frame (uni : gostring -> gostring) (code payload : gostring)
    (w : World) : frame :=
  updateBodyMetadata
    (mkFrame (hex.EncodeToString (take 4 (entropy w)))
             (strings_ToUpper uni code) payload 0 []).

(** A frame as a peer would answer with it: a checksum that is the one of
    its body, a BodyLength that is an [int], a request id and a code with
    neither space nor newline. *)
Definition answerable (g : frame) : Prop :=
  BodyChecksum g = checksum_of (buildBodyString g) /\
  (- MaxInt64 - 1 <= BodyLength g <= MaxInt64)%Z /\
  all_plain (RequestID g) /\ all_plain (Code g).

(** The last three steps of [sendRequest], from the line read on. *)
Definition answer (line : gostring) : result gostring :=
  match ParseFrame line with
  | Err e => Err (wrapError (str "failed to parse response: ") e)
  | Ok g =>
      if eqb_str (Code g) (str "SUCCESS") then Ok (Payload g)
      else Err (errorString (str "request failed with code: " ++ Code g))
  end.

(** The connection takes [n] more bytes. *)
Definition accepts (wcap : option nat) (n : nat) : Prop :=
  match wcap with
  | None => True
  | Some cap => (n <= cap)%nat
  end.

(** A system on which every dial reaches the peer [p], serial ports
    cannot be opened, and deadlines and closing never fail. *)
Definition dialing_system (p : Peer) : System :=
  mkSystem (fun _ => Err (libError "serial.OpenPort")) (fun _ _ _ => Ok p)
           None None 0.

(** The zone socket of a native zone is there, and nothing else. *)
Definition native_zone (path : gostring) : bool :=
  eqb_str path (str "/.zonecontrol/metadata.sock").

(** The operating systems [DefaultClientConfig] knows a serial port
    for. *)
Definition known_OS (GOOS : gostring) : bool :=
  eqb_str GOOS (str "linux") || eqb_str GOOS (str "windows")
  || eqb_str GOOS (str "solaris").

(** One of the two zone sockets is there. *)
Definition zone_socket (stat_ok : gostring -> bool) : bool :=
  stat_ok (str "/native/.zonecontrol/metadata.sock")
  || stat_ok (str "/.zonecontrol/metadata.sock").

(** * Properties *)

(** ** Known values

    The models of the library functions agree with the published test
    values of the algorithms and with the behaviour of the Go functions
    on a few inputs. *)

Example crc32_check_value :
  checksum_of (str "123456789") = str "cbf43926".
Proof. vm_compute. reflexivity. Qed.

Example base64_rfc4648 :
  base64.EncodeToString (str "f") = str "Zg==" /\
  base64.EncodeToString (str "fo") = str "Zm8=" /\
  base64.EncodeToString (str "foo") = str "Zm9v" /\
  base64.EncodeToString (str "foobar") = str "Zm9vYmFy" /\
  base64.DecodeString (str "Zm9vYg==") = Some (str "foob") /\
  base64.DecodeString (str "Zm9v" ++ [NL] ++ str "YmFy") = Some (str "foobar") /\
  base64.DecodeString (str "Zm9vYg=") = None /\
  base64.DecodeString (str "Zm9v!mFy") = None.
Proof. vm_compute. repeat split. Qed.

Example printing_values :
  fmt.Sprintf_d 1203 = str "1203" /\ fmt.Sprintf_d (-45) = str "-45" /\
  fmt.Sprintf_d 0 = str "0" /\ fmt.Sprintf_08x 255 = str "000000ff" /\
  hex.EncodeToString (str "wxyz") = str "7778797a" /\
  strings_ToUpper (fun s => s) (str "get") = str "GET".
Proof. vm_compute. repeat split. Qed.

Example scanning_values :
  scan.Sscanf_d (str "16") = Some 16%Z /\
  scan.Sscanf_d (str "+7") = Some 7%Z /\
  scan.Sscanf_d (str "-7") = Some (-7)%Z /\
  scan.Sscanf_d ("009"%char :: str "12") = Some 12%Z /\
  scan.Sscanf_d (str "12abc") = Some 12%Z /\
  scan.Sscanf_d (str "abc") = None /\
  scan.Sscanf_d (str "1_0") = Some 1%Z /\
  scan.Sscanf_d (str "-") = None /\
  scan.Sscanf_d [] = None /\
  scan.Sscanf_d (str "9223372036854775808") = None.
Proof. vm_compute. repeat split. Qed.

Example wire_lines :
  Encode (updateBodyMetadata
            (mkFrame (str "7778797a") (str "GET") (str "sdc:uuid") 0 []))
    = str "V2 25 fcce2ce7 7778797a GET c2RjOnV1aWQ=" ++ [NL] /\
  Encode (updateBodyMetadata (mkFrame (str "7778797a") (str "KEYS") [] 0 []))
    = str "V2 13 739a1503 7778797a KEYS" ++ [NL].
Proof. vm_compute. repeat split. Qed.

Example request_cycle :
  fst (Get (fun s => s) (str "sdc:uuid")
           (stub (str "V2 21 fdff0508 00000000 SUCCESS aGk=" ++ [NL]) (from_list (str "wxyz"))))
    = Ok (str "hi") /\
  fst (Get (fun s => s) (str "nokey")
           (stub (str "V2 17 cfff1b65 00000000 NOTFOUND" ++ [NL]) (from_list (str "wxyz"))))
    = Err (errorString (str "request failed with code: NOTFOUND")) /\
  fst (Get (fun s => s) (str "sdc:uuid")
           (stub (str "V2 21 fdff0509 00000000 SUCCESS aGk=" ++ [NL]) (from_list (str "wxyz"))))
    = Err (wrapError (str "failed to parse response: ")
                     (errorString (str "checksum mismatch"))).
Proof. vm_compute. repeat split. Qed.

(** ** Facts on byte strings *)

Lemma eqb_str_eq (a b : gostring) : eqb_str a b = true <-> a = b.
Proof.
  revert b; induction a as [|x a IH]; intros [|y b]; simpl; split;
    try congruence; try reflexivity.
  - intro H. apply andb_true_iff in H as [H1 H2].
    apply Ascii.eqb_eq in H1. apply IH in H2. congruence.
  - intro H. injection H as -> ->.
    rewrite Ascii.eqb_refl. simpl. now apply IH.
Qed.

Lemma eqb_str_refl (a : gostring) : eqb_str a a = true.
Proof. now apply eqb_str_eq. Qed.

Lemma HasPrefix_app (p s : gostring) : strings.HasPrefix (p ++ s) p = true.
Proof.
  induction p as [|c p IH]; simpl; [reflexivity|].
  now rewrite Ascii.eqb_refl, IH.
Qed.

Lemma HasPrefix_inv (s p : gostring) :
  strings.HasPrefix s p = true -> s = p ++ skipn (length p) s.
Proof.
  revert s; induction p as [|c p IH]; intros s H; simpl in *.
  - reflexivity.
  - destruct s as [|d s]; [discriminate|].
    apply andb_true_iff in H as [H1 H2].
    apply Ascii.eqb_eq in H1. subst d. simpl. f_equal. now apply IH.
Qed.

Lemma TrimPrefix_app (p s : gostring) : strings.TrimPrefix (p ++ s) p = s.
Proof.
  unfold strings.TrimPrefix. rewrite HasPrefix_app.
  rewrite skipn_app, skipn_all, Nat.sub_diag. reflexivity.
Qed.

Lemma HasSuffix_app (s suf : gostring) : strings.HasSuffix (s ++ suf) suf = true.
Proof.
  unfold strings.HasSuffix. rewrite length_app.
  replace (length s + length suf - length suf) with (length s) by lia.
  rewrite skipn_app, skipn_all, Nat.sub_diag. simpl.
  rewrite eqb_str_refl, andb_true_r. apply Nat.leb_le. lia.
Qed.

Lemma TrimSuffix_app (s suf : gostring) : strings.TrimSuffix (s ++ suf) suf = s.
Proof.
  unfold strings.TrimSuffix. rewrite HasSuffix_app, length_app.
  replace (length s + length suf - length suf) with (length s) by lia.
  rewrite firstn_app, firstn_all, Nat.sub_diag. simpl. apply app_nil_r.
Qed.

Lemma lacks_cons (c d : ascii) (s : gostring) :
  lacks c (d :: s) <-> d <> c /\ lacks c s.
Proof. unfold lacks; simpl; tauto. Qed.

Lemma lacks_app (c : ascii) (s t : gostring) :
  lacks c (s ++ t) <-> lacks c s /\ lacks c t.
Proof. unfold lacks. rewrite in_app_iff. tauto. Qed.

Lemma Split_nonempty (s : gostring) (sep : ascii) : strings.Split s sep <> [].
Proof.
  destruct s as [|c s]; simpl; [discriminate|].
  destruct (Ascii.eqb c sep); [discriminate|].
  destruct (strings.Split s sep); discriminate.
Qed.

Lemma Split_lacks (s : gostring) (sep : ascii) :
  lacks sep s -> strings.Split s sep = [s].
Proof.
  induction s as [|c s IH]; intro H; simpl; [reflexivity|].
  apply lacks_cons in H as [H1 H2].
  destruct (Ascii.eqb_spec c sep) as [E|_]; [contradiction|].
  now rewrite IH.
Qed.

Lemma Split_app_sep (s t : gostring) (sep : ascii) :
  lacks sep s ->
  strings.Split (s ++ sep :: t) sep = s :: strings.Split t sep.
Proof.
  induction s as [|c s IH]; intro H; simpl.
  - now rewrite Ascii.eqb_refl.
  - apply lacks_cons in H as [H1 H2].
    destruct (Ascii.eqb_spec c sep) as [E|_]; [contradiction|].
    now rewrite IH.
Qed.

(** Splitting undoes joining when no element contains the separator. *)
Lemma Split_Join (elems : list gostring) (sep : ascii) :
  elems <> [] -> Forall (lacks sep) elems ->
  strings.Split (strings.Join elems [sep]) sep = elems.
Proof.
  induction elems as [|e rest IH]; intros Hne Hall; [congruence|].
  inversion Hall as [|? ? He Hrest]; subst.
  destruct rest as [|e' rest'].
  - simpl. now apply Split_lacks.
  - change (strings.Join (e :: e' :: rest') [sep])
      with (e ++ sep :: strings.Join (e' :: rest') [sep]).
    rewrite Split_app_sep by assumption.
    f_equal. apply IH; [discriminate|assumption].
Qed.

(** Joining undoes splitting, always. *)
Lemma Join_Split (s : gostring) (sep : ascii) :
  strings.Join (strings.Split s sep) [sep] = s.
Proof.
  induction s as [|c s IH]; simpl; [reflexivity|].
  destruct (Ascii.eqb_spec c sep) as [->|_].
  - destruct (strings.Split s sep) as [|p ps] eqn:E.
    + now apply Split_nonempty in E.
    + change (strings.Join ([] :: p :: ps) [sep])
        with (sep :: strings.Join (p :: ps) [sep]).
      now rewrite IH.
  - destruct (strings.Split s sep) as [|p ps] eqn:E.
    + now apply Split_nonempty in E.
    + rewrite <- IH. destruct ps; reflexivity.
Qed.

(** ** Bytes and small numbers *)

Lemma byte_val_lt (c : ascii) : (byte_val c < 256)%N.
Proof. apply N_ascii_bounded. Qed.

Lemma byte_val_of (n : N) : (n < 256)%N -> byte_val (byte_of n) = n.
Proof. apply N_ascii_embedding. Qed.

Lemma byte_of_val (c : ascii) : byte_of (byte_val c) = c.
Proof. apply ascii_N_embedding. Qed.

(** A boolean property checked on every number below [k] holds below [k]. *)
Lemma below_all (k : nat) (P : N -> bool) :
  forallb P (map N.of_nat (seq 0 k)) = true ->
  forall d, (d < N.of_nat k)%N -> P d = true.
Proof.
  intros H d Hd. rewrite forallb_forall in H. apply H.
  apply in_map_iff. exists (N.to_nat d). split; [lia|].
  apply in_seq. lia.
Qed.

(** The same for bytes. *)
Lemma all_bytes (P : ascii -> bool) :
  forallb (fun n => P (byte_of n)) (map N.of_nat (seq 0 256)) = true ->
  forall c, P c = true.
Proof.
  intros H c. rewrite <- (byte_of_val c).
  apply (below_all 256 (fun n => P (byte_of n)) H). apply byte_val_lt.
Qed.

(** ** Printing and scanning integers *)

Lemma digit10 (d : N) :
  (d < 10)%N ->
  is_digit (fmt.digit d) = true /\ (byte_val (fmt.digit d) - 48)%N = d.
Proof.
  intro H.
  pose proof (below_all 10
    (fun d => is_digit (fmt.digit d) && (byte_val (fmt.digit d) - 48 =? d)%N)
    eq_refl d H) as E.
  apply andb_true_iff in E as [E1 E2]. now apply N.eqb_eq in E2.
Qed.

(** What the digit loop returns: some digits in front of the buffer. *)
Lemma fmt_digits_app (fuel : nat) (base u : N) (buf : gostring) :
  fmt.fmt_digits fuel base u buf = fmt.fmt_digits fuel base u [] ++ buf.
Proof.
  revert u buf; induction fuel as [|fuel IH]; intros u buf; simpl; [reflexivity|].
  destruct (base <=? u)%N; [|reflexivity].
  rewrite IH. rewrite (IH _ [_]). now rewrite <- app_assoc.
Qed.

Lemma pow2_fuel_step (fuel : nat) (base u : N) :
  (2 <= base)%N -> (base <= u)%N -> (u < 2 ^ N.of_nat (S fuel))%N ->
  (u / base < 2 ^ N.of_nat fuel)%N /\ (1 <= fuel)%nat.
Proof.
  intros Hb Hu Hlt.
  rewrite Nat2N.inj_succ, N.pow_succ_r' in Hlt.
  split.
  - apply N.Div0.div_lt_upper_bound. nia.
  - destruct fuel; [simpl in Hlt; lia | lia].
Qed.

Lemma fuel_enough (u : N) : (u < 2 ^ N.of_nat (S (N.to_nat (N.log2 u))))%N.
Proof.
  rewrite Nat2N.inj_succ, N2Nat.id.
  destruct (N.eq_dec u 0) as [->|Hu]; [reflexivity|].
  apply N.log2_spec. lia.
Qed.

(** Reading back the digits written in base 10 adds the number to the
    accumulator, shifted by as many places. *)
Lemma digits_value_fmt (fuel : nat) (u : N) :
  (u < 2 ^ N.of_nat fuel)%N -> (1 <= fuel)%nat ->
  exists k,
    Forall (fun c => is_digit c = true) (fmt.fmt_digits fuel 10 u []) /\
    fmt.fmt_digits fuel 10 u [] <> [] /\
    forall rest acc,
      strconv.digits_value (fmt.fmt_digits fuel 10 u [] ++ rest) acc
      = strconv.digits_value rest (acc * 10 ^ k + u)%N.
Proof.
  revert u; induction fuel as [|fuel IH]; intros u Hlt Hf; [lia|].
  simpl. destruct (N.leb_spec 10 u) as [Hge|Hsmall].
  - destruct (pow2_fuel_step fuel 10 u ltac:(lia) Hge Hlt) as [Hq Hf'].
    destruct (IH (u / 10)%N Hq Hf') as (k & Hall & Hne & Hval).
    assert (Hm : (u mod 10 < 10)%N) by (apply N.mod_lt; lia).
    destruct (digit10 _ Hm) as [Hd1 Hd2].
    exists (N.succ k). rewrite fmt_digits_app. repeat split.
    + apply Forall_app. split; [assumption|]. now constructor.
    + destruct (fmt.fmt_digits fuel 10 (u / 10) []); discriminate.
    + intros rest acc. rewrite <- app_assoc. rewrite Hval. simpl.
      rewrite Hd1, Hd2. f_equal.
      rewrite N.pow_succ_r'. pose proof (N.div_mod u 10). lia.
  - destruct (digit10 _ Hsmall) as [Hd1 Hd2].
    exists 1%N. repeat split.
    + now constructor.
    + discriminate.
    + intros rest acc. simpl. rewrite Hd1, Hd2. f_equal; lia.
Qed.

Lemma is_digit_range (c : ascii) :
  is_digit c = true <-> (48 <= byte_val c <= 57)%N.
Proof.
  unfold is_digit. rewrite andb_true_iff, !N.leb_le. tauto.
Qed.

(** A printable ASCII byte at the head of the input stops [SkipSpace]. *)
Lemma SkipSpace_plain (c : ascii) (s : gostring) :
  (33 <= byte_val c < 128)%N -> scan.SkipSpace (c :: s) = Some (c :: s).
Proof.
  intro H. unfold scan.SkipSpace, scan.b.
  assert (E : forall k, (k < 33 \/ 128 <= k)%N -> (byte_val c =? k)%N = false)
    by (intros k Hk; apply N.eqb_neq; lia).
  rewrite !E by lia.
  replace (byte_val c <=? 13)%N with false by (symmetry; apply N.leb_gt; lia).
  rewrite andb_false_r. simpl.
  destruct s as [|c2 [|c3 s3]]; reflexivity.
Qed.

Lemma span_digits (ds : gostring) :
  Forall (fun c => is_digit c = true) ds ->
  scan.span scan.number_byte ds = (ds, []).
Proof.
  induction 1 as [|c ds Hc _ IH]; simpl; [reflexivity|].
  unfold scan.number_byte at 1. rewrite Hc, IH. reflexivity.
Qed.

Lemma digit_not_sign (c : ascii) :
  is_digit c = true ->
  Ascii.eqb c "+"%char = false /\ Ascii.eqb c "-"%char = false.
Proof.
  intro H. apply is_digit_range in H.
  split; apply Ascii.eqb_neq; intros ->; vm_compute in H; destruct H as [H1 H2];
    (now apply H1) || (now apply H2).
Qed.

(** The decimal digits of a number, as [Sprintf] writes them. *)
Lemma fmtInteger_10 (u : N) :
  exists c ds,
    fmt.fmtInteger u 10 0 = c :: ds /\
    Forall (fun c => is_digit c = true) (c :: ds) /\
    strconv.digits_value (c :: ds) 0 = Some u.
Proof.
  unfold fmt.fmtInteger. simpl repeat. rewrite app_nil_l.
  destruct (digits_value_fmt _ u (fuel_enough u) ltac:(lia)) as (k & Hall & Hne & Hval).
  destruct (fmt.fmt_digits _ 10 u []) as [|c ds] eqn:E; [congruence|].
  exists c, ds. repeat split; try assumption.
  specialize (Hval [] 0%N). rewrite app_nil_r in Hval. rewrite Hval.
  simpl. f_equal.
Qed.

Lemma ParseInt_minus (c : ascii) (ds : gostring) (u : N) :
  strconv.digits_value (c :: ds) 0 = Some u ->
  (Z.of_N u <= MaxInt64 + 1)%Z ->
  strconv.ParseInt ("-"%char :: c :: ds) = Some (- Z.of_N u)%Z.
Proof.
  intros Hval Hle. unfold strconv.ParseInt.
  change (Ascii.eqb "-" "+") with false. change (Ascii.eqb "-" "-") with true.
  cbv iota beta. rewrite Hval.
  now replace (Z.of_N u <=? MaxInt64 + 1)%Z with true
    by (symmetry; apply Z.leb_le; lia).
Qed.

Lemma ParseInt_digits (c : ascii) (ds : gostring) (u : N) :
  is_digit c = true ->
  strconv.digits_value (c :: ds) 0 = Some u ->
  (Z.of_N u <= MaxInt64)%Z ->
  strconv.ParseInt (c :: ds) = Some (Z.of_N u).
Proof.
  intros Hc Hval Hle. unfold strconv.ParseInt.
  destruct (digit_not_sign c Hc) as [-> ->].
  cbv iota beta. rewrite Hval.
  now replace (Z.of_N u <=? MaxInt64)%Z with true
    by (symmetry; apply Z.leb_le; lia).
Qed.

(** Scanning with [%d] what [%d] printed gives the number back, for
    every value of a 64-bit [int]. *)
Lemma Sscanf_d_Sprintf_d (n : Z) :
  (- MaxInt64 - 1 <= n <= MaxInt64)%Z ->
  scan.Sscanf_d (fmt.Sprintf_d n) = Some n.
Proof.
  intro Hn. unfold fmt.Sprintf_d.
  destruct (fmtInteger_10 (Z.abs_N n)) as (c & ds & E & Hall & Hval).
  rewrite E.
  assert (Hc : is_digit c = true) by now inversion Hall.
  pose proof (proj1 (is_digit_range c) Hc) as Hr.
  destruct (digit_not_sign c Hc) as [Hp Hm].
  destruct (Z.ltb_spec n 0) as [Hneg|Hpos]; unfold scan.Sscanf_d.
  - rewrite SkipSpace_plain by (vm_compute; split; [discriminate|reflexivity]).
    cbn [scan.accept_sign]. change (Ascii.eqb "-" "+") with false.
    change (Ascii.eqb "-" "-") with true. cbn [orb].
    rewrite span_digits by assumption. cbn [app].
    rewrite (ParseInt_minus c ds _ Hval) by lia. f_equal. lia.
  - rewrite SkipSpace_plain by lia.
    cbn [scan.accept_sign]. rewrite Hp, Hm. cbn [orb].
    rewrite span_digits by assumption. cbn [app].
    rewrite (ParseInt_digits c ds _ Hc Hval) by lia. f_equal. lia.
Qed.

(** ** Bytes that are neither a space nor a newline *)

Lemma plain_neq (c : ascii) : plain c = true <-> c <> SP /\ c <> NL.
Proof.
  unfold plain. rewrite andb_true_iff, !negb_true_iff, !Ascii.eqb_neq. tauto.
Qed.

Lemma all_plain_lacks (s : gostring) : all_plain s -> lacks SP s /\ lacks NL s.
Proof.
  unfold all_plain, lacks. rewrite Forall_forall. intro H.
  split; intro Hin; apply H in Hin; apply plain_neq in Hin; tauto.
Qed.

Lemma all_plain_app (s t : gostring) : all_plain s -> all_plain t -> all_plain (s ++ t).
Proof. intros. apply Forall_app. now split. Qed.

Lemma digit_plain (c : ascii) : is_digit c = true -> plain c = true.
Proof.
  revert c.
  assert (H : forall c, implb (is_digit c) (plain c) = true)
    by (apply all_bytes; vm_compute; reflexivity).
  intros c Hc. specialize (H c). now rewrite Hc in H.
Qed.

Lemma hexchar_plain (d : N) : (d < 16)%N -> plain (hex.hexchar d) = true.
Proof. apply (below_all 16 (fun d => plain (hex.hexchar d))). reflexivity. Qed.

(** Every character the digit loop writes is one of the first [base]
    digits of the table. *)
Lemma fmt_digits_all (P : ascii -> bool) (fuel : nat) (base u : N) (buf : gostring) :
  (2 <= base <= 16)%N ->
  forallb (fun d => P (fmt.digit d)) (map N.of_nat (seq 0 16)) = true ->
  Forall (fun c => P c = true) buf ->
  Forall (fun c => P c = true) (fmt.fmt_digits fuel base u buf).
Proof.
  intros Hb HP.
  pose proof (below_all 16 (fun d => P (fmt.digit d)) HP) as Hd.
  revert u buf; induction fuel as [|fuel IH]; intros u buf Hbuf; simpl.
  - assumption.
  - destruct (N.leb_spec base u) as [Hge|Hlt].
    + apply IH. constructor; [|assumption].
      apply Hd. pose proof (N.mod_lt u base ltac:(lia)). lia.
    + constructor; [|assumption]. apply Hd. lia.
Qed.

Lemma fmtInteger_all (P : ascii -> bool) (u base : N) (width : nat) :
  (2 <= base <= 16)%N ->
  forallb (fun d => P (fmt.digit d)) (map N.of_nat (seq 0 16)) = true ->
  Forall (fun c => P c = true) (fmt.fmtInteger u base width).
Proof.
  intros Hb HP. unfold fmt.fmtInteger. apply Forall_app. split.
  - apply Forall_forall. intros c Hc. apply repeat_spec in Hc. subst c.
    apply (below_all 16 (fun d => P (fmt.digit d)) HP 0%N). reflexivity.
  - apply fmt_digits_all; [assumption|assumption|constructor].
Qed.

Lemma fmtInteger_plain (u base : N) (width : nat) :
  (2 <= base <= 16)%N -> all_plain (fmt.fmtInteger u base width).
Proof. intro Hb. now apply fmtInteger_all. Qed.

Lemma Sprintf_d_plain (n : Z) : all_plain (fmt.Sprintf_d n).
Proof.
  unfold fmt.Sprintf_d. destruct (n <? 0)%Z.
  - constructor; [reflexivity|]. apply fmtInteger_plain; lia.
  - apply fmtInteger_plain; lia.
Qed.

Lemma hex_EncodeToString_plain (src : gostring) : all_plain (hex.EncodeToString src).
Proof.
  induction src as [|v src IH]; cbn [hex.EncodeToString]; [constructor|].
  pose proof (byte_val_lt v) as Hv.
  constructor; [|constructor; [|assumption]]; apply hexchar_plain.
  - rewrite N.shiftr_div_pow2. apply N.Div0.div_lt_upper_bound.
    change (2 ^ 4)%N with 16%N. lia.
  - change 15%N with (N.ones 4). rewrite N.land_ones.
    apply N.mod_lt. discriminate.
Qed.

Lemma hex_EncodeToString_length (src : gostring) :
  length (hex.EncodeToString src) = (2 * length src)%nat.
Proof. induction src as [|v src IH]; simpl; [reflexivity|]. rewrite IH. lia. Qed.

(** The digit loop writes at most [k] digits for a number below
    [base ^ k]. *)
Lemma fmt_digits_length (fuel : nat) (base u : N) (buf : gostring) (k : nat) :
  (2 <= base)%N -> (1 <= k)%nat -> (u < base ^ N.of_nat k)%N ->
  (length (fmt.fmt_digits fuel base u buf) <= k + length buf)%nat.
Proof.
  intros Hb. revert u buf k; induction fuel as [|fuel IH]; intros u buf k Hk Hu; simpl.
  - lia.
  - destruct (N.leb_spec base u) as [Hge|Hlt]; [|simpl; lia].
    destruct k as [|k]; [lia|].
    rewrite Nat2N.inj_succ, N.pow_succ_r' in Hu.
    assert (Hk' : (1 <= k)%nat).
    { destruct k; [|lia]. simpl in Hu. lia. }
    assert (Hq : (u / base < base ^ N.of_nat k)%N)
      by (apply N.Div0.div_lt_upper_bound; lia).
    specialize (IH (u / base)%N (fmt.digit (u mod base) :: buf) k Hk' Hq).
    simpl in IH. lia.
Qed.

(** [%08x] of a [uint32] is eight characters long. *)
Lemma Sprintf_08x_length (v : N) :
  (v < 2 ^ 32)%N -> length (fmt.Sprintf_08x v) = 8%nat.
Proof.
  intro Hv. unfold fmt.Sprintf_08x, fmt.fmtInteger.
  rewrite length_app, repeat_length.
  pose proof (fmt_digits_length (S (N.to_nat (N.log2 v))) 16 v [] 8
                ltac:(lia) ltac:(lia) Hv) as H.
  change (length (@nil ascii)) with 0%nat in H. lia.
Qed.

(** ** The checksum is a 32-bit number *)

Lemma log2_below (a n : N) : (a < 2 ^ n)%N -> (0 < n)%N -> (N.log2 a < n)%N.
Proof.
  intros Ha Hn. destruct (N.eq_dec a 0) as [->|Hz]; [assumption|].
  apply N.log2_lt_pow2; lia.
Qed.

Lemma lxor_below (a b n : N) :
  (a < 2 ^ n)%N -> (b < 2 ^ n)%N -> (N.lxor a b < 2 ^ n)%N.
Proof.
  intros Ha Hb.
  destruct (N.eq_dec (N.lxor a b) 0) as [E|Hz].
  - rewrite E. apply N.neq_0_lt_0, N.pow_nonzero. discriminate.
  - destruct (N.eq_dec n 0) as [->|Hn].
    + simpl in Ha, Hb. assert (a = 0%N) by lia. assert (b = 0%N) by lia.
      subst. now elim Hz.
    + apply N.log2_lt_pow2; [lia|].
      pose proof (N.log2_lxor a b).
      pose proof (log2_below a n Ha ltac:(lia)).
      pose proof (log2_below b n Hb ltac:(lia)). lia.
Qed.

Lemma shiftr_below (a k n : N) : (a < 2 ^ n)%N -> (N.shiftr a k < 2 ^ n)%N.
Proof.
  intro Ha. rewrite N.shiftr_div_pow2.
  eapply N.le_lt_trans; [|exact Ha].
  apply N.Div0.div_le_upper_bound.
  assert (0 < 2 ^ k)%N by (apply N.neq_0_lt_0, N.pow_nonzero; discriminate).
  nia.
Qed.

Lemma table_steps_below (j : nat) (poly crc : N) :
  (poly < 2 ^ 32)%N -> (crc < 2 ^ 32)%N ->
  (crc32.table_steps j poly crc < 2 ^ 32)%N.
Proof.
  intro Hp. revert crc; induction j as [|j IH]; intros crc Hc;
    cbn [crc32.table_steps]; [assumption|].
  apply IH. destruct (N.testbit crc 0).
  - apply lxor_below; [now apply shiftr_below|assumption].
  - now apply shiftr_below.
Qed.

Lemma update_loop_below (tab : N -> N) (p : gostring) (crc : N) :
  (forall i, (i < 256)%N -> (tab i < 2 ^ 32)%N) ->
  (crc < 2 ^ 32)%N -> (crc32.update_loop tab p crc < 2 ^ 32)%N.
Proof.
  intro Htab. unfold crc32.update_loop.
  revert crc; induction p as [|v p IH]; intros crc Hc;
    cbn [fold_left]; [assumption|].
  apply IH. apply lxor_below; [|now apply shiftr_below].
  apply Htab. change 256%N with (2 ^ 8)%N. apply lxor_below.
  - change 255%N with (N.ones 8). rewrite N.land_ones.
    apply N.mod_lt. discriminate.
  - apply byte_val_lt.
Qed.

Lemma Checksum_below (data : gostring) :
  (crc32.Checksum data (crc32.MakeTable CRCPolynomial) < 2 ^ 32)%N.
Proof.
  unfold crc32.Checksum, uint32_not. apply lxor_below; [|reflexivity].
  apply update_loop_below; [|reflexivity].
  intros i Hi. unfold crc32.MakeTable. apply table_steps_below; [reflexivity|].
  eapply N.lt_trans; [exact Hi|reflexivity].
Qed.

(** The checksum text is always eight characters, none of them a space
    or a newline. *)
Lemma checksum_of_length (body : gostring) : length (checksum_of body) = 8%nat.
Proof. apply Sprintf_08x_length, Checksum_below. Qed.

Lemma checksum_of_plain (body : gostring) : all_plain (checksum_of body).
Proof. apply fmtInteger_plain. lia. Qed.

Lemma checksum_of_hex (body : gostring) :
  Forall (fun c => is_hex_lower c = true) (checksum_of body).
Proof. apply fmtInteger_all; [lia|reflexivity]. Qed.

(** ** Base64: decoding undoes encoding *)

Ltac div_lia := zify; Z.to_euclidean_division_equations; lia.

Lemma land_shiftl_low (hi lo k : N) :
  (lo < 2 ^ k)%N -> N.land (hi * 2 ^ k) lo = 0%N.
Proof.
  intro Hlo. apply N.bits_inj. intro m.
  rewrite N.land_spec, N.bits_0.
  destruct (N.lt_ge_cases m k) as [Hm|Hm].
  - now rewrite N.mul_pow2_bits_low.
  - rewrite <- (N.mod_small lo (2 ^ k)) by assumption.
    rewrite N.mod_pow2_bits_high by assumption. apply andb_false_r.
Qed.

(** [|] on a multiple of [2 ^ k] and a number below [2 ^ k] is [+]. *)
Lemma lor_mul_add (hi lo k : N) :
  (lo < 2 ^ k)%N -> N.lor (hi * 2 ^ k) lo = (hi * 2 ^ k + lo)%N.
Proof.
  intro Hlo. pose proof (land_shiftl_low hi lo k Hlo) as H0.
  rewrite <- N.lxor_lor by assumption.
  symmetry. now apply N.add_nocarry_lxor.
Qed.

Lemma six_spec (val shift : N) : six val shift = ((val / 2 ^ shift) mod 64)%N.
Proof.
  unfold six. rewrite N.shiftr_div_pow2.
  change 63%N with (N.ones 6). now rewrite N.land_ones.
Qed.

Lemma six_below (val shift : N) : (six val shift < 64)%N.
Proof. rewrite six_spec. apply N.mod_lt. discriminate. Qed.

(** The 24 bits [decodeQuantum] packs from four sextets. *)
Lemma pack_sextets (s1 s2 s3 s4 : N) :
  (s1 < 64)%N -> (s2 < 64)%N -> (s3 < 64)%N -> (s4 < 64)%N ->
  N.lor (N.lor (N.lor (N.shiftl s1 18) (N.shiftl s2 12)) (N.shiftl s3 6)) s4
  = (s1 * 262144 + s2 * 4096 + s3 * 64 + s4)%N.
Proof.
  intros H1 H2 H3 H4. rewrite !N.shiftl_mul_pow2.
  rewrite (lor_mul_add s1 (s2 * 2 ^ 12) 18)
    by (change (2 ^ 12)%N with 4096%N; change (2 ^ 18)%N with 262144%N; lia).
  replace (s1 * 2 ^ 18 + s2 * 2 ^ 12)%N with ((s1 * 64 + s2) * 2 ^ 12)%N
    by (change (2 ^ 12)%N with 4096%N; change (2 ^ 18)%N with 262144%N; lia).
  rewrite (lor_mul_add _ (s3 * 2 ^ 6) 12)
    by (change (2 ^ 6)%N with 64%N; change (2 ^ 12)%N with 4096%N; lia).
  replace ((s1 * 64 + s2) * 2 ^ 12 + s3 * 2 ^ 6)%N
    with (((s1 * 64 + s2) * 64 + s3) * 2 ^ 6)%N
    by (change (2 ^ 6)%N with 64%N; change (2 ^ 12)%N with 4096%N; lia).
  rewrite (lor_mul_add _ s4 6) by (change (2 ^ 6)%N with 64%N; lia).
  change (2 ^ 6)%N with 64%N. lia.
Qed.

(** The 24 bits [Encode] packs from three bytes. *)
Lemma pack_bytes (x0 x1 x2 : N) :
  (x1 < 256)%N -> (x2 < 256)%N ->
  N.lor (N.lor (N.shiftl x0 16) (N.shiftl x1 8)) x2
  = (x0 * 65536 + x1 * 256 + x2)%N.
Proof.
  intros H1 H2. rewrite !N.shiftl_mul_pow2.
  rewrite (lor_mul_add x0 (x1 * 2 ^ 8) 16)
    by (change (2 ^ 8)%N with 256%N; change (2 ^ 16)%N with 65536%N; lia).
  replace (x0 * 2 ^ 16 + x1 * 2 ^ 8)%N with ((x0 * 256 + x1) * 2 ^ 8)%N
    by (change (2 ^ 8)%N with 256%N; change (2 ^ 16)%N with 65536%N; lia).
  rewrite (lor_mul_add _ x2 8) by (change (2 ^ 8)%N with 256%N; lia).
  change (2 ^ 8)%N with 256%N. lia.
Qed.

Lemma low_byte_spec (x : N) (c : ascii) :
  (x mod 256)%N = byte_val c -> base64.low_byte x = c.
Proof.
  intro H. unfold base64.low_byte. change 255%N with (N.ones 8).
  rewrite N.land_ones. change (2 ^ 8)%N with 256%N.
  rewrite H. apply byte_of_val.
Qed.

(** A full quantum: four sextets of three bytes give the bytes back. *)
Lemma quantum_full (b0 b1 b2 : ascii) :
  let val := N.lor (N.lor (N.shiftl (byte_val b0) 16) (N.shiftl (byte_val b1) 8))
                   (byte_val b2) in
  base64.quantum_bytes [six val 18; six val 12; six val 6; six val 0]
  = [b0; b1; b2].
Proof.
  intro val. unfold base64.quantum_bytes. cbn [nth length firstn Nat.sub].
  rewrite pack_sextets by apply six_below.
  pose proof (byte_val_lt b0). pose proof (byte_val_lt b1).
  pose proof (byte_val_lt b2).
  subst val. rewrite pack_bytes by assumption.
  rewrite !six_spec, !N.shiftr_div_pow2.
  change (2 ^ 18)%N with 262144%N. change (2 ^ 12)%N with 4096%N.
  change (2 ^ 6)%N with 64%N. change (2 ^ 0)%N with 1%N.
  change (2 ^ 16)%N with 65536%N. change (2 ^ 8)%N with 256%N.
  repeat f_equal; apply low_byte_spec; div_lia.
Qed.

(** A closing quantum of two bytes: three sextets. *)
Lemma quantum_two (b0 b1 : ascii) :
  let val := N.lor (N.shiftl (byte_val b0) 16) (N.shiftl (byte_val b1) 8) in
  base64.quantum_bytes [six val 18; six val 12; six val 6] = [b0; b1].
Proof.
  intro val. unfold base64.quantum_bytes. cbn [nth length firstn Nat.sub].
  rewrite pack_sextets by (apply six_below || reflexivity).
  pose proof (byte_val_lt b0). pose proof (byte_val_lt b1).
  assert (E : val = (byte_val b0 * 65536 + byte_val b1 * 256 + 0)%N).
  { subst val. rewrite <- pack_bytes by lia. now rewrite N.lor_0_r. }
  rewrite E.
  rewrite !six_spec, !N.shiftr_div_pow2.
  change (2 ^ 18)%N with 262144%N. change (2 ^ 12)%N with 4096%N.
  change (2 ^ 6)%N with 64%N.
  change (2 ^ 16)%N with 65536%N. change (2 ^ 8)%N with 256%N.
  repeat f_equal; apply low_byte_spec; div_lia.
Qed.

(** A closing quantum of one byte: two sextets. *)
Lemma quantum_one (b0 : ascii) :
  let val := N.shiftl (byte_val b0) 16 in
  base64.quantum_bytes [six val 18; six val 12] = [b0].
Proof.
  intro val. unfold base64.quantum_bytes. cbn [nth length firstn Nat.sub].
  rewrite pack_sextets by (apply six_below || reflexivity).
  pose proof (byte_val_lt b0).
  assert (E : val = (byte_val b0 * 65536)%N)
    by (subst val; now rewrite N.shiftl_mul_pow2).
  rewrite E.
  rewrite !six_spec, !N.shiftr_div_pow2.
  change (2 ^ 18)%N with 262144%N. change (2 ^ 12)%N with 4096%N.
  change (2 ^ 16)%N with 65536%N.
  repeat f_equal; apply low_byte_spec; div_lia.
Qed.

Lemma decodeMap_encode (d : N) :
  (d < 64)%N -> base64.decodeMap (base64.encode d) = d.
Proof.
  intro H. apply N.eqb_eq.
  apply (below_all 64 (fun d => (base64.decodeMap (base64.encode d) =? d)%N));
    [vm_compute; reflexivity | assumption].
Qed.

Lemma encode_plain (d : N) : (d < 64)%N -> plain (base64.encode d) = true.
Proof. apply (below_all 64 (fun d => plain (base64.encode d))). reflexivity. Qed.

(** One alphabet character read into the quantum buffer. *)
Lemma decode_loop_sextet (val shift : N) (rest : gostring) (dbuf : list N) :
  base64.decode_loop (base64.sextet val shift :: rest) dbuf
  = let dbuf' := dbuf ++ [six val shift] in
    if (length dbuf' =? 4)%nat then
      match base64.decode_loop rest [] with
      | Some tail => Some (base64.quantum_bytes dbuf' ++ tail)
      | None => None
      end
    else base64.decode_loop rest dbuf'.
Proof.
  cbn [base64.decode_loop]. unfold base64.sextet.
  rewrite decodeMap_encode by apply six_below.
  replace (six val shift =? 255)%N with false
    by (symmetry; apply N.eqb_neq; pose proof (six_below val shift); lia).
  reflexivity.
Qed.

(** Padding closes a quantum of two or of three sextets. *)
Lemma decode_loop_pad (dbuf : list N) (pads : gostring) :
  (length dbuf = 2%nat /\ pads = [base64.padChar; base64.padChar]) \/
  (length dbuf = 3%nat /\ pads = [base64.padChar]) ->
  base64.decode_loop pads dbuf = Some (base64.quantum_bytes dbuf).
Proof.
  intros [[H ->]|[H ->]]; cbn [base64.decode_loop];
    change (base64.decodeMap base64.padChar) with 255%N;
    change (255 =? 255)%N with true;
    change (base64.is_newline base64.padChar) with false;
    change (Ascii.eqb base64.padChar base64.padChar) with true;
    cbn [negb]; rewrite H; reflexivity.
Qed.

(** Induction three elements at a time. *)
Lemma list_ind3 {A} (P : list A -> Prop) :
  P [] -> (forall a, P [a]) -> (forall a b, P [a; b]) ->
  (forall a b c l, P l -> P (a :: b :: c :: l)) ->
  forall l, P l.
Proof.
  intros H0 H1 H2 H3.
  fix IH 1. intros [|a [|b [|c l]]].
  - exact H0.
  - apply H1.
  - apply H2.
  - apply H3, IH.
Qed.

(** [DecodeString] undoes [EncodeToString]. *)
Lemma DecodeString_EncodeToString (src : gostring) :
  base64.DecodeString (base64.EncodeToString src) = Some src.
Proof.
  unfold base64.DecodeString.
  induction src as [|b0|b0 b1|b0 b1 b2 rest IH] using list_ind3.
  - reflexivity.
  - cbn [base64.EncodeToString]. cbv zeta.
    repeat (rewrite decode_loop_sextet; cbv zeta; cbn [app length Nat.eqb]).
    rewrite decode_loop_pad by (left; split; reflexivity).
    now rewrite quantum_one.
  - cbn [base64.EncodeToString]. cbv zeta.
    repeat (rewrite decode_loop_sextet; cbv zeta; cbn [app length Nat.eqb]).
    rewrite decode_loop_pad by (right; split; reflexivity).
    now rewrite quantum_two.
  - cbn [base64.EncodeToString]. cbv zeta.
    repeat (rewrite decode_loop_sextet; cbv zeta; cbn [app length Nat.eqb]).
    rewrite IH, quantum_full. reflexivity.
Qed.

Lemma base64_EncodeToString_plain (src : gostring) :
  all_plain (base64.EncodeToString src).
Proof.
  induction src as [|b0|b0 b1|b0 b1 b2 rest IH] using list_ind3;
    cbn [base64.EncodeToString]; cbv zeta; unfold base64.sextet;
    repeat (constructor; [first [apply encode_plain, six_below | reflexivity]|]);
    (assumption || constructor).
Qed.

(** ** Upper-casing *)

Lemma upper_byte_keeps_plain (c : ascii) : c <> SP -> upper_byte c <> SP.
Proof.
  assert (H : forall c, implb (negb (Ascii.eqb c SP))
                              (negb (Ascii.eqb (upper_byte c) SP)) = true)
    by (apply all_bytes; vm_compute; reflexivity).
  intro Hc. specialize (H c).
  apply Ascii.eqb_neq in Hc. rewrite Hc in H. simpl in H.
  now apply Ascii.eqb_neq, negb_true_iff.
Qed.

Lemma upper_byte_not_lower (c : ascii) : is_lower (upper_byte c) = false.
Proof.
  apply negb_true_iff. revert c. apply all_bytes. vm_compute. reflexivity.
Qed.

Lemma upper_byte_ascii (c : ascii) :
  (byte_val c <? 128)%N = true -> (byte_val (upper_byte c) <? 128)%N = true.
Proof.
  assert (H : forall c, implb (byte_val c <? 128)%N
                              (byte_val (upper_byte c) <? 128)%N = true)
    by (apply all_bytes; vm_compute; reflexivity).
  intro Hc. specialize (H c). now rewrite Hc in H.
Qed.

Lemma upper_byte_idem (c : ascii) : upper_byte (upper_byte c) = upper_byte c.
Proof. unfold upper_byte at 1. now rewrite upper_byte_not_lower. Qed.

(** Upper-casing an ASCII string brings no space into it. *)
Lemma ToUpper_lacks_SP (uni : gostring -> gostring) (code : gostring) :
  lacks SP code ->
  (isASCII code = false -> lacks SP (uni code)) ->
  lacks SP (strings_ToUpper uni code).
Proof.
  intros Hc Hu. unfold strings_ToUpper.
  destruct (isASCII code); [|now apply Hu].
  unfold lacks in *. rewrite in_map_iff. intros (c & E & Hin).
  apply (upper_byte_keeps_plain c); [|assumption].
  intros ->. contradiction.
Qed.

(** ** Frames on the wire *)

Lemma buildBodyString_fields (f : frame) :
  buildBodyString f = strings.Join (body_fields f) [SP].
Proof.
  unfold buildBodyString, body_fields. destruct (Payload f); reflexivity.
Qed.

Lemma Encode_fields (f : frame) :
  Encode f
  = ProtocolPrefix
      ++ strings.Join (fmt.Sprintf_d (BodyLength f) :: BodyChecksum f :: body_fields f)
                      [SP]
      ++ [NL].
Proof.
  unfold Encode. rewrite buildBodyString_fields.
  unfold body_fields. cbn [strings.Join].
  now rewrite <- !app_assoc.
Qed.

(** [ParseFrame] on a line that carries the prefix and at least four
    fields: the outcome in terms of the fields. *)
Lemma ParseFrame_parts (data lenf crc rid code : gostring) (more : list gostring) :
  strings.HasPrefix data ProtocolPrefix = true ->
  strings.Split (strings.TrimPrefix (strings.TrimSuffix data [NL]) ProtocolPrefix) SP
    = lenf :: crc :: rid :: code :: more ->
  ParseFrame data =
    match scan.Sscanf_d lenf with
    | None => Err (wrapError (str "invalid body length: ") (libError "fmt.Sscanf"))
    | Some n =>
        if negb (length crc =? 8)%nat
        then Err (errorString (str "invalid checksum format"))
        else
          match more with
          | [] => verify (mkFrame rid code [] n crc)
          | b64 :: _ =>
              match base64.DecodeString b64 with
              | None => Err (wrapError (str "invalid payload encoding: ")
                                       (libError "base64.CorruptInputError"))
              | Some payload => verify (mkFrame rid code payload n crc)
              end
          end
    end.
Proof.
  intros Hp Hs. unfold ParseFrame. rewrite Hp, Hs. cbn [negb length Nat.ltb Nat.leb nth].
  destruct (scan.Sscanf_d lenf) as [n|]; [|reflexivity].
  destruct (negb (length crc =? 8)%nat); [reflexivity|].
  cbn [skipn length Nat.ltb Nat.leb nth].
  destruct more as [|b64 more']; [reflexivity|].
  cbn [length Nat.leb nth].
  destruct (base64.DecodeString b64); reflexivity.
Qed.

(** A line put together from fields without spaces splits into them. *)
Lemma wire_split (fields : list gostring) :
  fields <> [] -> Forall (lacks SP) fields ->
  let data := ProtocolPrefix ++ strings.Join fields [SP] ++ [NL] in
  strings.HasPrefix data ProtocolPrefix = true /\
  strings.Split (strings.TrimPrefix (strings.TrimSuffix data [NL]) ProtocolPrefix) SP
    = fields.
Proof.
  intros Hne Hall data. subst data. split; [apply HasPrefix_app|].
  rewrite app_assoc, TrimSuffix_app, TrimPrefix_app.
  now apply Split_Join.
Qed.

Lemma verify_ok (f : frame) :
  BodyChecksum f = checksum_of (buildBodyString f) -> verify f = Ok f.
Proof. intro H. unfold verify. now rewrite <- H, eqb_str_refl. Qed.

Lemma body_fields_lack_SP (f : frame) :
  lacks SP (RequestID f) -> lacks SP (Code f) -> Forall (lacks SP) (body_fields f).
Proof.
  intros Hr Hc. unfold body_fields. repeat (constructor; [assumption|]).
  destruct (Payload f); constructor; [|constructor].
  apply all_plain_lacks, base64_EncodeToString_plain.
Qed.

(** Decoding an encoded frame gives the frame back, whenever its
    checksum is that of its body, its length an [int], and neither the
    request id nor the code holds a space. *)
Lemma ParseFrame_Encode (f : frame) :
  lacks SP (RequestID f) -> lacks SP (Code f) ->
  BodyChecksum f = checksum_of (buildBodyString f) ->
  (- MaxInt64 - 1 <= BodyLength f <= MaxInt64)%Z ->
  ParseFrame (Encode f) = Ok f.
Proof.
  intros Hr Hc Hsum Hlen. rewrite Encode_fields.
  assert (Hfields : Forall (lacks SP)
            (fmt.Sprintf_d (BodyLength f) :: BodyChecksum f :: body_fields f)).
  { constructor; [apply all_plain_lacks, Sprintf_d_plain|].
    constructor; [rewrite Hsum; apply all_plain_lacks, checksum_of_plain|].
    now apply body_fields_lack_SP. }
  assert (Hne : fmt.Sprintf_d (BodyLength f) :: BodyChecksum f :: body_fields f <> [])
    by discriminate.
  destruct (wire_split _ Hne Hfields) as [Hp Hs].
  unfold body_fields in Hs.
  rewrite (ParseFrame_parts _ _ _ _ _ _ Hp Hs).
  rewrite Sscanf_d_Sprintf_d by assumption.
  rewrite Hsum at 1. rewrite checksum_of_length. cbn [Nat.eqb negb].
  destruct f as [rid code payload n crc]. cbn [Payload RequestID Code BodyLength BodyChecksum] in *.
  destruct payload as [|b p].
  - now apply verify_ok.
  - rewrite DecodeString_EncodeToString. now apply verify_ok.
Qed.

Lemma newFrame_ok (uni : gostring -> gostring) (code payload : gostring) (w : World) :
  newFrame uni code payload w
  = (Ok (updateBodyMetadata
           (mkFrame (hex.EncodeToString (take 4 (entropy w)))
                    (strings_ToUpper uni code) payload 0 [])),
     set_entropy (drop 4 (entropy w)) w).
Proof. reflexivity. Qed.

(** C1. Round trip: when the code holds no space (for a code outside
    ASCII: when its Unicode upper-casing holds none), Construct succeeds
    (the generator always supplies its four bytes), and decoding the
    encoding of the frame it builds succeeds and returns that very frame:
    the same RequestID, Code, Payload, BodyLength and BodyChecksum.  The
    body length is assumed to be an [int], as Go's [len] always is. *)
Theorem C1_round_trip (uni : gostring -> gostring) (code payload : gostring) (w : World) :
  lacks SP code ->
  (isASCII code = false -> lacks SP (uni code)) ->
  exists f w',
    newFrame uni code payload w = (Ok f, w') /\
    ((BodyLength f <= MaxInt64)%Z -> ParseFrame (Encode f) = Ok f).
Proof.
  intros Hcode Huni. rewrite newFrame_ok.
  eexists. eexists. split; [reflexivity|].
  intro Hlen. apply ParseFrame_Encode.
  - apply all_plain_lacks, hex_EncodeToString_plain.
  - now apply ToUpper_lacks_SP.
  - reflexivity.
  - split; [|assumption]. cbn [updateBodyMetadata BodyLength]. unfold MaxInt64. lia.
Qed.

Lemma C1_round_trip_witness :
  exists f w',
    newFrame (fun s => s) (str "get") (str "sdc:uuid")
             (stub [] (from_list (str "wxyz")))
      = (Ok f, w') /\
    Encode f = str "V2 25 fcce2ce7 7778797a GET c2RjOnV1aWQ=" ++ [NL] /\
    ParseFrame (Encode f) = Ok f.
Proof.
  destruct (C1_round_trip (fun s => s) (str "get") (str "sdc:uuid")
                          (stub [] (from_list (str "wxyz")))) as (f & w' & E & H).
  - unfold lacks. simpl. intuition discriminate.
  - vm_compute. discriminate.
  - exists f, w'. split; [exact E|].
    vm_compute in E. injection E as <- <-.
    split; [vm_compute; reflexivity|].
    apply H. vm_compute. discriminate.
Defined.

(** C2 (as stated, refuted). Construct accepts a code with a newline in
    it; the frame it builds is encoded with that newline inside the
    line. *)
Lemma C2_embedded_newline :
  exists f w',
    newFrame (fun s => s) (str "a" ++ [NL] ++ str "b") [] (stub [] (from_list (str "wxyz")))
      = (Ok f, w') /\
    ~ one_line (Encode f).
Proof.
  eexists. eexists. split; [reflexivity|].
  intros (line & E & Hl).
  vm_compute in E.
  match type of E with
  | ?l = _ => change l with (removelast l ++ [NL]) in E
  end.
  apply app_inj_tail in E as [E _]. subst line.
  apply Hl. vm_compute. tauto.
Qed.

(** The body string spelled out. *)
Lemma buildBodyString_spelled (f : frame) :
  buildBodyString f
  = RequestID f ++ str " " ++ Code f ++
      match Payload f with
      | [] => []
      | _ => str " " ++ base64.EncodeToString (Payload f)
      end.
Proof.
  unfold buildBodyString.
  destruct (Payload f); cbn [length Nat.ltb Nat.leb app strings.Join];
    now rewrite ?app_nil_r.
Qed.

(** C2 (amended). For every frame, [Encode] returns the prefix, the
    decimal BodyLength, the BodyChecksum and the body, separated by
    single spaces and followed by a newline, the body being RequestID,
    a space and Code, and then a space and the base64 text of the payload
    only when the payload is not empty.  When RequestID, Code and
    BodyChecksum hold no newline, that closing newline is the only one in
    the output, whatever the payload bytes. *)
Theorem C2_encode_format (f : frame) :
  let body := RequestID f ++ str " " ++ Code f ++
              match Payload f with
              | [] => []
              | _ => str " " ++ base64.EncodeToString (Payload f)
              end in
  buildBodyString f = body /\
  Encode f = str "V2 " ++ fmt.Sprintf_d (BodyLength f) ++ str " "
               ++ BodyChecksum f ++ str " " ++ body ++ [NL] /\
  (lacks NL (RequestID f) -> lacks NL (Code f) -> lacks NL (BodyChecksum f) ->
   one_line (Encode f)).
Proof.
  intro body.
  assert (Hb : buildBodyString f = body) by apply buildBodyString_spelled.
  split; [exact Hb|]. split.
  - unfold Encode. now rewrite Hb.
  - intros Hr Hc Hs. unfold Encode. rewrite Hb.
    exists (ProtocolPrefix ++ fmt.Sprintf_d (BodyLength f) ++ [SP]
              ++ BodyChecksum f ++ [SP] ++ body).
    split; [now rewrite <- !app_assoc|].
    assert (Hsp : lacks NL [SP]) by (unfold lacks; simpl; intuition discriminate).
    repeat (apply lacks_app; split); try assumption.
    + unfold lacks. simpl. intuition discriminate.
    + apply all_plain_lacks, Sprintf_d_plain.
    + unfold body. repeat (apply lacks_app; split); try assumption.
      destruct (Payload f); [intros []|].
      apply lacks_app. split; [assumption|].
      apply all_plain_lacks, base64_EncodeToString_plain.
Qed.

Lemma C2_encode_format_witness :
  one_line (Encode (mkFrame (str "00c0ffee") (str "GET") (str "sdc:uuid")
                            24 (str "0badf00d"))).
Proof.
  apply (C2_encode_format
           (mkFrame (str "00c0ffee") (str "GET") (str "sdc:uuid") 24 (str "0badf00d")));
    unfold lacks; simpl; intuition discriminate.
Defined.




(** What an accepted line looks like. *)
Lemma ParseFrame_inv (data : gostring) (g : frame) :
  ParseFrame data = Ok g ->
  strings.HasPrefix data ProtocolPrefix = true /\
  exists lenf more,
    strings.Split (strings.TrimPrefix (strings.TrimSuffix data [NL]) ProtocolPrefix) SP
      = lenf :: BodyChecksum g :: RequestID g :: Code g :: more /\
    scan.Sscanf_d lenf = Some (BodyLength g) /\
    length (BodyChecksum g) = 8%nat /\
    payload_of more = Some (Payload g) /\
    checksum_of (buildBodyString g) = BodyChecksum g.
Proof.
  intro H.
  destruct (strings.HasPrefix data ProtocolPrefix) eqn:Hp;
    [|unfold ParseFrame in H; rewrite Hp in H; discriminate].
  split; [reflexivity|].
  destruct (strings.Split (strings.TrimPrefix (strings.TrimSuffix data [NL])
                                              ProtocolPrefix) SP)
    as [|lenf [|crc [|rid [|code more]]]] eqn:Hs;
    try (unfold ParseFrame in H; rewrite Hp, Hs in H; cbn in H;
         try destruct (scan.Sscanf_d lenf); try destruct (negb _);
         discriminate).
  rewrite (ParseFrame_parts _ _ _ _ _ _ Hp Hs) in H.
  destruct (scan.Sscanf_d lenf) as [n|] eqn:Hn; [|discriminate].
  destruct (length crc =? 8)%nat eqn:Hc; [|discriminate].
  apply Nat.eqb_eq in Hc. cbn [negb] in H.
  assert (Hv : forall f, verify f = Ok g ->
                 g = f /\ checksum_of (buildBodyString f) = BodyChecksum f).
  { intros f Hf. unfold verify in Hf.
    destruct (eqb_str _ _) eqn:E; [|discriminate].
    apply eqb_str_eq in E. injection Hf as <-. now split. }
  exists lenf, more.
  destruct more as [|b64 more'].
  - apply Hv in H as [-> Hsum]. now repeat split.
  - destruct (base64.DecodeString b64) as [payload|] eqn:Hd; [|discriminate].
    apply Hv in H as [-> Hsum]. now repeat split.
Qed.

Lemma lacks_nil (c : ascii) : lacks c [].
Proof. intros []. Qed.

Lemma Split_fields_lack (s : gostring) (sep : ascii) :
  Forall (lacks sep) (strings.Split s sep).
Proof.
  induction s as [|c s IH]; simpl.
  - constructor; [apply lacks_nil|constructor].
  - destruct (Ascii.eqb_spec c sep) as [->|Hc].
    + constructor; [apply lacks_nil|assumption].
    + destruct (strings.Split s sep) as [|p ps].
      * constructor; [|constructor]. apply lacks_cons. split; [assumption|apply lacks_nil].
      * inversion IH; subst. constructor; [|assumption].
        apply lacks_cons. now split.
Qed.




(** C8. Unenforced BodyLength: take any frame whose checksum is that of
    its body (request id and code free of spaces) and put any other
    integer [n] in its BodyLength.  Decode accepts the encoded line and
    returns the frame with BodyLength [n], although [n] is not the length
    of the body string. *)
Theorem C8_body_length_unchecked (f : frame) (n : Z) :
  lacks SP (RequestID f) -> lacks SP (Code f) ->
  BodyChecksum f = checksum_of (buildBodyString f) ->
  (- MaxInt64 - 1 <= n <= MaxInt64)%Z ->
  n <> Z.of_nat (length (buildBodyString f)) ->
  let g := mkFrame (RequestID f) (Code f) (Payload f) n (BodyChecksum f) in
  ParseFrame (Encode g) = Ok g /\
  BodyChecksum g = checksum_of (buildBodyString g) /\
  BodyLength g <> Z.of_nat (length (buildBodyString g)).
Proof.
  intros Hr Hc Hsum Hn Hne g.
  assert (Hb : buildBodyString g = buildBodyString f) by reflexivity.
  repeat split.
  - apply ParseFrame_Encode; assumption.
  - now rewrite Hb.
  - now rewrite Hb.
Qed.

Lemma C8_body_length_unchecked_witness :
  Encode (mkFrame (str "00000000") (str "SUCCESS") [] 999 (str "3375a58e"))
    = str "V2 999 3375a58e 00000000 SUCCESS" ++ [NL] /\
  ParseFrame (str "V2 999 3375a58e 00000000 SUCCESS" ++ [NL])
    = Ok (mkFrame (str "00000000") (str "SUCCESS") [] 999 (str "3375a58e")) /\
  length (buildBodyString
            (mkFrame (str "00000000") (str "SUCCESS") [] 999 (str "3375a58e")))
    = 16%nat.
Proof.
  split; [reflexivity|]. split; [|reflexivity].
  refine (proj1 (C8_body_length_unchecked
            (mkFrame (str "00000000") (str "SUCCESS") [] 16 (str "3375a58e")) 999
            _ _ _ _ _)).
  - unfold lacks. simpl. intuition discriminate.
  - unfold lacks. simpl. intuition discriminate.
  - reflexivity.
  - unfold MaxInt64. lia.
  - simpl. lia.
Defined.

(** A length field [Sscanf] cannot scan is rejected. *)
Lemma ParseFrame_bad_length (data lenf crc rid code : gostring) (more : list gostring) :
  strings.HasPrefix data ProtocolPrefix = true ->
  strings.Split (strings.TrimPrefix (strings.TrimSuffix data [NL]) ProtocolPrefix) SP
    = lenf :: crc :: rid :: code :: more ->
  scan.Sscanf_d lenf = None ->
  ParseFrame data
    = Err (wrapError (str "invalid body length: ") (libError "fmt.Sscanf")).
Proof.
  intros Hp Hs Hn. now rewrite (ParseFrame_parts _ _ _ _ _ _ Hp Hs), Hn.
Qed.

(** C7 (the code departs from it). [Sscanf] with [%d] reads the longest
    numeric prefix and leaves the rest of the field unread: the length
    field [12abc] is not the text of an integer, yet the line is decoded,
    with BodyLength 12. *)
Theorem C7_length_prefix_accepted :
  integer_text (str "12abc") = false /\
  strconv.ParseInt (str "12abc") = None /\
  ParseFrame (str "V2 12abc 3375a58e 00000000 SUCCESS" ++ [NL])
    = Ok (mkFrame (str "00000000") (str "SUCCESS") [] 12 (str "3375a58e")).
Proof. repeat split. Qed.

(** C9 (as stated, refuted). A line whose code field is in lower case and
    whose checksum matches is decoded, and the frame carries the code as
    it came: not upper-cased. *)
Lemma C9_decode_keeps_lower_case :
  exists f,
    ParseFrame (str "V2 16 0c305b94 00000000 success" ++ [NL]) = Ok f /\
    Code f = str "success" /\
    Code f <> strings_ToUpper (fun s => s) (Code f).
Proof.
  exists (mkFrame (str "00000000") (str "success") [] 16 (str "0c305b94")).
  split; [vm_compute; reflexivity|]. split; [reflexivity|].
  cbn [Code]. vm_compute. discriminate.
Qed.

Lemma ToUpper_ascii (uni : gostring -> gostring) (s : gostring) :
  isASCII s = true ->
  strings_ToUpper uni s = map upper_byte s /\
  isASCII (strings_ToUpper uni s) = true /\
  forallb (fun c => negb (is_lower c)) (strings_ToUpper uni s) = true.
Proof.
  intro H. unfold strings_ToUpper. rewrite H. split; [reflexivity|].
  unfold isASCII in *. rewrite forallb_forall in H.
  split; apply forallb_forall; intros c Hc;
    apply in_map_iff in Hc as (d & <- & Hd).
  - apply upper_byte_ascii. now apply H.
  - now rewrite upper_byte_not_lower.
Qed.

(** C9 (amended). Construct upper-cases its code argument: the Code of
    the frame it builds is [strings.ToUpper(code)], which for an ASCII
    code is the code with every lower-case letter replaced by its capital,
    no lower-case letter left.  Decode does not change the case: the Code
    of a decoded frame is the fourth field of the line, byte for byte. *)
Theorem C9_code_case (uni : gostring -> gostring) :
  (forall code payload w f w',
     newFrame uni code payload w = (Ok f, w') ->
     Code f = strings_ToUpper uni code /\
     (isASCII code = true ->
      Code f = map upper_byte code /\
      forallb (fun c => negb (is_lower c)) (Code f) = true)) /\
  (forall data g,
     ParseFrame data = Ok g ->
     Code g = nth 3 (strings.Split
                       (strings.TrimPrefix (strings.TrimSuffix data [NL])
                                           ProtocolPrefix) SP) []).
Proof.
  split.
  - intros code payload w f w' H.
    unfold newFrame, bind, try in H.
    destruct (rand_Read 4 w) as [[bytes [e|]] w1]; [discriminate|].
    unfold ret in H. injection H as <- _.
    cbn [updateBodyMetadata Code]. split; [reflexivity|].
    intro Ha. destruct (ToUpper_ascii uni code Ha) as (E & _ & Hl). now split.
  - intros data g H. apply ParseFrame_inv in H as (_ & lenf & more & Hs & _).
    now rewrite Hs.
Qed.

Lemma C9_code_case_witness :
  Code (updateBodyMetadata
          (mkFrame (str "7778797a") (str "GET") (str "sdc:uuid") 0 []))
    = str "GET" /\
  Code (mkFrame (str "00000000") (str "SUCCESS") [] 16 (str "3375a58e"))
    = str "SUCCESS".
Proof.
  split.
  - apply (proj1 (proj1 (C9_code_case (fun s => s)) (str "get") (str "sdc:uuid")
                        (stub [] (from_list (str "wxyz"))) _ (stub [] (from_list [])) eq_refl)).
  - apply (proj2 (C9_code_case (fun s => s))
                 (str "V2 16 3375a58e 00000000 SUCCESS" ++ [NL])).
    vm_compute. reflexivity.
Defined.

(** ** The buffered writer *)

Lemma Flush_working (buf sent pending : gostring) (ent : stream) :
  bufio.Flush (mkWorld buf None sent None pending ent)
  = (None, mkWorld [] None (sent ++ buf) None pending ent).
Proof.
  unfold bufio.Flush. cbn [wr_err wr_buf].
  destruct buf as [|c buf]; [now rewrite app_nil_r|].
  unfold conn_Write. cbn [conn_wcap conn_sent set_conn_out].
  rewrite Nat.ltb_irrefl. reflexivity.
Qed.

(** From an empty buffer on a working connection: the loop followed by
    a flush hands the whole string to the connection. *)
Lemma WriteString_loop_empty (fuel : nat) (s sent pending : gostring) (ent : stream)
    (nn : nat) :
  (length s < fuel)%nat ->
  exists nn' w1,
    bufio.WriteString_loop fuel s nn (mkWorld [] None sent None pending ent)
      = ((nn', None), w1) /\
    bufio.Flush w1 = (None, mkWorld [] None (sent ++ s) None pending ent).
Proof.
  revert s sent nn; induction fuel as [|fuel IH]; intros s sent nn Hf; [lia|].
  cbn [bufio.WriteString_loop wr_err].
  unfold bufio.Available. cbn [wr_buf length]. rewrite Nat.sub_0_r.
  destruct (Nat.ltb_spec bufio.defaultBufSize (length s)) as [Hbig|Hfit].
  - unfold set_wr. cbn [wr_buf conn_sent conn_wcap conn_pending entropy app].
    rewrite Flush_working.
    assert (Hl : (length (skipn bufio.defaultBufSize s) < fuel)%nat).
    { rewrite length_skipn. unfold bufio.defaultBufSize in *. lia. }
    destruct (IH (skipn bufio.defaultBufSize s)
                 (sent ++ firstn bufio.defaultBufSize s)
                 (nn + bufio.defaultBufSize)%nat Hl) as (nn' & w1 & E1 & E2).
    exists nn', w1. split; [exact E1|].
    rewrite E2. now rewrite <- app_assoc, firstn_skipn.
  - eexists. eexists. split; [reflexivity|].
    unfold set_wr. cbn [wr_buf conn_sent conn_wcap conn_pending entropy app].
    apply Flush_working.
Qed.

(** [WriteString] then [Flush] on a working connection: everything
    buffered before and the string itself reach the connection, in
    order, whatever their size. *)
Lemma WriteString_Flush_working (s buf sent pending : gostring) (ent : stream) :
  exists nn w1,
    bufio.WriteString s (mkWorld buf None sent None pending ent) = ((nn, None), w1) /\
    bufio.Flush w1 = (None, mkWorld [] None (sent ++ buf ++ s) None pending ent).
Proof.
  unfold bufio.WriteString. cbn [bufio.WriteString_loop wr_err].
  destruct (Nat.ltb_spec (bufio.Available (mkWorld buf None sent None pending ent))
                         (length s)) as [Hbig|Hfit].
  - set (n := bufio.Available (mkWorld buf None sent None pending ent)) in *.
    unfold set_wr. cbn [wr_buf conn_sent conn_wcap conn_pending entropy].
    rewrite Flush_working.
    assert (Hl : (length (skipn n s) < S (length s))%nat)
      by (rewrite length_skipn; lia).
    destruct (WriteString_loop_empty (S (length s)) (skipn n s)
                (sent ++ buf ++ firstn n s) pending ent (0 + n)%nat Hl)
      as (nn' & w1 & E1 & E2).
    exists nn', w1. split; [exact E1|].
    rewrite E2. now rewrite <- !app_assoc, firstn_skipn.
  - eexists. eexists. split; [reflexivity|].
    unfold set_wr. cbn [wr_buf conn_sent conn_wcap conn_pending entropy].
    apply Flush_working.
Qed.

(** A string that fits the free space is only buffered. *)
Lemma WriteString_fits (s : gostring) (w : World) :
  wr_err w = None -> (length s <= bufio.Available w)%nat ->
  bufio.WriteString s w = ((length s, None), set_wr (wr_buf w ++ s) None w).
Proof.
  intros He Hfit. unfold bufio.WriteString.
  cbn [bufio.WriteString_loop]. rewrite He.
  replace (bufio.Available w <? length s)%nat with false
    by (symmetry; apply Nat.ltb_ge; assumption).
  reflexivity.
Qed.

(** After an error the writer takes nothing more. *)
Lemma WriteString_sticky (s : gostring) (w : World) (e : error) :
  wr_err w = Some e -> bufio.WriteString s w = ((0%nat, Some e), w).
Proof.
  intro He. unfold bufio.WriteString. cbn [bufio.WriteString_loop].
  now rewrite He.
Qed.

Lemma cut_at_spec (delim : ascii) (s line rest : gostring) :
  bufio.cut_at delim s = Some (line, rest) ->
  s = line ++ rest /\ exists l, line = l ++ [delim] /\ lacks delim l.
Proof.
  revert line rest; induction s as [|c s IH]; intros line rest H; simpl in H;
    [discriminate|].
  destruct (Ascii.eqb_spec c delim) as [->|Hc].
  - injection H as <- <-. split; [reflexivity|]. exists []. split; [reflexivity|apply lacks_nil].
  - destruct (bufio.cut_at delim s) as [[l r]|]; [|discriminate].
    injection H as <- <-.
    destruct (IH l r eq_refl) as (E & l' & El & Hl). subst s l.
    split; [reflexivity|]. exists (c :: l'). split; [reflexivity|].
    apply lacks_cons. now split.
Qed.

Lemma cut_at_none (delim : ascii) (s : gostring) :
  bufio.cut_at delim s = None <-> lacks delim s.
Proof.
  induction s as [|c s IH]; simpl.
  - split; [intros _; apply lacks_nil|reflexivity].
  - destruct (Ascii.eqb_spec c delim) as [->|Hc].
    + split; [discriminate|]. intro H. apply lacks_cons in H. tauto.
    + rewrite lacks_cons. destruct (bufio.cut_at delim s) as [[l r]|].
      * split; [discriminate|]. intros [_ H]. now apply IH in H.
      * split; [|reflexivity]. intros _. split; [assumption|now apply IH].
Qed.

(** Writing never touches what the peer has sent. *)
Lemma conn_Write_pending (p : gostring) (w : World) :
  conn_pending (snd (conn_Write p w)) = conn_pending w.
Proof.
  unfold conn_Write. destruct (conn_wcap w) as [cap|]; [|reflexivity].
  destruct (length p <=? cap)%nat; reflexivity.
Qed.

Lemma Flush_pending (w : World) :
  conn_pending (snd (bufio.Flush w)) = conn_pending w.
Proof.
  unfold bufio.Flush. destruct (wr_err w); [reflexivity|].
  destruct (wr_buf w) as [|c buf]; [reflexivity|].
  pose proof (conn_Write_pending (c :: buf) w) as H.
  destruct (conn_Write (c :: buf) w) as [[n [e|]] w1]; cbn [snd] in *.
  - exact H.
  - destruct (n <? length (c :: buf))%nat; exact H.
Qed.

Lemma WriteString_loop_pending (fuel : nat) (s : gostring) (nn : nat) (w : World) :
  conn_pending (snd (bufio.WriteString_loop fuel s nn w)) = conn_pending w.
Proof.
  revert s nn w; induction fuel as [|fuel IH]; intros s nn w;
    cbn [bufio.WriteString_loop].
  - destruct (wr_err w); reflexivity.
  - destruct (wr_err w) eqn:He; [reflexivity|].
    destruct (bufio.Available w <? length s)%nat; [|reflexivity].
    pose proof (Flush_pending
                  (set_wr (wr_buf w ++ firstn (bufio.Available w) s) None w)) as H.
    destruct (bufio.Flush _) as [r w2]. cbn [snd] in H.
    rewrite IH. exact H.
Qed.

Lemma WriteString_pending (s : gostring) (w : World) :
  conn_pending (snd (bufio.WriteString s w)) = conn_pending w.
Proof. apply WriteString_loop_pending. Qed.

(** What [Negotiate] returns, by the three steps it takes. *)
Lemma Negotiate_cases (w : World) :
  (exists e w1, Negotiate w = ((false, Some e), w1) /\ conn_pending w1 = conn_pending w) \/
  (exists w2 line rest,
     conn_pending w2 = conn_pending w /\
     bufio.cut_at NL (conn_pending w) = Some (line, rest) /\
     Negotiate w = ((eqb_str line NegotiationResp, None), set_pending rest w2)) \/
  (exists w2,
     bufio.cut_at NL (conn_pending w) = None /\
     Negotiate w
       = ((false,
           Some (wrapError (str "failed to read negotiation response: ")
                           (libError "Conn.Read"))),
          set_pending [] w2)).
Proof.
  unfold Negotiate.
  pose proof (WriteString_pending NegotiationReq w) as H1.
  destruct (bufio.WriteString NegotiationReq w) as [[n [e|]] w1]; cbn [snd] in H1.
  - left. eauto.
  - pose proof (Flush_pending w1) as H2.
    destruct (bufio.Flush w1) as [[e|] w2]; cbn [snd] in H2.
    + left. exists (wrapError (str "failed to flush negotiation: ") e), w2.
      split; [reflexivity|congruence].
    + right. unfold bufio.ReadString. rewrite H2, H1.
      destruct (bufio.cut_at NL (conn_pending w)) as [[line rest]|] eqn:E.
      * left. exists w2, line, rest. repeat split; congruence.
      * right. exists w2. split; reflexivity.
Qed.

(** C4. Negotiation exactness.  [Negotiate] answers [true] only when
    the line it read is byte for byte [V2_OK] followed by a newline, and
    then without an error; any other line gives [false]; a reply with no
    newline in it (so [V2_OK] alone) gives [false], together with the
    read error that ended it.  On a fresh writer over a working
    connection the request that reaches the connection is exactly
    [NEGOTIATE V2] and a newline, flushed, and exactly one line is taken
    from the peer's data, the answer being whether it equals the expected
    reply.  A failing write or flush, like a failing read, is returned as
    an error (with [false]), not as a plain "unsupported". *)
Theorem C4_negotiation_exact (w : World) :
  let supported := fst (fst (Negotiate w)) in
  let err := snd (fst (Negotiate w)) in
  let w' := snd (Negotiate w) in
  (supported = true ->
   err = None /\
   exists rest, conn_pending w = (str "V2_OK" ++ [NL]) ++ rest /\ conn_pending w' = rest) /\
  (forall line rest,
     bufio.cut_at NL (conn_pending w) = Some (line, rest) ->
     line <> (str "V2_OK" ++ [NL]) -> supported = false) /\
  (lacks NL (conn_pending w) -> supported = false /\ err <> None) /\
  (wr_buf w = [] -> wr_err w = None -> conn_wcap w = None ->
   conn_sent w' = conn_sent w ++ str "NEGOTIATE V2" ++ [NL] /\ wr_buf w' = [] /\
   forall line rest,
     bufio.cut_at NL (conn_pending w) = Some (line, rest) ->
     err = None /\ supported = eqb_str line (str "V2_OK" ++ [NL]) /\
     conn_pending w' = rest) /\
  (forall e, wr_err w = Some e ->
     supported = false /\
     err = Some (wrapError (str "failed to send negotiation: ") e)) /\
  (forall cap,
     wr_buf w = [] -> wr_err w = None -> conn_wcap w = Some cap ->
     (cap < length (str "NEGOTIATE V2" ++ [NL]))%nat ->
     supported = false /\
     err = Some (wrapError (str "failed to flush negotiation: ")
                           (libError "Conn.Write"))).
Proof.
  intros supported err w'. subst supported err w'.
  split; [|split; [|split; [|split; [|split]]]].
  - intro Ht.
    destruct (Negotiate_cases w)
      as [(e & w1 & E & _)|[(w2 & line & rest & _ & Hcut & E)|(w2 & _ & E)]];
      rewrite E in *; cbn [fst snd] in *; try discriminate.
    split; [reflexivity|]. apply eqb_str_eq in Ht. subst line.
    exists rest. split; [|reflexivity]. now apply cut_at_spec in Hcut.
  - intros line rest Hcut Hne.
    destruct (Negotiate_cases w)
      as [(e & w1 & E & _)|[(w2 & line' & rest' & _ & Hcut' & E)|(w2 & _ & E)]];
      rewrite E; cbn [fst snd]; try reflexivity.
    rewrite Hcut in Hcut'. injection Hcut' as <- <-.
    destruct (eqb_str line NegotiationResp) eqn:Eq; [|reflexivity].
    now apply eqb_str_eq in Eq.
  - intro Hno. apply cut_at_none in Hno.
    destruct (Negotiate_cases w)
      as [(e & w1 & E & _)|[(w2 & line & rest & _ & Hcut & E)|(w2 & _ & E)]];
      rewrite E; cbn [fst snd]; try (split; [reflexivity|discriminate]).
    congruence.
  - intros Hb He Hc.
    destruct w as [buf werr sent cap pending ent]. cbn in Hb, He, Hc. subst.
    unfold Negotiate.
    rewrite WriteString_fits by (reflexivity || (vm_compute; lia)).
    unfold set_wr. cbn [wr_buf wr_err conn_sent conn_wcap conn_pending entropy app].
    rewrite Flush_working. unfold bufio.ReadString. cbn [conn_pending].
    destruct (bufio.cut_at NL pending) as [[line rest]|]; cbn [fst snd conn_sent wr_buf set_pending].
    + split; [reflexivity|]. split; [reflexivity|].
      intros ? ? [= <- <-]. now repeat split.
    + split; [reflexivity|]. split; [reflexivity|]. discriminate.
  - intros e He. unfold Negotiate. rewrite (WriteString_sticky _ _ _ He). now split.
  - intros cap Hb He Hc Hlt.
    destruct w as [buf werr sent wcap pending ent]. cbn in Hb, He, Hc. subst.
    unfold Negotiate.
    rewrite WriteString_fits by (reflexivity || (vm_compute; lia)).
    unfold set_wr. cbn [wr_buf wr_err conn_sent conn_wcap conn_pending entropy app].
    unfold bufio.Flush. cbn [wr_err wr_buf NegotiationReq str list_ascii_of_string app].
    unfold conn_Write. cbn [conn_wcap].
    replace (length _ <=? cap)%nat with false
      by (symmetry; apply Nat.leb_gt; exact Hlt).
    now split.
Qed.

Lemma C4_negotiation_exact_witness :
  fst (Negotiate (stub (str "V2_OK" ++ [NL]) (from_list []))) = (true, None) /\
  fst (Negotiate (stub (str "v2_ok" ++ [NL]) (from_list []))) = (false, None) /\
  fst (fst (Negotiate (stub (str "V2_OK") (from_list [])))) = false /\
  snd (fst (Negotiate (stub (str "V2_OK") (from_list [])))) <> None /\
  conn_sent (snd (Negotiate (stub (str "V2_OK" ++ [NL]) (from_list []))))
    = str "NEGOTIATE V2" ++ [NL].
Proof.
  pose proof (C4_negotiation_exact (stub (str "V2_OK" ++ [NL]) (from_list []))) as Hok.
  pose proof (C4_negotiation_exact (stub (str "v2_ok" ++ [NL]) (from_list []))) as Hlow.
  pose proof (C4_negotiation_exact (stub (str "V2_OK") (from_list []))) as Hnl.
  cbv zeta in Hok, Hlow, Hnl.
  destruct Hok as (_ & _ & _ & Hok & _).
  destruct (Hok eq_refl eq_refl eq_refl) as (Hsent & _ & Hline).
  destruct (Hline _ _ eq_refl) as (He & Hs & _).
  destruct Hlow as (_ & _ & _ & Hlow & _).
  destruct (Hlow eq_refl eq_refl eq_refl) as (_ & _ & Hline').
  destruct (Hline' _ _ eq_refl) as (He' & Hs' & _).
  destruct Hnl as (_ & _ & Hnl & _).
  assert (Hno : lacks NL (conn_pending (stub (str "V2_OK") (from_list []))))
    by (unfold lacks; simpl; intuition discriminate).
  destruct (Hnl Hno) as [Hf Herr].
  split; [|split; [|split; [|split]]].
  - rewrite (surjective_pairing (fst (Negotiate _))). now rewrite He, Hs.
  - rewrite (surjective_pairing (fst (Negotiate _))). now rewrite He', Hs'.
  - exact Hf.
  - exact Herr.
  - exact Hsent.
Defined.

(** ** The request cycle *)

(** The errors [sendRequest] can return. *)
Lemma sendRequest_errors (uni : gostring -> gostring) (code payload : gostring)
    (w : World) (e : error) :
  fst (sendRequest uni code payload w) = Err e ->
  (exists msg e', e = wrapError msg e') \/
  (exists c, e = errorString (str "request failed with code: " ++ c)).
Proof.
  unfold sendRequest, bind. unfold wrapping at 1.
  destruct (newFrameWithString uni code payload w) as [[f|e0] w0];
    [|intros [= <-]; left; eauto].
  unfold try at 1.
  destruct (bufio.WriteString (Encode f) w0) as [[n [e1|]] w1];
    [intros [= <-]; left; eauto|].
  unfold try_err.
  destruct (bufio.Flush w1) as [[e2|] w2]; [intros [= <-]; left; eauto|].
  unfold try.
  destruct (bufio.ReadString NL w2) as [[resp [e3|]] w3];
    [intros [= <-]; left; eauto|].
  unfold lift, wrapping.
  destruct (ParseFrame resp) as [g|e4]; [|intros [= <-]; left; eauto].
  destruct (negb (eqb_str (Code g) (str "SUCCESS"))).
  - unfold fail. intros [= <-]. right. now exists (Code g).
  - unfold ret. discriminate.
Qed.

(** C5. Namespace guard: for every key that starts with [sdc:] and every
    value, [Put] returns the namespace error at once and leaves the world
    as it was: nothing buffered, nothing written to or read from the
    connection, no random bytes drawn for a frame.  For any other key the
    guard does not trigger: [Put] is the PUT request, and whatever it
    returns is not the namespace error. *)
Theorem C5_namespace_guard (uni : gostring -> gostring) (key value : gostring)
    (w : World) :
  (strings.HasPrefix key (str "sdc:") = true ->
   Put uni key value w = (Err ErrReadOnly, w)) /\
  (strings.HasPrefix key (str "sdc:") = false ->
   Put uni key value w
     = (_ <- sendRequest uni (str "PUT")
               (base64.EncodeToString key ++ str " " ++ base64.EncodeToString value) ;;
        ret tt) w /\
   fst (Put uni key value w) <> Err ErrReadOnly).
Proof.
  split; intro H; unfold Put; rewrite H; [reflexivity|].
  split; [reflexivity|].
  unfold bind.
  destruct (sendRequest uni (str "PUT") _ w) as [[r|e] w1] eqn:E;
    cbn [fst]; [discriminate|].
  pose proof (sendRequest_errors uni (str "PUT")
    (base64.EncodeToString key ++ str " " ++ base64.EncodeToString value) w e) as He.
  rewrite E in He.
  destruct (He eq_refl) as [(msg & e' & ->)|(c & ->)]; discriminate.
Qed.

Lemma C5_namespace_guard_witness :
  Put (fun s => s) (str "sdc:uuid") (str "v") (stub [] (from_list (str "wxyz")))
    = (Err ErrReadOnly, stub [] (from_list (str "wxyz"))) /\
  fst (Put (fun s => s) (str "foo") (str "bar") (stub [] (from_list (str "wxyz"))))
    <> Err ErrReadOnly.
Proof.
  split.
  - apply (proj1 (C5_namespace_guard (fun s => s) (str "sdc:uuid") (str "v")
                                     (stub [] (from_list (str "wxyz"))))).
    reflexivity.
  - apply (proj2 (C5_namespace_guard (fun s => s) (str "foo") (str "bar")
                                     (stub [] (from_list (str "wxyz"))))).
    reflexivity.
Defined.

(** On a working connection the request reaches the connection whole,
    whatever the peer answers. *)
Lemma sendRequest_sent (uni : gostring -> gostring) (code payload : gostring)
    (w : World) :
  wr_err w = None -> conn_wcap w = None ->
  conn_sent (snd (sendRequest uni code payload w))
  = conn_sent w ++ wr_buf w
      ++ Encode (updateBodyMetadata
                   (mkFrame (hex.EncodeToString (take 4 (entropy w)))
                            (strings_ToUpper uni code) payload 0 [])).
Proof.
  intros He Hc. unfold sendRequest, newFrameWithString.
  unfold bind at 1. unfold wrapping at 1. rewrite newFrame_ok.
  set (f := updateBodyMetadata _).
  destruct w as [buf werr sent cap pending ent]. cbn in He, Hc. subst.
  unfold set_entropy. cbn [wr_buf wr_err conn_sent conn_wcap conn_pending entropy].
  destruct (WriteString_Flush_working (Encode f) buf sent pending (drop 4 ent))
    as (nn & w1 & E1 & E2).
  unfold bind at 1. unfold try at 1. rewrite E1.
  unfold bind at 1. unfold try_err. rewrite E2.
  unfold bind at 1. unfold try, bufio.ReadString. cbn [conn_pending].
  destruct (bufio.cut_at NL pending) as [[line rest]|]; [|reflexivity].
  unfold bind, lift, wrapping. destruct (ParseFrame line) as [g|e]; [|reflexivity].
  destruct (negb (eqb_str (Code g) (str "SUCCESS"))); reflexivity.
Qed.

(** C6. Put double encoding: for every key outside the [sdc:] namespace
    and every value, on a working connection, the bytes [Put] hands to
    the connection are one frame line, spelled out here byte for byte:
    the prefix, the decimal length and the CRC text of the body, and the
    body, which is the request id, the code PUT and the base64 encoding
    of the payload text; the payload text is base64(key), one space,
    base64(value).  Both encodings are undone by decoding: the outer one
    gives back the payload text, which splits at its only space into two
    fields that decode to the key and to the value. *)
Theorem C6_put_double_encoding (uni : gostring -> gostring) (key value : gostring)
    (w : World) :
  strings.HasPrefix key (str "sdc:") = false ->
  wr_err w = None -> conn_wcap w = None ->
  let text := base64.EncodeToString key ++ str " " ++ base64.EncodeToString value in
  let rid := hex.EncodeToString (take 4 (entropy w)) in
  let body := rid ++ str " PUT " ++ base64.EncodeToString text in
  conn_sent (snd (Put uni key value w))
  = conn_sent w ++ wr_buf w
      ++ str "V2 " ++ fmt.Sprintf_d (Z.of_nat (length body)) ++ str " "
      ++ fmt.Sprintf_08x (crc32.Checksum body (crc32.MakeTable 3988292384))
      ++ str " " ++ body ++ [NL] /\
  lacks SP (base64.EncodeToString text) /\
  base64.DecodeString (base64.EncodeToString text) = Some text /\
  strings.Split text SP = [base64.EncodeToString key; base64.EncodeToString value] /\
  base64.DecodeString (base64.EncodeToString key) = Some key /\
  base64.DecodeString (base64.EncodeToString value) = Some value.
Proof.
  intros Hk He Hc text rid body.
  assert (Ht : text <> []) by (unfold text; now destruct (base64.EncodeToString key)).
  assert (Hb : forall n crc, buildBodyString (mkFrame rid (str "PUT") text n crc) = body).
  { intros n crc. rewrite buildBodyString_spelled. cbn [RequestID Code Payload].
    unfold body. destruct text; [congruence|]. reflexivity. }
  split; [|split; [|split; [|split; [|split]]]].
  - unfold Put. rewrite Hk.
    assert (Hs : forall (m : IO gostring) w0,
               snd ((_ <- m ;; ret tt) w0) = snd (m w0)).
    { intros m w0. unfold bind. now destruct (m w0) as [[?|?] ?]. }
    rewrite Hs, sendRequest_sent by assumption. do 2 f_equal.
    change (strings_ToUpper uni (str "PUT")) with (str "PUT").
    fold text. fold rid.
    unfold Encode, updateBodyMetadata. cbn [BodyLength BodyChecksum].
    rewrite !Hb. reflexivity.
  - apply all_plain_lacks, base64_EncodeToString_plain.
  - apply DecodeString_EncodeToString.
  - unfold text. change (str " " ++ base64.EncodeToString value)
      with (SP :: base64.EncodeToString value).
    rewrite Split_app_sep by apply all_plain_lacks, base64_EncodeToString_plain.
    now rewrite Split_lacks by apply all_plain_lacks, base64_EncodeToString_plain.
  - apply DecodeString_EncodeToString.
  - apply DecodeString_EncodeToString.
Qed.

Lemma C6_put_double_encoding_witness :
  conn_sent (snd (Put (fun s => s) (str "foo") (str "bar")
                      (stub [] (from_list (str "wxyz")))))
    = str "V2 25 cce26716 7778797a PUT Wm05diBZbUZ5" ++ [NL] /\
  base64.DecodeString (str "Wm05diBZbUZ5") = Some (str "Zm9v YmFy") /\
  strings.Split (str "Zm9v YmFy") SP = [str "Zm9v"; str "YmFy"].
Proof.
  destruct (C6_put_double_encoding (fun s => s) (str "foo") (str "bar")
              (stub [] (from_list (str "wxyz"))) eq_refl eq_refl eq_refl)
    as (Hs & _ & Hd & Hsplit & _).
  split; [|split].
  - rewrite Hs. vm_compute. reflexivity.
  - exact Hd.
  - exact Hsplit.
Defined.

(** * Further properties of the code *)

(** ** Frames built and frames decoded *)

Lemma hexchar_hex (d : N) : (d < 16)%N -> is_hex_lower (hex.hexchar d) = true.
Proof. apply (below_all 16 (fun d => is_hex_lower (hex.hexchar d))). reflexivity. Qed.

Lemma hex_EncodeToString_hex (src : gostring) :
  Forall (fun c => is_hex_lower c = true) (hex.EncodeToString src).
Proof.
  induction src as [|v src IH]; cbn [hex.EncodeToString]; [constructor|].
  pose proof (byte_val_lt v) as Hv.
  constructor; [|constructor; [|assumption]]; apply hexchar_hex.
  - rewrite N.shiftr_div_pow2. apply N.Div0.div_lt_upper_bound.
    change (2 ^ 4)%N with 16%N. lia.
  - change 15%N with (N.ones 4). rewrite N.land_ones.
    apply N.mod_lt. discriminate.
Qed.

Lemma length_take (n : nat) (s : stream) : length (take n s) = n.
Proof. unfold take. now rewrite length_map, length_seq. Qed.

(** The frame [newFrame] returns and the world it leaves. *)
Lemma newFrame_inv (uni : gostring -> gostring) (code payload : gostring)
    (w w' : World) (f : frame) :
  newFrame uni code payload w = (Ok f, w') ->
  f = updateBodyMetadata
        (mkFrame (hex.EncodeToString (take 4 (entropy w)))
                 (strings_ToUpper uni code) payload 0 []) /\
  w' = set_entropy (drop 4 (entropy w)) w.
Proof.
  intro H. rewrite newFrame_ok in H. injection H as <- <-. now split.
Qed.

(** X1. Every frame [newFrame] builds has a request id of exactly eight
    lower-case hex digits (the hex text of the four random bytes drawn),
    the payload it was given, a BodyLength equal to the length of its body
    string and a BodyChecksum that is the eight-digit CRC text of that
    body string; the call draws exactly four random bytes and touches
    nothing else. *)
Theorem newFrame_invariants (uni : gostring -> gostring) (code payload : gostring)
    (w w' : World) (f : frame) :
  newFrame uni code payload w = (Ok f, w') ->
  RequestID f = hex.EncodeToString (take 4 (entropy w)) /\
  length (RequestID f) = 8%nat /\
  Forall (fun c => is_hex_lower c = true) (RequestID f) /\
  Payload f = payload /\
  BodyLength f = Z.of_nat (length (buildBodyString f)) /\
  BodyChecksum f = checksum_of (buildBodyString f) /\
  length (BodyChecksum f) = 8%nat /\
  Forall (fun c => is_hex_lower c = true) (BodyChecksum f) /\
  entropy w' = drop 4 (entropy w) /\
  w' = set_entropy (entropy w') w.
Proof.
  intro H. apply newFrame_inv in H as (-> & ->).
  cbn [updateBodyMetadata RequestID Payload BodyLength BodyChecksum].
  repeat split; try reflexivity.
  - apply hex_EncodeToString_hex.
  - apply checksum_of_length.
  - apply checksum_of_hex.
Qed.

Lemma newFrame_invariants_witness :
  exists f w',
    newFrame (fun s => s) (str "get") (str "sdc:uuid") (stub [] (from_list (str "wxyz!")))
      = (Ok f, w') /\
    RequestID f = str "7778797a" /\ length (BodyChecksum f) = 8%nat /\
    take 1 (entropy w') = str "!".
Proof.
  eexists. eexists. split; [reflexivity|].
  pose proof (newFrame_invariants (fun s => s) (str "get") (str "sdc:uuid")
                (stub [] (from_list (str "wxyz!"))) _ _ eq_refl)
    as (H1 & _ & _ & _ & _ & _ & H7 & _ & H9 & _).
  split; [exact H1|]. split; [exact H7|]. rewrite H9. reflexivity.
Defined.

(** What [ParseInt] returns is a 64-bit integer. *)
Lemma ParseInt_range (s : gostring) (n : Z) :
  strconv.ParseInt s = Some n -> (- MaxInt64 - 1 <= n <= MaxInt64)%Z.
Proof.
  assert (Hk : forall neg ds,
             match ds with
             | [] => None
             | _ :: _ =>
                 match strconv.digits_value ds 0 with
                 | Some un =>
                     if neg : bool
                     then if (Z.of_N un <=? MaxInt64 + 1)%Z
                          then Some (- Z.of_N un)%Z else None
                     else if (Z.of_N un <=? MaxInt64)%Z
                          then Some (Z.of_N un) else None
                 | None => None
                 end
             end = Some n -> (- MaxInt64 - 1 <= n <= MaxInt64)%Z).
  { intros neg ds. destruct ds as [|d ds]; [discriminate|].
    destruct (strconv.digits_value (d :: ds) 0) as [un|]; [|discriminate].
    destruct neg.
    - destruct (Z.leb_spec (Z.of_N un) (MaxInt64 + 1)); [|discriminate].
      intros [= <-]. unfold MaxInt64 in *. lia.
    - destruct (Z.leb_spec (Z.of_N un) MaxInt64); [|discriminate].
      intros [= <-]. unfold MaxInt64 in *. lia. }
  unfold strconv.ParseInt. destruct s as [|c s']; [discriminate|].
  destruct (Ascii.eqb c "+"%char); [exact (Hk false s')|].
  destruct (Ascii.eqb c "-"%char); [exact (Hk true s')|exact (Hk false (c :: s'))].
Qed.

(** What [Sscanf] stores is an [int]. *)
Lemma Sscanf_d_range (s : gostring) (n : Z) :
  scan.Sscanf_d s = Some n -> (- MaxInt64 - 1 <= n <= MaxInt64)%Z.
Proof.
  unfold scan.Sscanf_d. destruct (scan.SkipSpace s) as [[|c s1]|]; try discriminate.
  destruct (scan.accept_sign (c :: s1)) as [sign s2].
  destruct (scan.span scan.number_byte s2) as [[|d ds] rest]; [discriminate|].
  apply ParseInt_range.
Qed.

(** X2. Every frame [ParseFrame] accepts is canonical: its BodyChecksum
    is the eight-digit lower-case hex CRC text of its own body string, its
    request id and code hold no space, its BodyLength is an [int]; and
    encoding it again gives a line that decodes to the same frame. *)
Theorem ParseFrame_accepts_canonical (data : gostring) (g : frame) :
  ParseFrame data = Ok g ->
  BodyChecksum g = checksum_of (buildBodyString g) /\
  length (BodyChecksum g) = 8%nat /\
  Forall (fun c => is_hex_lower c = true) (BodyChecksum g) /\
  lacks SP (RequestID g) /\ lacks SP (Code g) /\
  (- MaxInt64 - 1 <= BodyLength g <= MaxInt64)%Z /\
  ParseFrame (Encode g) = Ok g.
Proof.
  intro H. apply ParseFrame_inv in H as (_ & lenf & more & Hs & Hn & Hc & _ & Hsum).
  pose proof (Split_fields_lack
    (strings.TrimPrefix (strings.TrimSuffix data [NL]) ProtocolPrefix) SP) as Hl.
  rewrite Hs in Hl.
  inversion Hl as [|? ? _ Hl1]; subst. inversion Hl1 as [|? ? _ Hl2]; subst.
  inversion Hl2 as [|? ? Hrid Hl3]; subst. inversion Hl3 as [|? ? Hcode _]; subst.
  pose proof (Sscanf_d_range _ _ Hn) as Hr.
  split; [now symmetry|]. split; [exact Hc|]. split.
  { rewrite <- Hsum. apply checksum_of_hex. }
  repeat split; try assumption; try apply Hr.
  apply ParseFrame_Encode; try assumption. now symmetry.
Qed.

Lemma ParseFrame_accepts_canonical_witness :
  ParseFrame (Encode (mkFrame (str "00000000") (str "SUCCESS") (str "hi")
                              16 (str "fdff0508")))
    = Ok (mkFrame (str "00000000") (str "SUCCESS") (str "hi") 16 (str "fdff0508")) /\
  Encode (mkFrame (str "00000000") (str "SUCCESS") (str "hi") 16 (str "fdff0508"))
    = str "V2 16 fdff0508 00000000 SUCCESS aGk=" ++ [NL].
Proof.
  split; [|reflexivity].
  refine (proj2 (proj2 (proj2 (proj2 (proj2 (proj2
            (ParseFrame_accepts_canonical
               (str "V2 +16xyz fdff0508 00000000 SUCCESS aGl= more" ++ [NL])
               _ _))))))).
  vm_compute. reflexivity.
Defined.

(** X3. [ParseFrame] reads the length field and the payload field only
    through their values: two lines that differ in the text of these two
    fields (and in what follows the payload field), but from whose length
    fields [Sscanf] scans the same integer and whose payload fields
    base64-decode to the same bytes, get the same verdict: the checksum
    format error, the checksum mismatch, or the same frame.  So a payload
    field in another base64 spelling of the same bytes passes under the
    unchanged checksum, and so does a length field with a sign, leading
    blanks or trailing text. *)
Theorem ParseFrame_reads_values (lenf lenf' crc rid code b64 b64' payload : gostring)
    (extras extras' : list gostring) (n : Z) :
  Forall (lacks SP) (lenf :: crc :: rid :: code :: b64 :: extras) ->
  Forall (lacks SP) (lenf' :: b64' :: extras') ->
  scan.Sscanf_d lenf = Some n -> scan.Sscanf_d lenf' = Some n ->
  base64.DecodeString b64 = Some payload ->
  base64.DecodeString b64' = Some payload ->
  ParseFrame (wire_line (lenf :: crc :: rid :: code :: b64 :: extras))
  = ParseFrame (wire_line (lenf' :: crc :: rid :: code :: b64' :: extras')) /\
  ParseFrame (wire_line (lenf :: crc :: rid :: code :: b64 :: extras))
  = if (length crc =? 8)%nat then verify (mkFrame rid code payload n crc)
    else Err (errorString (str "invalid checksum format")).
Proof.
  intros Hl Hl' Hn Hn' Hd Hd'. unfold wire_line.
  assert (Hl2 : Forall (lacks SP) (lenf' :: crc :: rid :: code :: b64' :: extras')).
  { inversion Hl as [|? ? _ H1]; subst. inversion H1 as [|? ? Hc H2]; subst.
    inversion H2 as [|? ? Hr H3]; subst. inversion H3 as [|? ? Hco _]; subst.
    inversion Hl' as [|? ? Hlf H4]; subst.
    repeat (constructor; [assumption|]). exact H4. }
  assert (Hne : lenf :: crc :: rid :: code :: b64 :: extras <> []) by discriminate.
  assert (Hne' : lenf' :: crc :: rid :: code :: b64' :: extras' <> []) by discriminate.
  destruct (wire_split _ Hne Hl) as [Hp Hs].
  destruct (wire_split _ Hne' Hl2) as [Hp' Hs'].
  rewrite (ParseFrame_parts _ _ _ _ _ _ Hp Hs).
  rewrite (ParseFrame_parts _ _ _ _ _ _ Hp' Hs').
  rewrite Hn, Hn', Hd, Hd'. split; [reflexivity|].
  destruct (length crc =? 8)%nat; reflexivity.
Qed.

Lemma ParseFrame_reads_values_witness :
  ParseFrame (str "V2 +21xyz fdff0508 00000000 SUCCESS aGl= more" ++ [NL])
  = ParseFrame (str "V2 21 fdff0508 00000000 SUCCESS aGk=" ++ [NL]) /\
  ParseFrame (str "V2 +21xyz fdff0508 00000000 SUCCESS aGl= more" ++ [NL])
  = Ok (mkFrame (str "00000000") (str "SUCCESS") (str "hi") 21 (str "fdff0508")).
Proof.
  destruct (ParseFrame_reads_values (str "+21xyz") (str "21") (str "fdff0508")
              (str "00000000") (str "SUCCESS") (str "aGl=") (str "aGk=") (str "hi")
              [str "more"] [] 21) as [H1 H2].
  - repeat constructor; unfold lacks; simpl; intuition discriminate.
  - repeat constructor; unfold lacks; simpl; intuition discriminate.
  - vm_compute. reflexivity.
  - vm_compute. reflexivity.
  - vm_compute. reflexivity.
  - vm_compute. reflexivity.
  - split; [exact H1|]. etransitivity; [exact H2|]. vm_compute. reflexivity.
Defined.

(** [Split] gives one more field than there are separators. *)
Lemma Split_length (s : gostring) :
  length (strings.Split s SP) = S (spaces s).
Proof.
  unfold spaces. induction s as [|c s IH]; [reflexivity|].
  cbn [strings.Split filter]. destruct (Ascii.eqb c SP).
  - cbn [length]. now rewrite IH.
  - destruct (strings.Split s SP) as [|p ps]; [discriminate|]. exact IH.
Qed.

(** X4. Format rejection.  A line that does not start with the prefix
    is rejected with "invalid frame prefix", whatever else it holds.  A
    line with the prefix and fewer than two spaces after it is rejected
    with "invalid frame format".  With fewer than three spaces after the
    prefix a line is never accepted, and the error is never the checksum
    mismatch nor the payload-encoding error: such a line fails on its
    shape before its content is looked at. *)
Theorem ParseFrame_format_rejection (data : gostring) :
  (strings.HasPrefix data (str "V2 ") = false ->
   ParseFrame data = Err (errorString (str "invalid frame prefix"))) /\
  (strings.HasPrefix data (str "V2 ") = true ->
   (spaces (trimmed data) < 2)%nat ->
   ParseFrame data = Err (errorString (str "invalid frame format"))) /\
  (strings.HasPrefix data (str "V2 ") = true ->
   spaces (trimmed data) = 2%nat ->
   ParseFrame data
     = Err (wrapError (str "invalid body length: ") (libError "fmt.Sscanf")) \/
   ParseFrame data = Err (errorString (str "invalid checksum format")) \/
   ParseFrame data = Err (errorString (str "invalid body format"))).
Proof.
  split; [|split].
  - intro H. unfold ParseFrame. change ProtocolPrefix with (str "V2 ").
    now rewrite H.
  - intros Hp Hsp. unfold ParseFrame. change ProtocolPrefix with (str "V2 ") in *.
    rewrite Hp. cbn [negb]. fold ProtocolPrefix. fold (trimmed data).
    rewrite Split_length.
    replace (S (spaces (trimmed data)) <? 3)%nat with true
      by (symmetry; apply Nat.ltb_lt; lia).
    reflexivity.
  - intros Hp Hsp. unfold ParseFrame. change ProtocolPrefix with (str "V2 ") in *.
    rewrite Hp. cbn [negb]. fold ProtocolPrefix. fold (trimmed data).
    pose proof (Split_length (trimmed data)) as Hl. rewrite Hsp in Hl.
    destruct (strings.Split (trimmed data) SP) as [|a [|b [|c [|d l]]]];
      try discriminate.
    cbn [length Nat.ltb Nat.leb nth skipn].
    destruct (scan.Sscanf_d a); [|now left].
    destruct (negb (length b =? 8)%nat); [right; now left|right; now right].
Qed.

Lemma ParseFrame_format_rejection_witness :
  ParseFrame (str "v2 16 3375a58e 00000000 SUCCESS" ++ [NL])
    = Err (errorString (str "invalid frame prefix")) /\
  ParseFrame (str "V2 16" ++ [NL]) = Err (errorString (str "invalid frame format")).
Proof.
  split.
  - apply (proj1 (ParseFrame_format_rejection _)). reflexivity.
  - apply (proj1 (proj2 (ParseFrame_format_rejection _))); [reflexivity|].
    vm_compute. lia.
Defined.

(** ** The request cycle on any connection *)

Lemma conn_Write_effect (p : gostring) (w w1 : World) (n : nat) (err : option error) :
  conn_Write p w = ((n, err), w1) ->
  wr_buf w1 = wr_buf w /\ wr_err w1 = wr_err w /\
  conn_pending w1 = conn_pending w /\ entropy w1 = entropy w /\
  conn_sent w1 = conn_sent w ++ firstn n p /\
  (err = None -> n = length p).
Proof.
  unfold conn_Write. destruct (conn_wcap w) as [cap|].
  - destruct (Nat.leb_spec (length p) cap); intros [= <- <- <-];
      cbn; repeat split; try discriminate; now rewrite ?firstn_all.
  - intros [= <- <- <-]. cbn. repeat split. now rewrite firstn_all.
Qed.

(** A flush that succeeds has handed the whole buffer to the
    connection. *)
Lemma Flush_success (w w' : World) :
  bufio.Flush w = (None, w') ->
  wr_err w = None /\ wr_err w' = None /\ wr_buf w' = [] /\
  conn_sent w' = conn_sent w ++ wr_buf w /\
  conn_pending w' = conn_pending w /\ entropy w' = entropy w.
Proof.
  unfold bufio.Flush. destruct (wr_err w) eqn:He; [discriminate|].
  destruct (wr_buf w) as [|c buf] eqn:Hb.
  - intros [= <-]. rewrite app_nil_r. now repeat split.
  - destruct (conn_Write (c :: buf) w) as [[n err] w1] eqn:E.
    apply conn_Write_effect in E as (E1 & E2 & E3 & E4 & E5 & E6).
    destruct err as [e|]; [discriminate|].
    rewrite (E6 eq_refl), Nat.ltb_irrefl. intros [= <-].
    cbn. rewrite E5, (E6 eq_refl), firstn_all. now repeat split.
Qed.

(** A flush that fails leaves its error in the writer. *)
Lemma Flush_failure (w w' : World) (e : error) :
  bufio.Flush w = (Some e, w') -> wr_err w' = Some e.
Proof.
  unfold bufio.Flush. destruct (wr_err w) eqn:He; [now intros [= <- <-]|].
  destruct (wr_buf w) as [|c buf]; [discriminate|].
  destruct (conn_Write (c :: buf) w) as [[n [e1|]] w1].
  - now intros [= <- <-].
  - destruct (n <? length (c :: buf))%nat; [now intros [= <- <-]|discriminate].
Qed.

Lemma WriteString_loop_failed (fuel : nat) (s : gostring) (nn : nat) (w : World)
    (e : error) :
  wr_err w = Some e -> bufio.WriteString_loop fuel s nn w = ((nn, Some e), w).
Proof. intro He. destruct fuel; cbn [bufio.WriteString_loop]; now rewrite He. Qed.

(** A [WriteString] that succeeds has lost nothing: what the connection
    has taken, followed by what is buffered, is what it was before,
    followed by the string. *)
Lemma WriteString_loop_success (fuel : nat) (s : gostring) (nn nn' : nat)
    (w w1 : World) :
  bufio.WriteString_loop fuel s nn w = ((nn', None), w1) ->
  wr_err w1 = None /\
  conn_sent w1 ++ wr_buf w1 = conn_sent w ++ wr_buf w ++ s /\
  conn_pending w1 = conn_pending w /\ entropy w1 = entropy w.
Proof.
  revert s nn w; induction fuel as [|fuel IH]; intros s nn w;
    cbn [bufio.WriteString_loop].
  - destruct (wr_err w); [discriminate|]. intros [= _ <-]. now repeat split.
  - destruct (wr_err w) eqn:He; [discriminate|].
    destruct (bufio.Available w <? length s)%nat;
      [|intros [= _ <-]; now repeat split].
    set (n := bufio.Available w).
    destruct (bufio.Flush (set_wr (wr_buf w ++ firstn n s) None w))
      as [[e|] w2] eqn:Ef.
    + apply Flush_failure in Ef.
      rewrite (WriteString_loop_failed _ _ _ _ _ Ef). discriminate.
    + apply Flush_success in Ef as (_ & F2 & F3 & F4 & F5 & F6).
      cbn in F4, F5, F6. intro H. apply IH in H as (H1 & H2 & H3 & H4).
      split; [exact H1|]. split; [|split; congruence].
      rewrite H2, F3, F4. cbn [app].
      now rewrite <- !app_assoc, firstn_skipn.
Qed.

(** [WriteString] and [Flush] both succeeding: the connection has taken
    everything, in order. *)
Lemma WriteString_Flush_success (s : gostring) (nn : nat) (w w1 w2 : World) :
  bufio.WriteString s w = ((nn, None), w1) ->
  bufio.Flush w1 = (None, w2) ->
  conn_sent w2 = conn_sent w ++ wr_buf w ++ s /\
  wr_buf w2 = [] /\ wr_err w2 = None /\
  conn_pending w2 = conn_pending w /\ entropy w2 = entropy w.
Proof.
  intros H1 H2. apply WriteString_loop_success in H1 as (A1 & A2 & A3 & A4).
  apply Flush_success in H2 as (_ & B2 & B3 & B4 & B5 & B6).
  repeat split; try congruence.
Qed.

Lemma ReadString_effect (w : World) :
  bufio.ReadString NL w
  = match bufio.cut_at NL (conn_pending w) with
    | Some (line, rest) => ((line, None), set_pending rest w)
    | None => ((conn_pending w, Some (libError "Conn.Read")), set_pending [] w)
    end.
Proof. reflexivity. Qed.

Lemma sendRequest_steps (uni : gostring -> gostring) (code payload : gostring)
    (w : World) :
  let f := request_frame uni code payload w in
  let w0 := set_entropy (drop 4 (entropy w)) w in
  sendRequest uni code payload w
  = match bufio.WriteString (Encode f) w0 with
    | ((_, Some e), w1) => (Err (wrapError (str "failed to send frame: ") e), w1)
    | ((_, None), w1) =>
        match bufio.Flush w1 with
        | (Some e, w2) => (Err (wrapError (str "failed to flush frame: ") e), w2)
        | (None, w2) =>
            match bufio.cut_at NL (conn_pending w2) with
            | Some (line, rest) => (answer line, set_pending rest w2)
            | None =>
                (Err (wrapError (str "failed to read response: ")
                                (libError "Conn.Read")),
                 set_pending [] w2)
            end
        end
    end.
Proof.
  intros f w0. unfold sendRequest, newFrameWithString.
  unfold bind at 1. unfold wrapping at 1. rewrite newFrame_ok.
  fold (request_frame uni code payload w). fold f. fold w0.
  unfold bind at 1. unfold try at 1.
  destruct (bufio.WriteString (Encode f) w0) as [[nn [e|]] w1]; [reflexivity|].
  unfold bind at 1. unfold try_err.
  destruct (bufio.Flush w1) as [[e|] w2]; [reflexivity|].
  unfold bind at 1. unfold try. rewrite ReadString_effect.
  destruct (bufio.cut_at NL (conn_pending w2)) as [[line rest]|]; [|reflexivity].
  unfold bind, lift, wrapping, answer.
  destruct (ParseFrame line) as [g|e]; [|reflexivity].
  destruct (eqb_str (Code g) (str "SUCCESS")); reflexivity.
Qed.

(** X5. The order of a request cycle, on any connection.  The frame is
    always built (the request id never fails to be drawn).  Then either
    sending or flushing fails, and nothing has been read from the peer;
    or the connection has taken the whole encoded frame, after what was
    buffered before, and exactly one line has been taken from the peer's
    data (all of it, with a read error, when it holds no newline), the
    result being the decoding of that line. *)
Theorem sendRequest_cycle (uni : gostring -> gostring) (code payload : gostring)
    (w : World) :
  let f := request_frame uni code payload w in
  let r := fst (sendRequest uni code payload w) in
  let w' := snd (sendRequest uni code payload w) in
  (forall e, r <> Err (wrapError (str "failed to create frame: ") e)) /\
  (((exists e, r = Err (wrapError (str "failed to send frame: ") e) \/
               r = Err (wrapError (str "failed to flush frame: ") e)) /\
    conn_pending w' = conn_pending w) \/
   (conn_sent w' = conn_sent w ++ wr_buf w ++ Encode f /\
    wr_buf w' = [] /\ wr_err w' = None /\
    match bufio.cut_at NL (conn_pending w) with
    | Some (line, rest) => r = answer line /\ conn_pending w' = rest
    | None =>
        r = Err (wrapError (str "failed to read response: ") (libError "Conn.Read")) /\
        conn_pending w' = []
    end)).
Proof.
  intros f r w'. subst r w'. rewrite sendRequest_steps. fold f.
  set (w0 := set_entropy (drop 4 (entropy w)) w).
  assert (Hp0 : conn_pending w0 = conn_pending w) by reflexivity.
  pose proof (WriteString_pending (Encode f) w0) as Hp1.
  destruct (bufio.WriteString (Encode f) w0) as [[nn [e|]] w1] eqn:E1; cbn [snd] in Hp1.
  { split; [intros e0; cbn [fst]; discriminate|].
    left. split; [exists e; now left|]. cbn [snd]. congruence. }
  pose proof (Flush_pending w1) as Hp2.
  destruct (bufio.Flush w1) as [[e|] w2] eqn:E2; cbn [snd] in Hp2.
  { split; [intros e0; cbn [fst]; discriminate|].
    left. split; [exists e; now right|]. cbn [snd]. congruence. }
  destruct (WriteString_Flush_success _ _ _ _ _ E1 E2) as (S1 & S2 & S3 & S4 & _).
  unfold w0, set_entropy in S1, S4.
  cbn [conn_sent wr_buf conn_pending] in S1, S4. rewrite S4. split.
  - intros e0. unfold answer.
    destruct (bufio.cut_at NL (conn_pending w)) as [[line rest]|]; cbn [fst].
    + destruct (ParseFrame line) as [g|e1].
      * destruct (eqb_str (Code g) (str "SUCCESS")); discriminate.
      * discriminate.
    + discriminate.
  - right.
    destruct (bufio.cut_at NL (conn_pending w)) as [[line rest]|];
      cbn [fst snd set_pending conn_sent wr_buf wr_err conn_pending];
      now repeat split.
Qed.

Lemma sendRequest_cycle_witness :
  fst (sendRequest (fun s => s) (str "GET") (str "k")
         (mkWorld [] None [] (Some 5%nat) (str "late" ++ [NL]) (from_list (str "wxyz"))))
    = Err (wrapError (str "failed to flush frame: ") (libError "Conn.Write")) /\
  conn_pending
    (snd (sendRequest (fun s => s) (str "GET") (str "k")
            (mkWorld [] None [] (Some 5%nat) (str "late" ++ [NL]) (from_list (str "wxyz")))))
    = str "late" ++ [NL].
Proof.
  split; [vm_compute; reflexivity|].
  destruct (proj2 (sendRequest_cycle (fun s => s) (str "GET") (str "k")
              (mkWorld [] None [] (Some 5%nat) (str "late" ++ [NL]) (from_list (str "wxyz")))))
    as [[_ H]|(H & _)].
  - exact H.
  - vm_compute in H. discriminate.
Defined.

(** ** Requests on a working connection *)

Lemma sendRequest_working (uni : gostring -> gostring) (code payload : gostring)
    (buf sent pending : gostring) (ent : stream) :
  let w := mkWorld buf None sent None pending ent in
  let w2 := mkWorld [] None (sent ++ buf ++ Encode (request_frame uni code payload w))
                    None pending (drop 4 ent) in
  sendRequest uni code payload w
  = match bufio.cut_at NL pending with
    | Some (line, rest) => (answer line, set_pending rest w2)
    | None =>
        (Err (wrapError (str "failed to read response: ") (libError "Conn.Read")),
         set_pending [] w2)
    end.
Proof.
  intros w w2. rewrite sendRequest_steps.
  unfold set_entropy. cbn [wr_buf wr_err conn_sent conn_wcap conn_pending entropy w].
  destruct (WriteString_Flush_working
              (Encode (request_frame uni code payload w)) buf sent pending (drop 4 ent))
    as (nn & w1 & E1 & E2).
  fold w. rewrite E1, E2. reflexivity.
Qed.

Lemma cut_at_line (line rest : gostring) :
  lacks NL line -> bufio.cut_at NL (line ++ NL :: rest) = Some (line ++ [NL], rest).
Proof.
  induction line as [|c line IH]; intro H; simpl.
  - reflexivity.
  - apply lacks_cons in H as [Hc Hl].
    destruct (Ascii.eqb_spec c NL) as [E|_]; [contradiction|].
    now rewrite (IH Hl).
Qed.

(** The encoding of a frame whose text fields hold no newline is one
    line. *)
Lemma Encode_line (g : frame) :
  lacks NL (RequestID g) -> lacks NL (Code g) -> lacks NL (BodyChecksum g) ->
  exists body, Encode g = body ++ [NL] /\ lacks NL body.
Proof.
  intros Hr Hc Hs. unfold Encode.
  exists (ProtocolPrefix ++ fmt.Sprintf_d (BodyLength g) ++ [SP]
            ++ BodyChecksum g ++ [SP] ++ buildBodyString g).
  split; [now rewrite <- !app_assoc|].
  rewrite buildBodyString_spelled.
  assert (Hsp : lacks NL [SP]) by (unfold lacks; simpl; intuition discriminate).
  repeat (apply lacks_app; split); try assumption.
  - unfold lacks. simpl. intuition discriminate.
  - apply all_plain_lacks, Sprintf_d_plain.
  - destruct (Payload g); [apply lacks_nil|].
    apply lacks_app. split; [assumption|].
    apply all_plain_lacks, base64_EncodeToString_plain.
Qed.

(** The line a peer answers with is read whole, and decodes to the
    frame the peer encoded. *)
Lemma answerable_line (g : frame) (rest : gostring) :
  answerable g ->
  bufio.cut_at NL (Encode g ++ rest) = Some (Encode g, rest) /\
  ParseFrame (Encode g) = Ok g.
Proof.
  intros (Hsum & Hlen & Hr & Hc). split.
  - destruct (Encode_line g) as (body & E & Hb).
    + now apply all_plain_lacks.
    + now apply all_plain_lacks.
    + rewrite Hsum. apply all_plain_lacks, checksum_of_plain.
    + rewrite E, <- app_assoc. cbn [app]. now apply cut_at_line.
  - apply ParseFrame_Encode; try assumption; now apply all_plain_lacks.
Qed.

(** X6. What the peer encodes is what [Get] returns.  On a working
    connection, when the peer's next line is the encoding of a frame with
    code SUCCESS (a checksum that fits its body, id and code free of
    spaces and newlines), [Get] returns exactly the payload bytes of that
    frame, whatever they are, takes exactly that line from the peer's
    data and has sent exactly its own request frame.  The request id of
    the answer is not compared with the one sent: any id is accepted. *)
Theorem Get_returns_peer_payload (uni : gostring -> gostring) (key : gostring)
    (g : frame) (buf sent rest : gostring) (ent : stream) :
  answerable g ->
  Code g = str "SUCCESS" ->
  let w := mkWorld buf None sent None (Encode g ++ rest) ent in
  Get uni key w
  = (Ok (Payload g),
     mkWorld [] None (sent ++ buf ++ Encode (request_frame uni (str "GET") key w))
             None rest (drop 4 ent)).
Proof.
  intros Hg Hcode w. unfold Get. subst w.
  rewrite sendRequest_working.
  destruct (answerable_line g rest Hg) as [Hcut Hparse].
  rewrite Hcut. unfold answer. rewrite Hparse, Hcode.
  reflexivity.
Qed.

Lemma Get_returns_peer_payload_witness :
  fst (Get (fun s => s) (str "sdc:uuid")
         (stub (Encode (mkFrame (str "ffffffff") (str "SUCCESS")
                                ("000"%char :: SP :: NL :: str "x") 99
                                (checksum_of (str "ffffffff SUCCESS ACAKeA=="))))
               (from_list (str "wxyz"))))
  = Ok ("000"%char :: SP :: NL :: str "x").
Proof.
  unfold stub.
  rewrite <- (app_nil_r (Encode _)).
  rewrite (Get_returns_peer_payload (fun s => s) (str "sdc:uuid")
             (mkFrame (str "ffffffff") (str "SUCCESS")
                      ("000"%char :: SP :: NL :: str "x") 99
                      (checksum_of (str "ffffffff SUCCESS ACAKeA==")))
             [] [] [] (from_list (str "wxyz"))).
  - reflexivity.
  - unfold answerable. split; [vm_compute; reflexivity|].
    split; [unfold MaxInt64; cbn; lia|].
    split; repeat constructor.
  - reflexivity.
Defined.

(** X7. A response whose code is not exactly SUCCESS makes the request
    fail with an error that carries that code, unwrapped: "request failed
    with code: " followed by the code as received.  This holds for every
    request ([Get] and [Delete] pass the error on as it is); the
    comparison is byte for byte, so a lower-case "success" is a failure
    too; and for the code NOTFOUND the error text is the constant
    [ERROR_NOTFOUND] of the command line. *)
Theorem response_code_error (uni : gostring -> gostring) (key : gostring)
    (g : frame) (buf sent rest : gostring) (ent : stream) :
  answerable g ->
  Code g <> str "SUCCESS" ->
  let w := mkWorld buf None sent None (Encode g ++ rest) ent in
  let e := errorString (str "request failed with code: " ++ Code g) in
  fst (Get uni key w) = Err e /\
  fst (Delete uni key w) = Err e /\
  conn_pending (snd (Get uni key w)) = rest /\
  (Code g = str "NOTFOUND" -> e = errorString ERROR_NOTFOUND).
Proof.
  intros Hg Hcode w e. subst w.
  destruct (answerable_line g rest Hg) as [Hcut Hparse].
  assert (Hne : eqb_str (Code g) (str "SUCCESS") = false).
  { destruct (eqb_str (Code g) (str "SUCCESS")) eqn:E; [|reflexivity].
    now apply eqb_str_eq in E. }
  assert (Ha : answer (Encode g) = Err e)
    by (unfold answer; now rewrite Hparse, Hne).
  unfold Get, Delete, bind.
  rewrite !sendRequest_working. rewrite Hcut, Ha.
  repeat split. intro E. subst e. now rewrite E.
Qed.

Lemma response_code_error_witness :
  fst (Get (fun s => s) (str "nokey")
         (stub (str "V2 17 cfff1b65 00000000 NOTFOUND" ++ [NL]) (from_list (str "wxyz"))))
  = Err (errorString ERROR_NOTFOUND).
Proof.
  pose proof (response_code_error (fun s => s) (str "nokey")
                (mkFrame (str "00000000") (str "NOTFOUND") [] 17 (str "cfff1b65"))
                [] [] [] (from_list (str "wxyz"))) as H.
  cbv zeta in H. destruct H as (H1 & _ & _ & H4).
  - unfold answerable. split; [vm_compute; reflexivity|].
    split; [unfold MaxInt64; cbn; lia|].
    split; repeat constructor.
  - discriminate.
  - rewrite <- (H4 eq_refl). exact H1.
Defined.

(** X8. Requests in sequence.  On a working connection a request cycle
    leaves the connection working, with nothing buffered, whatever the
    answer was (an application error, an undecodable line, no line at
    all).  So a second request goes out whole, right after the first,
    under a request id made of the next four random bytes, and is
    answered from the peer's next line.  The two request ids are the
    hex texts of consecutive groups of four bytes of the generator. *)
Theorem requests_in_sequence (uni : gostring -> gostring)
    (code1 payload1 code2 payload2 buf sent pending : gostring) (ent : stream) :
  let w := mkWorld buf None sent None pending ent in
  let w1 := snd (sendRequest uni code1 payload1 w) in
  let f1 := request_frame uni code1 payload1 w in
  let f2 := request_frame uni code2 payload2 w1 in
  working w1 /\ wr_buf w1 = [] /\
  RequestID f1 = hex.EncodeToString (take 4 ent) /\
  RequestID f2 = hex.EncodeToString (take 4 (drop 4 ent)) /\
  conn_sent (snd (sendRequest uni code2 payload2 w1))
    = sent ++ buf ++ Encode f1 ++ Encode f2 /\
  (forall line1 rest1 line2 rest2,
     bufio.cut_at NL pending = Some (line1, rest1) ->
     bufio.cut_at NL rest1 = Some (line2, rest2) ->
     fst (sendRequest uni code1 payload1 w) = answer line1 /\
     fst (sendRequest uni code2 payload2 w1) = answer line2 /\
     conn_pending (snd (sendRequest uni code2 payload2 w1)) = rest2).
Proof.
  intros w w1 f1 f2.
  pose proof (sendRequest_working uni code1 payload1 buf sent pending ent) as E1.
  cbv zeta in E1. fold w in E1. fold f1 in E1.
  assert (Hw1 : exists pending1,
             w1 = mkWorld [] None (sent ++ buf ++ Encode f1) None pending1 (drop 4 ent) /\
             forall line1 rest1,
               bufio.cut_at NL pending = Some (line1, rest1) ->
               pending1 = rest1 /\ fst (sendRequest uni code1 payload1 w) = answer line1).
  { subst w1. rewrite E1.
    destruct (bufio.cut_at NL pending) as [[l r]|].
    - exists r. split; [reflexivity|]. intros ? ? [= <- <-]. now split.
    - exists []. split; [reflexivity|]. discriminate. }
  destruct Hw1 as (pending1 & Ew1 & Hfirst).
  pose proof (sendRequest_working uni code2 payload2 [] (sent ++ buf ++ Encode f1)
                pending1 (drop 4 ent)) as E2.
  cbv zeta in E2. rewrite <- Ew1 in E2. fold f2 in E2.
  split; [rewrite Ew1; now split|]. split; [now rewrite Ew1|].
  split; [reflexivity|]. split; [unfold f2, request_frame; now rewrite Ew1|].
  split.
  - rewrite E2. destruct (bufio.cut_at NL pending1) as [[l r]|];
      cbn [snd set_pending conn_sent app]; now rewrite <- !app_assoc.
  - intros line1 rest1 line2 rest2 H1 H2.
    destruct (Hfirst _ _ H1) as [-> Ha]. split; [exact Ha|].
    rewrite E2, H2. now split.
Qed.

Lemma requests_in_sequence_witness :
  fst (sendRequest (fun s => s) (str "GET") (str "b")
         (snd (sendRequest (fun s => s) (str "GET") (str "a")
                 (stub (str "garbage" ++ [NL]
                          ++ str "V2 21 fdff0508 00000000 SUCCESS aGk=" ++ [NL])
                       (from_list (str "wxyzWXYZ"))))))
  = Ok (str "hi").
Proof.
  pose proof (requests_in_sequence (fun s => s) (str "GET") (str "a") (str "GET")
                (str "b") [] []
                (str "garbage" ++ [NL]
                   ++ str "V2 21 fdff0508 00000000 SUCCESS aGk=" ++ [NL])
                (from_list (str "wxyzWXYZ"))) as H.
  cbv zeta in H. destruct H as (_ & _ & _ & _ & _ & H).
  destruct (H (str "garbage" ++ [NL]) (str "V2 21 fdff0508 00000000 SUCCESS aGk=" ++ [NL])
              (str "V2 21 fdff0508 00000000 SUCCESS aGk=" ++ [NL]) [] eq_refl eq_refl)
    as (_ & H2 & _).
  unfold stub. rewrite H2. vm_compute. reflexivity.
Defined.

(** ** What the peer receives *)

Lemma base64_EncodeToString_length (src : gostring) :
  length (base64.EncodeToString src) = (4 * ((length src + 2) / 3))%nat.
Proof.
  induction src as [|b0|b0 b1|b0 b1 b2 rest IH] using list_ind3;
    try reflexivity.
  cbn [base64.EncodeToString]. cbv zeta. cbn [length]. rewrite IH.
  replace (S (S (S (length rest))) + 2)%nat with (1 * 3 + (length rest + 2))%nat
    by lia.
  rewrite Nat.div_add_l by discriminate. lia.
Qed.

Lemma base64_EncodeToString_bound (src : gostring) :
  (length (base64.EncodeToString src) <= 4 * length src + 4)%nat.
Proof.
  rewrite base64_EncodeToString_length.
  pose proof (Nat.Div0.div_le_upper_bound (length src + 2) 3 (length src + 1)).
  lia.
Qed.

Lemma ToUpper_length_ascii (uni : gostring -> gostring) (code : gostring) :
  isASCII code = true -> length (strings_ToUpper uni code) = length code.
Proof. intro H. unfold strings_ToUpper. rewrite H. apply length_map. Qed.

(** X9. The length a frame announces: for the frame of a request with
    an ASCII code, BodyLength is 9 plus the length of the code, plus,
    when the payload is not empty, 1 plus four characters for every three
    payload bytes, the last group rounded up. *)
Theorem request_frame_BodyLength (uni : gostring -> gostring) (code payload : gostring)
    (w w' : World) (f : frame) :
  isASCII code = true ->
  newFrame uni code payload w = (Ok f, w') ->
  BodyLength f
  = Z.of_nat (9 + length code
              + match payload with
                | [] => 0
                | _ => 1 + 4 * ((length payload + 2) / 3)
                end).
Proof.
  intros Ha H. apply newFrame_inv in H as (-> & _).
  cbn [updateBodyMetadata BodyLength]. f_equal.
  rewrite buildBodyString_spelled. cbn [RequestID Code Payload].
  rewrite !length_app, hex_EncodeToString_length, length_take.
  rewrite (ToUpper_length_ascii uni code Ha).
  destruct payload as [|b p].
  - cbn [length str list_ascii_of_string]. lia.
  - rewrite length_app, base64_EncodeToString_length.
    cbn [length str list_ascii_of_string]. lia.
Qed.

Lemma request_frame_BodyLength_witness :
  BodyLength (updateBodyMetadata
                (mkFrame (str "7778797a") (str "GET") (str "sdc:uuid") 0 []))
  = 25%Z.
Proof.
  apply (request_frame_BodyLength (fun s => s) (str "get") (str "sdc:uuid")
           (stub [] (from_list (str "wxyz"))) (stub [] (from_list []))); reflexivity.
Defined.

(** A request frame with an ASCII code free of spaces decodes to
    itself. *)
Lemma request_frame_decodes (uni : gostring -> gostring) (code payload : gostring)
    (w : World) :
  isASCII code = true -> lacks SP code ->
  (Z.of_nat (length code + length payload) < 2 ^ 60)%Z ->
  let f := request_frame uni code payload w in
  ParseFrame (Encode f) = Ok f /\
  Code f = map upper_byte code /\ Payload f = payload.
Proof.
  intros Ha Hsp Hlen f. split; [|split; [|reflexivity]].
  - apply ParseFrame_Encode.
    + apply all_plain_lacks, hex_EncodeToString_plain.
    + apply ToUpper_lacks_SP; [assumption|congruence].
    + reflexivity.
    + unfold f, request_frame. cbn [updateBodyMetadata BodyLength].
      rewrite buildBodyString_spelled. cbn [RequestID Code Payload].
      rewrite !length_app, hex_EncodeToString_length, length_take.
      rewrite (ToUpper_length_ascii uni code Ha).
      assert (Hp : (length (match payload with
                            | [] => []
                            | _ :: _ => str " " ++ base64.EncodeToString payload
                            end) <= 4 * length payload + 5)%nat).
      { destruct payload as [|b0 p]; [simpl; lia|].
        rewrite length_app. pose proof (base64_EncodeToString_bound (b0 :: p)).
        cbn [length str list_ascii_of_string] in *. lia. }
      cbn [length str list_ascii_of_string] in Hp |- *. unfold MaxInt64.
      change (2 ^ 60)%Z with 1152921504606846976%Z in Hlen. lia.
  - unfold f, request_frame. cbn [updateBodyMetadata Code].
    unfold strings_ToUpper. now rewrite Ha.
Qed.

Lemma sendRequest_sent_fresh (uni : gostring -> gostring) (code payload pending : gostring)
    (ent : stream) :
  conn_sent (snd (sendRequest uni code payload (stub pending ent)))
  = Encode (request_frame uni code payload (stub pending ent)).
Proof.
  unfold stub. rewrite sendRequest_working.
  destruct (bufio.cut_at NL pending) as [[l r]|]; reflexivity.
Qed.

(** X10. Keys are binary-safe on the way out.  On a fresh working
    connection, for every key, whatever bytes it holds (spaces, newlines,
    none at all), what [Get] sends is one line which, decoded as the peer
    would decode it, gives a frame with code GET and exactly the key as
    payload; the same for [Delete] with code DELETE; [Keys] sends code
    KEYS with an empty payload. *)
Theorem requests_decode_at_peer (uni : gostring -> gostring) (key pending : gostring)
    (ent : stream) :
  (Z.of_nat (length key) < 2 ^ 59)%Z ->
  let w := stub pending ent in
  (exists f, conn_sent (snd (Get uni key w)) = Encode f /\
             ParseFrame (Encode f) = Ok f /\
             Code f = str "GET" /\ Payload f = key) /\
  (exists f, conn_sent (snd (Delete uni key w)) = Encode f /\
             ParseFrame (Encode f) = Ok f /\
             Code f = str "DELETE" /\ Payload f = key) /\
  (exists f, conn_sent (snd (Keys uni w)) = Encode f /\
             ParseFrame (Encode f) = Ok f /\
             Code f = str "KEYS" /\ Payload f = []).
Proof.
  intros Hlen w.
  change (2 ^ 59)%Z with 576460752303423488%Z in Hlen.
  assert (Hs : forall (m : IO gostring) w0,
             snd ((_ <- m ;; ret tt) w0) = snd (m w0)).
  { intros m w0. unfold bind. now destruct (m w0) as [[?|?] ?]. }
  split; [|split].
  - exists (request_frame uni (str "GET") key w). unfold Get.
    split; [now apply sendRequest_sent_fresh|].
    apply (request_frame_decodes uni (str "GET") key w); try reflexivity.
    + unfold lacks. simpl. intuition discriminate.
    + change (2 ^ 60)%Z with 1152921504606846976%Z. cbn [length str list_ascii_of_string]. lia.
  - exists (request_frame uni (str "DELETE") key w). unfold Delete. rewrite Hs.
    split; [now apply sendRequest_sent_fresh|].
    apply (request_frame_decodes uni (str "DELETE") key w); try reflexivity.
    + unfold lacks. simpl. intuition discriminate.
    + change (2 ^ 60)%Z with 1152921504606846976%Z. cbn [length str list_ascii_of_string]. lia.
  - exists (request_frame uni (str "KEYS") [] w). unfold Keys.
    split; [now apply sendRequest_sent_fresh|].
    apply (request_frame_decodes uni (str "KEYS") [] w); try reflexivity.
    unfold lacks. simpl. intuition discriminate.
Qed.

Lemma requests_decode_at_peer_witness :
  exists f,
    conn_sent (snd (Get (fun s => s) (str "a b" ++ [NL] ++ str "c")
                        (stub [] (from_list (str "wxyz")))))
      = Encode f /\
    ParseFrame (Encode f) = Ok f /\
    Code f = str "GET" /\ Payload f = str "a b" ++ [NL] ++ str "c".
Proof.
  apply (requests_decode_at_peer (fun s => s) (str "a b" ++ [NL] ++ str "c")
           [] (from_list (str "wxyz"))).
  reflexivity.
Defined.

(** X11. What [Put] sends can be taken apart again.  For every key
    outside the [sdc:] namespace and every value, whatever bytes they
    hold, the line [Put] sends on a fresh working connection decodes at
    the peer to a frame with code PUT whose payload splits at its single
    space into exactly two fields, which base64-decode to the key and to
    the value. *)
Theorem Put_decodes_at_peer (uni : gostring -> gostring) (key value pending : gostring)
    (ent : stream) :
  strings.HasPrefix key (str "sdc:") = false ->
  (Z.of_nat (length key + length value) < 2 ^ 56)%Z ->
  exists f k v,
    conn_sent (snd (Put uni key value (stub pending ent))) = Encode f /\
    ParseFrame (Encode f) = Ok f /\
    Code f = str "PUT" /\
    strings.Split (Payload f) SP = [k; v] /\
    base64.DecodeString k = Some key /\
    base64.DecodeString v = Some value.
Proof.
  intros Hk Hlen.
  set (text := base64.EncodeToString key ++ str " " ++ base64.EncodeToString value).
  exists (request_frame uni (str "PUT") text (stub pending ent)),
         (base64.EncodeToString key), (base64.EncodeToString value).
  assert (Hs : forall (m : IO gostring) w0,
             snd ((_ <- m ;; ret tt) w0) = snd (m w0)).
  { intros m w0. unfold bind. now destruct (m w0) as [[?|?] ?]. }
  split.
  { unfold Put. rewrite Hk, Hs. now apply sendRequest_sent_fresh. }
  assert (Hdec : ParseFrame (Encode (request_frame uni (str "PUT") text (stub pending ent)))
                 = Ok (request_frame uni (str "PUT") text (stub pending ent))).
  { apply (request_frame_decodes uni (str "PUT") text (stub pending ent));
      try reflexivity.
    - unfold lacks. simpl. intuition discriminate.
    - unfold text. rewrite !length_app.
      pose proof (base64_EncodeToString_bound key).
      pose proof (base64_EncodeToString_bound value).
      change (2 ^ 56)%Z with 72057594037927936%Z in Hlen.
      change (2 ^ 60)%Z with 1152921504606846976%Z.
      cbn [length str list_ascii_of_string]. lia. }
  split; [exact Hdec|]. split; [reflexivity|]. split.
  - cbn [request_frame updateBodyMetadata Payload]. unfold text.
    change (str " " ++ base64.EncodeToString value)
      with (SP :: base64.EncodeToString value).
    rewrite Split_app_sep by apply all_plain_lacks, base64_EncodeToString_plain.
    rewrite Split_lacks by apply all_plain_lacks, base64_EncodeToString_plain.
    reflexivity.
  - split; apply DecodeString_EncodeToString.
Qed.

Lemma Put_decodes_at_peer_witness :
  exists f k v,
    conn_sent (snd (Put (fun s => s) (str "my key") (str "a" ++ [NL] ++ str "b")
                        (stub [] (from_list (str "wxyz")))))
      = Encode f /\
    ParseFrame (Encode f) = Ok f /\
    Code f = str "PUT" /\
    strings.Split (Payload f) SP = [k; v] /\
    base64.DecodeString k = Some (str "my key") /\
    base64.DecodeString v = Some (str "a" ++ [NL] ++ str "b").
Proof.
  apply (Put_decodes_at_peer (fun s => s) (str "my key") (str "a" ++ [NL] ++ str "b")
           [] (from_list (str "wxyz"))).
  - reflexivity.
  - reflexivity.
Defined.

(** ** Making the client *)

(** A connection [open_transport] hands over is fresh and open. *)
Lemma open_transport_created (sys : System) (rnd : stream) (config : ClientConfig)
    (s : Session) :
  open_transport sys rnd config = Created s ->
  closes s = 0%nat /\
  exists p, io s = mkWorld [] None [] (peer_wcap p) (peer_data p) rnd /\
    ((kind s = SerialPort /\ deadlines s = [] /\
      exists sc, SerialConfig config = Some sc /\ serial_OpenPort sys sc = Ok p) \/
     (kind s = NetConn /\
      exists so, SocketConfig config = Some so /\
        net_Dial sys (Timeout so) (Network so) (Address so) = Ok p /\
        deadlines s = [if (Timeout so =? 0)%Z then NoDeadline
                       else At (now sys + Timeout so)%Z])).
Proof.
  unfold open_transport.
  destruct (eqb_str (Transport config) transportSerial).
  - destruct (SerialConfig config) as [sc|]; [|discriminate].
    destruct (eqb_str (serial.Name sc) []); [discriminate|].
    destruct (serial_OpenPort sys sc) as [p|e] eqn:E; [|discriminate].
    intros [= <-]. split; [reflexivity|]. exists p. split; [reflexivity|].
    left. repeat split. now exists sc.
  - destruct (eqb_str (Transport config) transportTCP
              || eqb_str (Transport config) transportUnix); [|discriminate].
    destruct (SocketConfig config) as [so|]; [|discriminate].
    destruct (net_Dial sys (Timeout so) (Network so) (Address so)) as [p|e] eqn:E;
      [|discriminate].
    unfold SetReadTimeout. cbn [kind open_session io closes deadlines].
    destruct (deadline_err sys); [discriminate|].
    intros [= <-]. split; [reflexivity|]. exists p. split; [reflexivity|].
    right. split; [reflexivity|]. now exists so.
Qed.

(** A connection [open_transport] gives up on has been closed once. *)
Lemma open_transport_failed (sys : System) (rnd : stream) (config : ClientConfig)
    (e : error) (s : Session) :
  open_transport sys rnd config = Failed e (Some s) -> closes s = 1%nat.
Proof.
  unfold open_transport.
  destruct (eqb_str (Transport config) transportSerial).
  - destruct (SerialConfig config) as [sc|]; [|discriminate].
    destruct (eqb_str (serial.Name sc) []); [discriminate|].
    destruct (serial_OpenPort sys sc); discriminate.
  - destruct (eqb_str (Transport config) transportTCP
              || eqb_str (Transport config) transportUnix); [|discriminate].
    destruct (SocketConfig config) as [so|]; [|discriminate].
    destruct (net_Dial sys (Timeout so) (Network so) (Address so)) as [p|e'];
      [|discriminate].
    unfold SetReadTimeout. cbn [kind open_session io closes deadlines].
    destruct (deadline_err sys); [|discriminate].
    now intros [= _ <-].
Qed.

(** A negotiation that succeeds has sent the request whole and taken
    exactly the expected reply from the peer's data. *)
Lemma Negotiate_true (w w' : World) :
  Negotiate w = ((true, None), w') ->
  conn_sent w' = conn_sent w ++ wr_buf w ++ NegotiationReq /\
  wr_buf w' = [] /\ wr_err w' = None /\ entropy w' = entropy w /\
  conn_pending w = NegotiationResp ++ conn_pending w'.
Proof.
  unfold Negotiate.
  destruct (bufio.WriteString NegotiationReq w) as [[nn [e|]] w1] eqn:E1;
    [discriminate|].
  destruct (bufio.Flush w1) as [[e|] w2] eqn:E2; [discriminate|].
  destruct (WriteString_Flush_success _ _ _ _ _ E1 E2) as (S1 & S2 & S3 & S4 & S5).
  rewrite ReadString_effect.
  destruct (bufio.cut_at NL (conn_pending w2)) as [[line rest]|] eqn:Ec;
    [|discriminate].
  intros [= Heq <-]. apply eqb_str_eq in Heq. subst line.
  apply cut_at_spec in Ec as [Ec _].
  cbn [set_pending conn_sent wr_buf wr_err entropy conn_pending].
  repeat split; congruence.
Qed.

(** X12. No connection is leaked, and a client is ready when returned.
    When [NewMetadataClient] returns a client, its connection has not been
    closed, nothing is left in the writer, the only bytes sent are the
    negotiation request, and the peer's data began with the expected
    reply, which is the only part consumed.  When it fails after a
    connection was opened, that connection has been closed exactly once.
    When it fails with no connection, the failure is that of the
    transport [switch]: nothing was negotiated. *)
Theorem NewMetadataClient_outcome (sys : System) (rnd : stream) (config : ClientConfig) :
  match NewMetadataClient sys rnd config with
  | Created c =>
      closes c = 0%nat /\
      wr_buf (io c) = [] /\ wr_err (io c) = None /\
      conn_sent (io c) = str "NEGOTIATE V2" ++ [NL] /\
      entropy (io c) = rnd /\
      exists s, open_transport sys rnd config = Created s /\
                conn_pending (io s) = str "V2_OK" ++ [NL] ++ conn_pending (io c)
  | Failed e (Some s) => closes s = 1%nat
  | Failed e None => open_transport sys rnd config = Failed e None
  end.
Proof.
  unfold NewMetadataClient.
  destruct (open_transport sys rnd config) as [s|e [s|]] eqn:Eo.
  - destruct (open_transport_created _ _ _ _ Eo) as (Hc & p & Hio & _).
    destruct (Negotiate (io s)) as [[supported [e|]] w] eqn:En.
    + cbn. now rewrite Hc.
    + destruct supported; cbn [negb].
      * apply Negotiate_true in En as (N1 & N2 & N3 & N4 & N5).
        rewrite Hio in N1, N4, N5. cbn in N1, N4, N5.
        cbn [set_io io closes]. repeat split; try assumption.
        exists s. split; [reflexivity|]. rewrite Hio. exact N5.
      * cbn. now rewrite Hc.
  - now apply open_transport_failed in Eo.
  - reflexivity.
Qed.

Lemma NewMetadataClient_outcome_witness :
  exists c,
    NewMetadataClient (dialing_system (mkPeer None (str "V2_OK" ++ [NL] ++ str "next")))
                      (from_list (str "wxyz"))
                      (fst (DefaultClientConfig native_zone (str "linux")))
      = Created c /\
    closes c = 0%nat /\ conn_sent (io c) = str "NEGOTIATE V2" ++ [NL] /\
    conn_pending (io c) = str "next".
Proof.
  pose proof (NewMetadataClient_outcome
                (dialing_system (mkPeer None (str "V2_OK" ++ [NL] ++ str "next")))
                (from_list (str "wxyz"))
                (fst (DefaultClientConfig native_zone (str "linux")))) as H.
  destruct (NewMetadataClient _ _ _) as [c|e o] eqn:E.
  - exists c. destruct H as (H1 & _ & _ & H4 & _).
    split; [reflexivity|]. split; [exact H1|]. split; [exact H4|].
    vm_compute in E. injection E as <-. reflexivity.
  - vm_compute in E. discriminate.
Defined.

(** Negotiation on a fresh connection that takes the request: the
    answer is decided by the peer's first line. *)
Lemma Negotiate_fresh (wcap : option nat) (pending : gostring) (rnd : stream) :
  accepts wcap (length NegotiationReq) ->
  exists wcap',
    Negotiate (mkWorld [] None [] wcap pending rnd)
    = match bufio.cut_at NL pending with
      | Some (line, rest) =>
          ((eqb_str line NegotiationResp, None),
           mkWorld [] None NegotiationReq wcap' rest rnd)
      | None =>
          ((false, Some (wrapError (str "failed to read negotiation response: ")
                                   (libError "Conn.Read"))),
           mkWorld [] None NegotiationReq wcap' [] rnd)
      end.
Proof.
  intro Ha. unfold Negotiate.
  rewrite WriteString_fits by (reflexivity || (vm_compute; lia)).
  unfold set_wr. cbn [wr_buf wr_err conn_sent conn_wcap conn_pending entropy app].
  unfold bufio.Flush. cbn [wr_err wr_buf NegotiationReq str list_ascii_of_string app].
  unfold conn_Write. cbn [conn_wcap conn_sent].
  destruct wcap as [cap|]; cbn [accepts] in Ha.
  - replace (length _ <=? cap)%nat with true by (symmetry; apply Nat.leb_le; exact Ha).
    rewrite Nat.ltb_irrefl. eexists. rewrite ReadString_effect.
    cbn [set_wr set_conn_out wr_buf wr_err conn_sent conn_wcap conn_pending entropy].
    destruct (bufio.cut_at NL pending) as [[line rest]|]; reflexivity.
  - rewrite Nat.ltb_irrefl. eexists. rewrite ReadString_effect.
    cbn [set_wr set_conn_out wr_buf wr_err conn_sent conn_wcap conn_pending entropy].
    destruct (bufio.cut_at NL pending) as [[line rest]|]; reflexivity.
Qed.

Lemma Negotiate_refused (cap : nat) (pending : gostring) (rnd : stream) :
  (cap < length NegotiationReq)%nat ->
  exists w',
    Negotiate (mkWorld [] None [] (Some cap) pending rnd)
    = ((false, Some (wrapError (str "failed to flush negotiation: ")
                               (libError "Conn.Write"))), w') /\
    conn_pending w' = pending.
Proof.
  intro Hlt. unfold Negotiate.
  rewrite WriteString_fits by (reflexivity || (vm_compute; lia)).
  unfold set_wr. cbn [wr_buf wr_err conn_sent conn_wcap conn_pending entropy app].
  unfold bufio.Flush. cbn [wr_err wr_buf NegotiationReq str list_ascii_of_string app].
  unfold conn_Write. cbn [conn_wcap].
  replace (length _ <=? cap)%nat with false
    by (symmetry; apply Nat.leb_gt; exact Hlt).
  eexists. split; reflexivity.
Qed.

(** X13. The handshake decides.  Once the transport is open, with a
    connection that takes the thirteen bytes of the request:
    the client is returned exactly when the peer's data begins with the
    expected reply line, and what follows that line stays for the first
    response; any other first line makes construction fail with "server
    does not support Version 2 protocol"; data without a newline makes it
    fail with the read error wrapped in "protocol negotiation failed".
    When the connection does not take the request, construction fails
    with the flush error and nothing is read.  In every failure the
    connection has been closed once. *)
Theorem NewMetadataClient_handshake (sys : System) (rnd : stream)
    (config : ClientConfig) (s : Session) :
  open_transport sys rnd config = Created s ->
  let pending := conn_pending (io s) in
  let takes := accepts (conn_wcap (io s)) 13 in
  (takes -> forall rest, pending = str "V2_OK" ++ [NL] ++ rest ->
   exists c, NewMetadataClient sys rnd config = Created c /\
             conn_pending (io c) = rest /\ closes c = 0%nat /\
             kind c = kind s /\ deadlines c = deadlines s) /\
  (takes -> forall line rest,
     bufio.cut_at NL pending = Some (line, rest) -> line <> str "V2_OK" ++ [NL] ->
     exists s',
       NewMetadataClient sys rnd config
       = Failed (errorString (str "server does not support Version 2 protocol"))
                (Some s') /\
       closes s' = 1%nat /\ conn_pending (io s') = rest) /\
  (takes -> lacks NL pending ->
   exists s',
     NewMetadataClient sys rnd config
     = Failed (wrapError (str "protocol negotiation failed: ")
                 (wrapError (str "failed to read negotiation response: ")
                            (libError "Conn.Read")))
              (Some s') /\
     closes s' = 1%nat) /\
  (~ takes ->
   exists s',
     NewMetadataClient sys rnd config
     = Failed (wrapError (str "protocol negotiation failed: ")
                 (wrapError (str "failed to flush negotiation: ")
                            (libError "Conn.Write")))
              (Some s') /\
     closes s' = 1%nat /\ conn_pending (io s') = pending).
Proof.
  intros Eo pending takes. subst pending takes.
  destruct (open_transport_created _ _ _ _ Eo) as (Hc & p & Hio & _).
  unfold NewMetadataClient. rewrite Eo, Hio.
  cbn [conn_pending conn_wcap].
  split; [|split; [|split]].
  - intros Ha rest Hp.
    destruct (Negotiate_fresh (peer_wcap p) (peer_data p) rnd Ha) as (wcap' & En).
    rewrite En, Hp.
    change (str "V2_OK" ++ [NL] ++ rest) with (str "V2_OK" ++ NL :: rest).
    rewrite cut_at_line by (unfold lacks; simpl; intuition discriminate).
    change (eqb_str (str "V2_OK" ++ [NL]) NegotiationResp) with true. cbn [negb].
    eexists. split; [reflexivity|]. now repeat split.
  - intros Ha line rest Hcut Hne.
    destruct (Negotiate_fresh (peer_wcap p) (peer_data p) rnd Ha) as (wcap' & En).
    rewrite En, Hcut.
    replace (eqb_str line NegotiationResp) with false.
    + cbn [negb]. eexists. split; [reflexivity|]. split; [cbn; now rewrite Hc|reflexivity].
    + symmetry. destruct (eqb_str line NegotiationResp) eqn:E; [|reflexivity].
      apply eqb_str_eq in E. contradiction.
  - intros Ha Hno.
    destruct (Negotiate_fresh (peer_wcap p) (peer_data p) rnd Ha) as (wcap' & En).
    apply cut_at_none in Hno. rewrite En, Hno.
    eexists. split; [reflexivity|]. cbn. now rewrite Hc.
  - intro Hna. destruct (peer_wcap p) as [cap|] eqn:Ew; [|now elim Hna].
    cbn [accepts] in Hna.
    destruct (Negotiate_refused cap (peer_data p) rnd) as (w' & En & Hp);
      [change (length NegotiationReq) with 13%nat; lia|].
    rewrite En. eexists. split; [reflexivity|].
    split; [cbn; now rewrite Hc|exact Hp].
Qed.

Lemma NewMetadataClient_handshake_witness :
  exists s',
    NewMetadataClient (dialing_system (mkPeer None (str "NOPE" ++ [NL])))
                      (from_list (str "wxyz"))
                      (fst (DefaultClientConfig native_zone (str "linux")))
    = Failed (errorString (str "server does not support Version 2 protocol"))
             (Some s') /\
    closes s' = 1%nat /\ conn_pending (io s') = [].
Proof.
  refine (proj1 (proj2 (NewMetadataClient_handshake
            (dialing_system (mkPeer None (str "NOPE" ++ [NL]))) (from_list (str "wxyz"))
            (fst (DefaultClientConfig native_zone (str "linux")))
            _ eq_refl)) I (str "NOPE" ++ [NL]) [] eq_refl _).
  discriminate.
Defined.

Lemma NewMetadataClient_failed_unopened (sys : System) (rnd : stream)
    (config : ClientConfig) (e : error) :
  NewMetadataClient sys rnd config = Failed e None ->
  open_transport sys rnd config = Failed e None.
Proof.
  unfold NewMetadataClient.
  destruct (open_transport sys rnd config) as [s|e' [s|]]; try discriminate.
  - destruct (Negotiate (io s)) as [[supported [e1|]] w]; [discriminate|].
    destruct (negb supported); discriminate.
  - now intros [= <-].
Qed.

(** X14. The default configuration and the checks of the constructor.
    [DefaultClientConfig] chooses the unix socket when one of the two
    zone sockets exists (the one under /native first, with a timeout of
    five seconds) and a serial port otherwise; it never chooses TCP.  The
    configuration it returns is turned down by [NewMetadataClient]'s own
    checks, before anything is opened, in exactly one situation: no zone
    socket and an operating system other than linux, windows and solaris;
    the error is then "serial port not specified in config", and that is
    also the only situation in which [DefaultClientConfig] prints its
    warning. *)
Theorem default_config_checked (sys : System) (rnd : stream)
    (stat_ok : gostring -> bool) (GOOS : gostring) :
  let cfg := fst (DefaultClientConfig stat_ok GOOS) in
  let printed := snd (DefaultClientConfig stat_ok GOOS) in
  (zone_socket stat_ok = true ->
   Transport cfg = str "unix" /\ SerialConfig cfg = None /\
   SocketConfig cfg
   = Some (mkSocketConfig (str "unix")
             (if stat_ok (str "/native/.zonecontrol/metadata.sock")
              then str "/native/.zonecontrol/metadata.sock"
              else str "/.zonecontrol/metadata.sock")
             5000000000%Z)) /\
  (zone_socket stat_ok = false ->
   Transport cfg = str "serial" /\ SocketConfig cfg = None /\
   exists sc, SerialConfig cfg = Some sc /\
     serial.Baud sc = 115200%Z /\ serial.ReadTimeout sc = 60000000000%Z /\
     (serial.Name sc = [] <-> known_OS GOOS = false)) /\
  (zone_socket stat_ok || known_OS GOOS = false ->
   NewMetadataClient sys rnd cfg
   = Failed (errorString (str "serial port not specified in config")) None /\
   printed = str "Warning: unsupported OS " ++ GOOS
               ++ str ", Port field left empty" ++ [NL]) /\
  (zone_socket stat_ok || known_OS GOOS = true ->
   printed = [] /\
   forall msg, NewMetadataClient sys rnd cfg <> Failed (errorString msg) None).
Proof.
  intros cfg printed. subst cfg printed.
  unfold zone_socket, known_OS, DefaultClientConfig.
  destruct (stat_ok (str "/native/.zonecontrol/metadata.sock")) eqn:Elx;
    [|destruct (stat_ok (str "/.zonecontrol/metadata.sock")) eqn:Enat].
  1,2: cbn [orb fst snd Transport SerialConfig SocketConfig];
    (split; [intros _; now repeat split|]);
    (split; [discriminate|]); (split; [discriminate|]);
    intros _; (split; [reflexivity|]);
    intros msg H; apply NewMetadataClient_failed_unopened in H;
    unfold open_transport in H;
    cbn [Transport SocketConfig Network Address Timeout] in H;
    change (eqb_str transportUnix transportSerial) with false in H;
    change (eqb_str transportUnix transportTCP || eqb_str transportUnix transportUnix)
      with true in H; cbv iota in H;
    match type of H with
    | context [net_Dial ?a ?b ?c ?d] => destruct (net_Dial a b c d) as [p|e]
    end; [|discriminate];
    destruct (SetReadTimeout _ _ _) as [[e|] s]; discriminate.
  cbn [orb].
  split; [discriminate|].
  destruct (eqb_str GOOS (str "linux")) eqn:E1;
    [|destruct (eqb_str GOOS (str "windows")) eqn:E2;
      [|destruct (eqb_str GOOS (str "solaris")) eqn:E3]];
    cbn [orb fst snd Transport SerialConfig SocketConfig].
  4: { split.
       { intros _. split; [reflexivity|]. split; [reflexivity|].
         eexists. split; [reflexivity|]. cbn. now repeat split. }
       split; [|discriminate]. intros _. split; reflexivity. }
  all: (split;
        [intros _; split; [reflexivity|]; split; [reflexivity|];
         eexists; split; [reflexivity|]; cbn; repeat split; discriminate|]);
    (split; [discriminate|]); intros _; (split; [reflexivity|]);
    intros msg H; apply NewMetadataClient_failed_unopened in H;
    unfold open_transport in H; cbn [Transport SerialConfig serial.Name] in H;
    change (eqb_str transportSerial transportSerial) with true in H; cbv iota in H;
    match type of H with
    | context [eqb_str ?n []] => change (eqb_str n []) with false in H
    end; cbv iota in H;
    match type of H with
    | context [serial_OpenPort ?a ?b] => destruct (serial_OpenPort a b) as [p|e]
    end; discriminate.
Qed.

Lemma default_config_checked_witness :
  NewMetadataClient (dialing_system (mkPeer None [])) (from_list (str "wxyz"))
                    (fst (DefaultClientConfig (fun _ => false) (str "darwin")))
  = Failed (errorString (str "serial port not specified in config")) None /\
  snd (DefaultClientConfig (fun _ => false) (str "darwin"))
  = str "Warning: unsupported OS darwin, Port field left empty" ++ [NL].
Proof.
  apply (proj1 (proj2 (proj2 (default_config_checked
           (dialing_system (mkPeer None [])) (from_list (str "wxyz"))
           (fun _ => false) (str "darwin"))))).
  reflexivity.
Defined.

(** ** The command line *)

Lemma NewMetadataClient_closes (sys : System) (rnd : stream) (config : ClientConfig) :
  (forall c, NewMetadataClient sys rnd config = Created c ->
     closes c = 0%nat /\ conn_sent (io c) = NegotiationReq /\ wr_buf (io c) = []) /\
  (forall e s, NewMetadataClient sys rnd config = Failed e (Some s) ->
     closes s = 1%nat).
Proof.
  unfold NewMetadataClient.
  destruct (open_transport sys rnd config) as [s|e [s|]] eqn:Eo.
  - destruct (open_transport_created _ _ _ _ Eo) as (Hc & p & Hio & _).
    destruct (Negotiate (io s)) as [[supported [e|]] w] eqn:En.
    + split; [discriminate|]. intros ? ? [= _ <-]. cbn. now rewrite Hc.
    + destruct supported; cbn [negb].
      * split; [|discriminate]. intros c [= <-].
        apply Negotiate_true in En as (N1 & N2 & _).
        rewrite Hio in N1. cbn in N1. cbn [set_io io closes]. now repeat split.
      * split; [discriminate|]. intros ? ? [= _ <-]. cbn. now rewrite Hc.
  - split; [discriminate|]. intros ? ? [= _ <-]. now apply open_transport_failed in Eo.
  - split; discriminate.
Qed.

(** X15. [runCommand].  Whatever the operation does, a connection the
    command opened has been closed exactly once when the command
    returns.  When the client cannot be made, the error is returned
    wrapped with the transport name and the operation is not run.
    Otherwise the operation runs on the client: its error is returned as
    it is, NOTFOUND like any other, and nothing is printed; its result is
    printed followed by a newline, unless it is empty, and then nothing
    is printed. *)
Theorem runCommand_outcome (sys : System) (stat_ok : gostring -> bool)
    (GOOS : gostring) (rnd : stream) (op : IO gostring) :
  let cfg := fst (DefaultClientConfig stat_ok GOOS) in
  let warned := snd (DefaultClientConfig stat_ok GOOS) in
  let r := runCommand sys stat_ok GOOS rnd op in
  let err := fst (fst r) in
  let out := snd (fst r) in
  let conn := snd r in
  (forall s, conn = Some s -> closes s = 1%nat) /\
  (forall e opened,
     NewMetadataClient sys rnd cfg = Failed e opened ->
     err = Some (wrapError (str "failed to create client (" ++ Transport cfg
                              ++ str "): ") e) /\
     out = warned /\ conn = opened) /\
  (forall c,
     NewMetadataClient sys rnd cfg = Created c ->
     exists s, conn = Some s /\ io s = snd (op (io c)) /\
       match fst (op (io c)) with
       | Err e => err = Some e /\ out = warned
       | Ok [] => err = None /\ out = warned
       | Ok result => err = None /\ out = warned ++ result ++ [NL]
       end).
Proof.
  intros cfg warned r err out conn. subst r err out conn.
  unfold runCommand. subst cfg warned.
  destruct (DefaultClientConfig stat_ok GOOS) as [cfg printed]. cbn [fst snd].
  destruct (NewMetadataClient_closes sys rnd cfg) as [Hc Hf].
  destruct (NewMetadataClient sys rnd cfg) as [c|e opened].
  - destruct (Hc c eq_refl) as (Hc0 & _).
    destruct (op (io c)) as [[result|e] w] eqn:Eop; cbn [fst snd].
    + destruct result as [|b res]; cbn [eqb_str negb fst snd].
      * split; [intros s [= <-]; cbn; now rewrite Hc0|].
        split; [discriminate|]. intros c' [= <-]. rewrite Eop.
        eexists. split; [reflexivity|]. now split.
      * split; [intros s [= <-]; cbn; now rewrite Hc0|].
        split; [discriminate|]. intros c' [= <-]. rewrite Eop.
        eexists. split; [reflexivity|]. now split.
    + split; [intros s [= <-]; cbn; now rewrite Hc0|].
      split; [discriminate|]. intros c' [= <-]. rewrite Eop.
      eexists. split; [reflexivity|]. now split.
  - cbn [fst snd]. split.
    + intros s ->. now apply (Hf e s).
    + split; [|discriminate]. intros e' o [= <- <-]. now repeat split.
Qed.

Lemma runCommand_outcome_witness :
  exists s,
    snd (runCommand
           (dialing_system
              (mkPeer None (str "V2_OK" ++ [NL] ++ str "garbage" ++ [NL])))
           native_zone (str "linux") (from_list (str "wxyz"))
           (get_op (fun s => s) (str "greeting")))
    = Some s /\ closes s = 1%nat.
Proof.
  destruct (snd (runCommand
                   (dialing_system
                      (mkPeer None (str "V2_OK" ++ [NL] ++ str "garbage" ++ [NL])))
                   native_zone (str "linux") (from_list (str "wxyz"))
                   (get_op (fun s => s) (str "greeting")))) as [s|] eqn:E.
  - exists s. split; [reflexivity|].
    exact (proj1 (runCommand_outcome _ _ _ _ _) s E).
  - vm_compute in E. discriminate.
Defined.

Example command_line_get :
  runCommand (dialing_system
                (mkPeer None (str "V2_OK" ++ [NL]
                                ++ str "V2 21 fdff0508 00000000 SUCCESS aGk=" ++ [NL])))
             native_zone (str "linux") (from_list (str "wxyz"))
             (get_op (fun s => s) (str "greeting"))
  = (None, str "hi" ++ [NL],
     Some (mkSession NetConn
             (mkWorld [] None
                (str "NEGOTIATE V2" ++ [NL]
                   ++ str "V2 25 24704035 7778797a GET Z3JlZXRpbmc=" ++ [NL])
                None [] (from_list []))
             1 [At 5000000000])).
Proof. vm_compute. reflexivity. Qed.

Lemma runCommand_silent (sys : System) (stat_ok : gostring -> bool)
    (GOOS : gostring) (rnd : stream) (op : IO gostring) :
  (forall w r, fst (op w) = Ok r -> r = []) ->
  snd (fst (runCommand sys stat_ok GOOS rnd op))
  = snd (DefaultClientConfig stat_ok GOOS).
Proof.
  intro Hop. unfold runCommand.
  destruct (DefaultClientConfig stat_ok GOOS) as [cfg printed]. cbn [snd].
  destruct (NewMetadataClient sys rnd cfg) as [c|e opened]; [|reflexivity].
  pose proof (Hop (io c)) as H.
  destruct (op (io c)) as [[result|e] w]; [|reflexivity].
  rewrite (H result eq_refl). reflexivity.
Qed.

(** X16. The commands.  The put and the delete command never print a
    result: their output is what [DefaultClientConfig] printed, nothing
    more, whether they succeed or fail.  The namespace guard of [Put]
    comes after the connection: a put on an [sdc:] key still opens the
    transport and negotiates, then fails with the namespace error without
    sending a PUT frame (the negotiation request is all the connection
    ever received), and the connection is closed. *)
Theorem commands_put_delete (uni : gostring -> gostring) (sys : System)
    (stat_ok : gostring -> bool) (GOOS : gostring) (rnd : stream)
    (key value : gostring) :
  let warned := snd (DefaultClientConfig stat_ok GOOS) in
  snd (fst (runCommand sys stat_ok GOOS rnd (put_op uni key value))) = warned /\
  snd (fst (runCommand sys stat_ok GOOS rnd (delete_op uni key))) = warned /\
  (strings.HasPrefix key (str "sdc:") = true ->
   forall c,
     NewMetadataClient sys rnd (fst (DefaultClientConfig stat_ok GOOS)) = Created c ->
     exists s,
       runCommand sys stat_ok GOOS rnd (put_op uni key value)
       = (Some ErrReadOnly, warned, Some s) /\
       conn_sent (io s) = str "NEGOTIATE V2" ++ [NL] /\
       io s = io c /\ closes s = 1%nat).
Proof.
  intro warned. subst warned. split; [|split].
  - apply runCommand_silent. intros w r. unfold put_op, bind.
    destruct (Put uni key value w) as [[[]|e] w1]; cbn [fst ret];
      [now intros [= <-]|discriminate].
  - apply runCommand_silent. intros w r. unfold delete_op, bind.
    destruct (Delete uni key w) as [[[]|e] w1]; cbn [fst ret];
      [now intros [= <-]|discriminate].
  - intros Hk c Hc. unfold runCommand.
    destruct (DefaultClientConfig stat_ok GOOS) as [cfg printed]. cbn [fst snd] in *.
    destruct (NewMetadataClient_closes sys rnd cfg) as [Hc0 _].
    destruct (Hc0 c Hc) as (Hcl & Hsent & _).
    rewrite Hc. unfold put_op, bind, Put. rewrite Hk. unfold fail.
    eexists. split; [reflexivity|].
    cbn [Close conn_Close snd set_io io closes].
    split; [exact Hsent|]. split; [reflexivity|]. now rewrite Hcl.
Qed.

Lemma commands_put_delete_witness :
  exists s,
    runCommand (dialing_system (mkPeer None (str "V2_OK" ++ [NL])))
               native_zone (str "linux") (from_list (str "wxyz"))
               (put_op (fun s => s) (str "sdc:uuid") (str "v"))
    = (Some ErrReadOnly, [], Some s) /\
    conn_sent (io s) = str "NEGOTIATE V2" ++ [NL] /\ closes s = 1%nat.
Proof.
  pose proof (commands_put_delete (fun s => s)
                (dialing_system (mkPeer None (str "V2_OK" ++ [NL])))
                native_zone (str "linux") (from_list (str "wxyz")) (str "sdc:uuid") (str "v")) as H.
  cbv zeta in H. destruct H as (_ & _ & H).
  destruct (H eq_refl
              (mkSession NetConn
                 (mkWorld [] None (str "NEGOTIATE V2" ++ [NL]) None [] (from_list (str "wxyz")))
                 0 [At 5000000000]))
    as (s & Hr & Hs & _ & Hc).
  - vm_compute. reflexivity.
  - exists s. split; [exact Hr|]. split; [exact Hs|exact Hc].
Defined.

(** ** More on frames and sessions *)

(** X17. The wire form is unambiguous: two frames whose checksums fit
    their bodies, whose lengths are [int]s and whose ids and codes hold no
    space have the same encoding only if they are the same frame. *)
Theorem Encode_injective (f g : frame) :
  lacks SP (RequestID f) -> lacks SP (Code f) ->
  BodyChecksum f = checksum_of (buildBodyString f) ->
  (- MaxInt64 - 1 <= BodyLength f <= MaxInt64)%Z ->
  lacks SP (RequestID g) -> lacks SP (Code g) ->
  BodyChecksum g = checksum_of (buildBodyString g) ->
  (- MaxInt64 - 1 <= BodyLength g <= MaxInt64)%Z ->
  Encode f = Encode g -> f = g.
Proof.
  intros F1 F2 F3 F4 G1 G2 G3 G4 E.
  pose proof (ParseFrame_Encode f F1 F2 F3 F4) as Pf.
  pose proof (ParseFrame_Encode g G1 G2 G3 G4) as Pg.
  rewrite E in Pf. congruence.
Qed.

Lemma Encode_injective_witness :
  Encode (mkFrame (str "00000000") (str "SUCCESS") [] 16 (str "3375a58e"))
  = Encode (updateBodyMetadata (mkFrame (str "00000000") (str "SUCCESS") [] 0 [])) /\
  mkFrame (str "00000000") (str "SUCCESS") [] 16 (str "3375a58e")
  = updateBodyMetadata (mkFrame (str "00000000") (str "SUCCESS") [] 0 []).
Proof.
  split; [vm_compute; reflexivity|].
  apply (Encode_injective
           (mkFrame (str "00000000") (str "SUCCESS") [] 16 (str "3375a58e"))
           (updateBodyMetadata (mkFrame (str "00000000") (str "SUCCESS") [] 0 []))).
  - unfold lacks. simpl. intuition discriminate.
  - unfold lacks. simpl. intuition discriminate.
  - vm_compute. reflexivity.
  - unfold MaxInt64. cbn. lia.
  - unfold lacks. simpl. intuition discriminate.
  - unfold lacks. simpl. intuition discriminate.
  - vm_compute. reflexivity.
  - unfold MaxInt64. vm_compute. split; discriminate.
  - vm_compute. reflexivity.
Defined.

(** X18. Read deadlines.  A client over a socket has had its read
    deadline set once, before the handshake: to the time of the call plus
    the configured timeout, or to no deadline when the timeout is zero.  A
    client over a serial port never has a deadline set ([SetReadTimeout]
    does nothing there).  When setting the deadline fails, the socket
    just dialled is closed, nothing is sent on it, and construction fails
    with "failed to set read timeout". *)
Theorem read_deadline (sys : System) (rnd : stream) (config : ClientConfig) :
  (forall c,
     NewMetadataClient sys rnd config = Created c ->
     match kind c with
     | SerialPort => deadlines c = []
     | NetConn =>
         exists so, SocketConfig config = Some so /\
           deadlines c = [if (Timeout so =? 0)%Z then NoDeadline
                          else At (now sys + Timeout so)%Z]
     end) /\
  (forall so p err,
     Transport config = str "tcp" \/ Transport config = str "unix" ->
     SocketConfig config = Some so ->
     net_Dial sys (Timeout so) (Network so) (Address so) = Ok p ->
     deadline_err sys = Some err ->
     exists s,
       NewMetadataClient sys rnd config
       = Failed (wrapError (str "failed to set read timeout: ") err) (Some s) /\
       closes s = 1%nat /\ conn_sent (io s) = [] /\
       conn_pending (io s) = peer_data p).
Proof.
  split.
  - intros c H. unfold NewMetadataClient in H.
    destruct (open_transport sys rnd config) as [s|e o] eqn:Eo; [|discriminate].
    destruct (open_transport_created _ _ _ _ Eo) as (_ & p & _ & Hk).
    destruct (Negotiate (io s)) as [[supported [e|]] w]; [discriminate|].
    destruct (negb supported); [discriminate|]. injection H as <-.
    cbn [set_io kind deadlines].
    destruct Hk as [(Hk & Hd & _)|(Hk & so & Hso & _ & Hd)]; rewrite Hk.
    + exact Hd.
    + now exists so.
  - intros so p err Ht Hso Hd He. unfold NewMetadataClient, open_transport.
    assert (Hs : eqb_str (Transport config) transportSerial = false)
      by (destruct Ht as [-> | ->]; reflexivity).
    assert (Hn : eqb_str (Transport config) transportTCP
                 || eqb_str (Transport config) transportUnix = true)
      by (destruct Ht as [-> | ->]; reflexivity).
    rewrite Hs, Hn, Hso, Hd. unfold SetReadTimeout.
    cbn [kind open_session]. rewrite He.
    eexists. split; [reflexivity|]. now repeat split.
Qed.

Lemma read_deadline_witness :
  exists s,
    NewMetadataClient
      (mkSystem (fun _ => Err (libError "serial.OpenPort"))
                (fun _ _ _ => Ok (mkPeer None (str "V2_OK" ++ [NL])))
                (Some (libError "net.Conn.SetReadDeadline")) None 0%Z)
      (from_list (str "wxyz"))
      (mkClientConfig (str "tcp") None
         (Some (mkSocketConfig (str "tcp") (str "localhost:12345") 5000000000%Z)))
    = Failed (wrapError (str "failed to set read timeout: ")
                        (libError "net.Conn.SetReadDeadline")) (Some s) /\
    closes s = 1%nat /\ conn_sent (io s) = [].
Proof.
  destruct (proj2 (read_deadline
              (mkSystem (fun _ => Err (libError "serial.OpenPort"))
                        (fun _ _ _ => Ok (mkPeer None (str "V2_OK" ++ [NL])))
                        (Some (libError "net.Conn.SetReadDeadline")) None 0%Z)
              (from_list (str "wxyz"))
              (mkClientConfig (str "tcp") None
                 (Some (mkSocketConfig (str "tcp") (str "localhost:12345") 5000000000%Z))))
              (mkSocketConfig (str "tcp") (str "localhost:12345") 5000000000%Z)
              (mkPeer None (str "V2_OK" ++ [NL]))
              (libError "net.Conn.SetReadDeadline")
              (or_introl eq_refl) eq_refl eq_refl eq_refl)
    as (s & H1 & H2 & H3 & _).
  exists s. now repeat split.
Defined.

(** Negotiation on a fresh connection without a write limit. *)
Lemma Negotiate_working (pending : gostring) (rnd : stream) :
  Negotiate (mkWorld [] None [] None pending rnd)
  = match bufio.cut_at NL pending with
    | Some (line, rest) =>
        ((eqb_str line NegotiationResp, None),
         mkWorld [] None NegotiationReq None rest rnd)
    | None =>
        ((false, Some (wrapError (str "failed to read negotiation response: ")
                                 (libError "Conn.Read"))),
         mkWorld [] None NegotiationReq None [] rnd)
    end.
Proof.
  unfold Negotiate.
  rewrite WriteString_fits by (reflexivity || (vm_compute; lia)).
  unfold set_wr. cbn [wr_buf wr_err conn_sent conn_wcap conn_pending entropy app].
  unfold bufio.Flush. cbn [wr_err wr_buf NegotiationReq str list_ascii_of_string app].
  unfold conn_Write. cbn [conn_wcap conn_sent].
  rewrite Nat.ltb_irrefl. rewrite ReadString_effect.
  cbn [set_wr set_conn_out wr_buf wr_err conn_sent conn_wcap conn_pending entropy].
  destruct (bufio.cut_at NL pending) as [[line rest]|]; reflexivity.
Qed.

(** X19. A session from the start.  On a transport that opens a working
    connection whose peer first sends the expected negotiation reply and
    then the encoding of a SUCCESS frame, making the client and calling
    [Get] once returns the payload of that frame; the connection has then
    received the negotiation request followed by the GET frame, and
    nothing else; what the peer sent after the response is still
    unread. *)
Theorem session_get (uni : gostring -> gostring) (sys : System) (rnd : stream)
    (config : ClientConfig) (s : Session) (g : frame) (key rest : gostring) :
  open_transport sys rnd config = Created s ->
  conn_wcap (io s) = None ->
  conn_pending (io s) = str "V2_OK" ++ [NL] ++ Encode g ++ rest ->
  answerable g -> Code g = str "SUCCESS" ->
  exists c,
    NewMetadataClient sys rnd config = Created c /\
    fst (Get uni key (io c)) = Ok (Payload g) /\
    conn_sent (snd (Get uni key (io c)))
    = str "NEGOTIATE V2" ++ [NL]
        ++ Encode (request_frame uni (str "GET") key (io c)) /\
    conn_pending (snd (Get uni key (io c))) = rest.
Proof.
  intros Eo Hcap Hp Hg Hcode.
  destruct (open_transport_created _ _ _ _ Eo) as (Hc & p & Hio & _).
  rewrite Hio in Hcap, Hp. cbn [conn_wcap conn_pending] in Hcap, Hp.
  unfold NewMetadataClient. rewrite Eo, Hio, Hcap, Hp.
  rewrite Negotiate_working.
  change (str "V2_OK" ++ [NL] ++ Encode g ++ rest)
    with (str "V2_OK" ++ NL :: (Encode g ++ rest)).
  rewrite cut_at_line by (unfold lacks; simpl; intuition discriminate).
  change (eqb_str (str "V2_OK" ++ [NL]) NegotiationResp) with true. cbn [negb].
  eexists. split; [reflexivity|].
  cbn [set_io io]. unfold Get.
  rewrite sendRequest_working.
  destruct (answerable_line g rest Hg) as [Hcut Hparse].
  rewrite Hcut. unfold answer. rewrite Hparse, Hcode.
  change (eqb_str (str "SUCCESS") (str "SUCCESS")) with true.
  cbn [fst snd set_pending conn_sent conn_pending app].
  split; [reflexivity|]. split; reflexivity.
Qed.

Lemma session_get_witness :
  exists c,
    NewMetadataClient
      (dialing_system
         (mkPeer None (str "V2_OK" ++ [NL]
                         ++ Encode (mkFrame (str "00000000") (str "SUCCESS") (str "hi")
                                            21 (str "fdff0508"))
                         ++ str "later")))
      (from_list (str "wxyz")) (fst (DefaultClientConfig native_zone (str "linux")))
    = Created c /\
    fst (Get (fun s => s) (str "greeting") (io c)) = Ok (str "hi") /\
    conn_pending (snd (Get (fun s => s) (str "greeting") (io c))) = str "later".
Proof.
  destruct (session_get (fun s => s)
              (dialing_system
                 (mkPeer None (str "V2_OK" ++ [NL]
                                 ++ Encode (mkFrame (str "00000000") (str "SUCCESS")
                                                    (str "hi") 21 (str "fdff0508"))
                                 ++ str "later")))
              (from_list (str "wxyz")) (fst (DefaultClientConfig native_zone (str "linux")))
              _
              (mkFrame (str "00000000") (str "SUCCESS") (str "hi") 21 (str "fdff0508"))
              (str "greeting") (str "later") eq_refl eq_refl eq_refl)
    as (c & H1 & H2 & _ & H4).
  - unfold answerable. split; [vm_compute; reflexivity|].
    split; [unfold MaxInt64; cbn; lia|]. split; repeat constructor.
  - reflexivity.
  - exists c. now repeat split.
Defined.
